(** * MaxDuino: the Sharp MZ (MZF) and Mattel Aquarius (CAQ) tape encoders

    A shallow embedding of [MaxDuino/mzf.cpp] and of the CAQ encoder that
    ships with it.  Both encoders are tick driven: the scheduler calls
    [mzf_process] / [caq_process] once per half-period, the call stores the
    next half-period in the global [currentPeriod] and moves the encoder's
    file-scope state forward.  The file-scope statics and the globals an
    encoder touches are gathered in one record per encoder; every C function
    becomes a function on that record, written statement by statement.

    Fixed-width integers are [Z] with the wrap-around of each assignment
    written out ([u8], [u16], [u32], [i8]); stored bytes are [Byte.byte]. *)

From Stdlib Require Import ZArith List Bool Lia ZifyBool.
From Stdlib.Strings Require Import Byte.
Import ListNotations.
Open Scope Z_scope.

(** ** Machine integers and bytes *)

Definition u8 (z : Z) : Z := z mod 256.
Definition u16 (z : Z) : Z := z mod 65536.
Definition u32 (z : Z) : Z := z mod 4294967296.
Definition i8 (z : Z) : Z := (z + 128) mod 256 - 128.

Definition byte_val (b : byte) : Z := Z.of_N (Byte.to_N b).

(** The C cast [(byte)z]. *)
Definition to_byte (z : Z) : byte :=
  match Byte.of_N (Z.to_N (u8 z)) with
  | Some b => b
  | None => x00
  end.

(** ** The collaborators declared outside the two encoders *)

(** The block identifiers and scheduler tasks the encoders assign; the other
    members of the two enumerations are kept abstract. *)
Inductive BLOCKID : Type :=
| ID_MZF
| ID_CAQ
| IDEOF
| ID_other (code : Z).

Inductive TASK : Type :=
| PROCESSID
| TASK_other (code : Z).

(** Modelled from the spec: the storage collaborator ([entry], an open file
    of the SD library, and [ReadByte] of file_utils).  The spec describes it
    as a byte source over an already-open tape image with an initial seek, a
    block read that may come back short, and a sequential read that yields a
    byte or reports exhaustion.  The image is its list of bytes; [f_open]
    tells whether a seek succeeds and [f_io_ok] whether the medium answers
    reads. *)
Record SdFile : Type := mkSdFile {
  f_bytes : list byte;
  f_open : bool;
  f_io_ok : bool
}.

(** Modelled from the spec: [entry.seekSet(0)]. *)
Definition seekSet0 (f : SdFile) : bool := f_open f.

(** Modelled from the spec: [entry.read(buf, n)] after [seekSet(0)], the
    number of bytes delivered (or -1) and the buffer with that many leading
    bytes replaced. *)
Definition file_read (f : SdFile) (buf : list byte) (n : nat)
  : Z * list byte :=
  if f_io_ok f then
    let got := firstn n (f_bytes f) in
    (Z.of_nat (length got), got ++ skipn (length got) buf)
  else (-1, buf).

(** Modelled from the spec: the byte [ReadByte] finds at offset [pos], if
    any. *)
Definition byte_at (f : SdFile) (pos : Z) : option byte :=
  if f_io_ok f && (0 <=? pos) then nth_error (f_bytes f) (Z.to_nat pos)
  else None.

(** ** The MZF encoder (mzf.cpp) *)

Module Mzf.

Definition MZF_LONG_UP_US : Z := 464.
Definition MZF_LONG_DOWN_US : Z := 494.
Definition MZF_SHORT_UP_US : Z := 240.
Definition MZF_SHORT_DOWN_US : Z := 264.

Definition MZF_LGAP_PULSES : Z := 22000.
Definition MZF_SGAP_PULSES : Z := 11000.

Definition MZF_LTM_LONGS : Z := 40.
Definition MZF_LTM_SHORTS : Z := 40.
Definition MZF_STM_LONGS : Z := 20.
Definition MZF_STM_SHORTS : Z := 20.

Inductive MZF_STAGE : Type :=
| LGAP1
| LTM_LONG
| LTM_SHORT
| LTM_ENDLONG
| HDR1
| CHKH1
| HDR2
| CHKH2
| SGAP
| STM_LONG
| STM_SHORT
| STM_ENDLONG
| FILE1
| CHKF1
| FILE2
| CHKF2
| DONE.

Inductive BYTE_SRC : Type := HDR | FILE | CHK.

(** The file-scope statics of mzf.cpp followed by the globals it uses. *)
Record state : Type := mkState {
  mzf_stage : MZF_STAGE;
  mzf_hdr : list byte;  (* byte mzf_hdr[128] *)
  mzf_file_len : Z;  (* uint16_t *)
  mzf_hdr_cksum : Z;  (* uint16_t *)
  mzf_file_cksum : Z;  (* uint16_t *)
  mzf_pulses_left : Z;  (* uint32_t *)
  mzf_file_left : Z;  (* uint16_t *)
  mzf_tm_left : Z;  (* uint8_t *)
  mzf_src : BYTE_SRC;
  mzf_hdr_idx : Z;  (* uint16_t *)
  mzf_cur_byte : byte;
  mzf_have_byte : bool;
  mzf_leader_done : bool;
  mzf_bit_mask : Z;  (* uint8_t *)
  mzf_chk_byte_idx : Z;  (* uint8_t *)
  mzf_half : Z;  (* uint8_t, 0=UP, 1=DOWN *)
  currentPeriod : Z;  (* word *)
  currentID : BLOCKID;
  currentTask : TASK;
  count_r : Z;  (* byte *)
  bytesRead : Z;  (* unsigned long *)
  outByte : byte;
  entry : SdFile  (* the open tape image *)
}.

Definition set_mzf_stage (v : MZF_STAGE) (s : state) : state :=
  mkState v (mzf_hdr s) (mzf_file_len s) (mzf_hdr_cksum s) (mzf_file_cksum s)
    (mzf_pulses_left s) (mzf_file_left s) (mzf_tm_left s) (mzf_src s)
    (mzf_hdr_idx s) (mzf_cur_byte s) (mzf_have_byte s) (mzf_leader_done s)
    (mzf_bit_mask s) (mzf_chk_byte_idx s) (mzf_half s) (currentPeriod s)
    (currentID s) (currentTask s) (count_r s) (bytesRead s) (outByte s)
    (entry s).
Definition set_mzf_hdr (v : list byte) (s : state) : state :=
  mkState (mzf_stage s) v (mzf_file_len s) (mzf_hdr_cksum s)
    (mzf_file_cksum s) (mzf_pulses_left s) (mzf_file_left s) (mzf_tm_left s)
    (mzf_src s) (mzf_hdr_idx s) (mzf_cur_byte s) (mzf_have_byte s)
    (mzf_leader_done s) (mzf_bit_mask s) (mzf_chk_byte_idx s) (mzf_half s)
    (currentPeriod s) (currentID s) (currentTask s) (count_r s) (bytesRead s)
    (outByte s) (entry s).
Definition set_mzf_file_len (v : Z) (s : state) : state :=
  mkState (mzf_stage s) (mzf_hdr s) v (mzf_hdr_cksum s) (mzf_file_cksum s)
    (mzf_pulses_left s) (mzf_file_left s) (mzf_tm_left s) (mzf_src s)
    (mzf_hdr_idx s) (mzf_cur_byte s) (mzf_have_byte s) (mzf_leader_done s)
    (mzf_bit_mask s) (mzf_chk_byte_idx s) (mzf_half s) (currentPeriod s)
    (currentID s) (currentTask s) (count_r s) (bytesRead s) (outByte s)
    (entry s).
Definition set_mzf_hdr_cksum (v : Z) (s : state) : state :=
  mkState (mzf_stage s) (mzf_hdr s) (mzf_file_len s) v (mzf_file_cksum s)
    (mzf_pulses_left s) (mzf_file_left s) (mzf_tm_left s) (mzf_src s)
    (mzf_hdr_idx s) (mzf_cur_byte s) (mzf_have_byte s) (mzf_leader_done s)
    (mzf_bit_mask s) (mzf_chk_byte_idx s) (mzf_half s) (currentPeriod s)
    (currentID s) (currentTask s) (count_r s) (bytesRead s) (outByte s)
    (entry s).
Definition set_mzf_file_cksum (v : Z) (s : state) : state :=
  mkState (mzf_stage s) (mzf_hdr s) (mzf_file_len s) (mzf_hdr_cksum s) v
    (mzf_pulses_left s) (mzf_file_left s) (mzf_tm_left s) (mzf_src s)
    (mzf_hdr_idx s) (mzf_cur_byte s) (mzf_have_byte s) (mzf_leader_done s)
    (mzf_bit_mask s) (mzf_chk_byte_idx s) (mzf_half s) (currentPeriod s)
    (currentID s) (currentTask s) (count_r s) (bytesRead s) (outByte s)
    (entry s).
Definition set_mzf_pulses_left (v : Z) (s : state) : state :=
  mkState (mzf_stage s) (mzf_hdr s) (mzf_file_len s) (mzf_hdr_cksum s)
    (mzf_file_cksum s) v (mzf_file_left s) (mzf_tm_left s) (mzf_src s)
    (mzf_hdr_idx s) (mzf_cur_byte s) (mzf_have_byte s) (mzf_leader_done s)
    (mzf_bit_mask s) (mzf_chk_byte_idx s) (mzf_half s) (currentPeriod s)
    (currentID s) (currentTask s) (count_r s) (bytesRead s) (outByte s)
    (entry s).
Definition set_mzf_file_left (v : Z) (s : state) : state :=
  mkState (mzf_stage s) (mzf_hdr s) (mzf_file_len s) (mzf_hdr_cksum s)
    (mzf_file_cksum s) (mzf_pulses_left s) v (mzf_tm_left s) (mzf_src s)
    (mzf_hdr_idx s) (mzf_cur_byte s) (mzf_have_byte s) (mzf_leader_done s)
    (mzf_bit_mask s) (mzf_chk_byte_idx s) (mzf_half s) (currentPeriod s)
    (currentID s) (currentTask s) (count_r s) (bytesRead s) (outByte s)
    (entry s).
Definition set_mzf_tm_left (v : Z) (s : state) : state :=
  mkState (mzf_stage s) (mzf_hdr s) (mzf_file_len s) (mzf_hdr_cksum s)
    (mzf_file_cksum s) (mzf_pulses_left s) (mzf_file_left s) v (mzf_src s)
    (mzf_hdr_idx s) (mzf_cur_byte s) (mzf_have_byte s) (mzf_leader_done s)
    (mzf_bit_mask s) (mzf_chk_byte_idx s) (mzf_half s) (currentPeriod s)
    (currentID s) (currentTask s) (count_r s) (bytesRead s) (outByte s)
    (entry s).
Definition set_mzf_src (v : BYTE_SRC) (s : state) : state :=
  mkState (mzf_stage s) (mzf_hdr s) (mzf_file_len s) (mzf_hdr_cksum s)
    (mzf_file_cksum s) (mzf_pulses_left s) (mzf_file_left s) (mzf_tm_left s) v
    (mzf_hdr_idx s) (mzf_cur_byte s) (mzf_have_byte s) (mzf_leader_done s)
    (mzf_bit_mask s) (mzf_chk_byte_idx s) (mzf_half s) (currentPeriod s)
    (currentID s) (currentTask s) (count_r s) (bytesRead s) (outByte s)
    (entry s).
Definition set_mzf_hdr_idx (v : Z) (s : state) : state :=
  mkState (mzf_stage s) (mzf_hdr s) (mzf_file_len s) (mzf_hdr_cksum s)
    (mzf_file_cksum s) (mzf_pulses_left s) (mzf_file_left s) (mzf_tm_left s)
    (mzf_src s) v (mzf_cur_byte s) (mzf_have_byte s) (mzf_leader_done s)
    (mzf_bit_mask s) (mzf_chk_byte_idx s) (mzf_half s) (currentPeriod s)
    (currentID s) (currentTask s) (count_r s) (bytesRead s) (outByte s)
    (entry s).
Definition set_mzf_cur_byte (v : byte) (s : state) : state :=
  mkState (mzf_stage s) (mzf_hdr s) (mzf_file_len s) (mzf_hdr_cksum s)
    (mzf_file_cksum s) (mzf_pulses_left s) (mzf_file_left s) (mzf_tm_left s)
    (mzf_src s) (mzf_hdr_idx s) v (mzf_have_byte s) (mzf_leader_done s)
    (mzf_bit_mask s) (mzf_chk_byte_idx s) (mzf_half s) (currentPeriod s)
    (currentID s) (currentTask s) (count_r s) (bytesRead s) (outByte s)
    (entry s).
Definition set_mzf_have_byte (v : bool) (s : state) : state :=
  mkState (mzf_stage s) (mzf_hdr s) (mzf_file_len s) (mzf_hdr_cksum s)
    (mzf_file_cksum s) (mzf_pulses_left s) (mzf_file_left s) (mzf_tm_left s)
    (mzf_src s) (mzf_hdr_idx s) (mzf_cur_byte s) v (mzf_leader_done s)
    (mzf_bit_mask s) (mzf_chk_byte_idx s) (mzf_half s) (currentPeriod s)
    (currentID s) (currentTask s) (count_r s) (bytesRead s) (outByte s)
    (entry s).
Definition set_mzf_leader_done (v : bool) (s : state) : state :=
  mkState (mzf_stage s) (mzf_hdr s) (mzf_file_len s) (mzf_hdr_cksum s)
    (mzf_file_cksum s) (mzf_pulses_left s) (mzf_file_left s) (mzf_tm_left s)
    (mzf_src s) (mzf_hdr_idx s) (mzf_cur_byte s) (mzf_have_byte s) v
    (mzf_bit_mask s) (mzf_chk_byte_idx s) (mzf_half s) (currentPeriod s)
    (currentID s) (currentTask s) (count_r s) (bytesRead s) (outByte s)
    (entry s).
Definition set_mzf_bit_mask (v : Z) (s : state) : state :=
  mkState (mzf_stage s) (mzf_hdr s) (mzf_file_len s) (mzf_hdr_cksum s)
    (mzf_file_cksum s) (mzf_pulses_left s) (mzf_file_left s) (mzf_tm_left s)
    (mzf_src s) (mzf_hdr_idx s) (mzf_cur_byte s) (mzf_have_byte s)
    (mzf_leader_done s) v (mzf_chk_byte_idx s) (mzf_half s) (currentPeriod s)
    (currentID s) (currentTask s) (count_r s) (bytesRead s) (outByte s)
    (entry s).
Definition set_mzf_chk_byte_idx (v : Z) (s : state) : state :=
  mkState (mzf_stage s) (mzf_hdr s) (mzf_file_len s) (mzf_hdr_cksum s)
    (mzf_file_cksum s) (mzf_pulses_left s) (mzf_file_left s) (mzf_tm_left s)
    (mzf_src s) (mzf_hdr_idx s) (mzf_cur_byte s) (mzf_have_byte s)
    (mzf_leader_done s) (mzf_bit_mask s) v (mzf_half s) (currentPeriod s)
    (currentID s) (currentTask s) (count_r s) (bytesRead s) (outByte s)
    (entry s).
Definition set_mzf_half (v : Z) (s : state) : state :=
  mkState (mzf_stage s) (mzf_hdr s) (mzf_file_len s) (mzf_hdr_cksum s)
    (mzf_file_cksum s) (mzf_pulses_left s) (mzf_file_left s) (mzf_tm_left s)
    (mzf_src s) (mzf_hdr_idx s) (mzf_cur_byte s) (mzf_have_byte s)
    (mzf_leader_done s) (mzf_bit_mask s) (mzf_chk_byte_idx s) v
    (currentPeriod s) (currentID s) (currentTask s) (count_r s) (bytesRead s)
    (outByte s) (entry s).
Definition set_currentPeriod (v : Z) (s : state) : state :=
  mkState (mzf_stage s) (mzf_hdr s) (mzf_file_len s) (mzf_hdr_cksum s)
    (mzf_file_cksum s) (mzf_pulses_left s) (mzf_file_left s) (mzf_tm_left s)
    (mzf_src s) (mzf_hdr_idx s) (mzf_cur_byte s) (mzf_have_byte s)
    (mzf_leader_done s) (mzf_bit_mask s) (mzf_chk_byte_idx s) (mzf_half s) v
    (currentID s) (currentTask s) (count_r s) (bytesRead s) (outByte s)
    (entry s).
Definition set_currentID (v : BLOCKID) (s : state) : state :=
  mkState (mzf_stage s) (mzf_hdr s) (mzf_file_len s) (mzf_hdr_cksum s)
    (mzf_file_cksum s) (mzf_pulses_left s) (mzf_file_left s) (mzf_tm_left s)
    (mzf_src s) (mzf_hdr_idx s) (mzf_cur_byte s) (mzf_have_byte s)
    (mzf_leader_done s) (mzf_bit_mask s) (mzf_chk_byte_idx s) (mzf_half s)
    (currentPeriod s) v (currentTask s) (count_r s) (bytesRead s) (outByte s)
    (entry s).
Definition set_currentTask (v : TASK) (s : state) : state :=
  mkState (mzf_stage s) (mzf_hdr s) (mzf_file_len s) (mzf_hdr_cksum s)
    (mzf_file_cksum s) (mzf_pulses_left s) (mzf_file_left s) (mzf_tm_left s)
    (mzf_src s) (mzf_hdr_idx s) (mzf_cur_byte s) (mzf_have_byte s)
    (mzf_leader_done s) (mzf_bit_mask s) (mzf_chk_byte_idx s) (mzf_half s)
    (currentPeriod s) (currentID s) v (count_r s) (bytesRead s) (outByte s)
    (entry s).
Definition set_count_r (v : Z) (s : state) : state :=
  mkState (mzf_stage s) (mzf_hdr s) (mzf_file_len s) (mzf_hdr_cksum s)
    (mzf_file_cksum s) (mzf_pulses_left s) (mzf_file_left s) (mzf_tm_left s)
    (mzf_src s) (mzf_hdr_idx s) (mzf_cur_byte s) (mzf_have_byte s)
    (mzf_leader_done s) (mzf_bit_mask s) (mzf_chk_byte_idx s) (mzf_half s)
    (currentPeriod s) (currentID s) (currentTask s) v (bytesRead s)
    (outByte s) (entry s).
Definition set_bytesRead (v : Z) (s : state) : state :=
  mkState (mzf_stage s) (mzf_hdr s) (mzf_file_len s) (mzf_hdr_cksum s)
    (mzf_file_cksum s) (mzf_pulses_left s) (mzf_file_left s) (mzf_tm_left s)
    (mzf_src s) (mzf_hdr_idx s) (mzf_cur_byte s) (mzf_have_byte s)
    (mzf_leader_done s) (mzf_bit_mask s) (mzf_chk_byte_idx s) (mzf_half s)
    (currentPeriod s) (currentID s) (currentTask s) (count_r s) v (outByte s)
    (entry s).
Definition set_outByte (v : byte) (s : state) : state :=
  mkState (mzf_stage s) (mzf_hdr s) (mzf_file_len s) (mzf_hdr_cksum s)
    (mzf_file_cksum s) (mzf_pulses_left s) (mzf_file_left s) (mzf_tm_left s)
    (mzf_src s) (mzf_hdr_idx s) (mzf_cur_byte s) (mzf_have_byte s)
    (mzf_leader_done s) (mzf_bit_mask s) (mzf_chk_byte_idx s) (mzf_half s)
    (currentPeriod s) (currentID s) (currentTask s) (count_r s) (bytesRead s)
    v (entry s).
Definition set_entry (v : SdFile) (s : state) : state :=
  mkState (mzf_stage s) (mzf_hdr s) (mzf_file_len s) (mzf_hdr_cksum s)
    (mzf_file_cksum s) (mzf_pulses_left s) (mzf_file_left s) (mzf_tm_left s)
    (mzf_src s) (mzf_hdr_idx s) (mzf_cur_byte s) (mzf_have_byte s)
    (mzf_leader_done s) (mzf_bit_mask s) (mzf_chk_byte_idx s) (mzf_half s)
    (currentPeriod s) (currentID s) (currentTask s) (count_r s) (bytesRead s)
    (outByte s) v.

(** [mzf_hdr[i]]; the array has 128 entries. *)
Definition hdr_at (h : list byte) (i : Z) : byte := nth (Z.to_nat i) h x00.

Definition popcount8 (b : byte) : Z :=
  let v := byte_val b in
  let v := u8 (v - Z.land (Z.shiftr v 1) 0x55) in
  let v := u8 (Z.land v 0x33 + Z.land (Z.shiftr v 2) 0x33) in
  u8 (Z.land (Z.land (v + Z.shiftr v 4) 0x0F * 0x01) 0x1F).

Definition mzf_cksum_add (acc : Z) (v : byte) : Z := u16 (acc + popcount8 v).

(** Emits one half-period of a pulse; the flag tells whether the pulse is
    complete. *)
Definition mzf_emit_pulse (isLong : bool) (s : state) : bool * state :=
  if mzf_half s =? 0 then
    let s :=
      set_currentPeriod (if isLong then MZF_LONG_UP_US else MZF_SHORT_UP_US) s in
    let s := set_mzf_half 1 s in
    (false, s)
  else
    let s :=
      set_currentPeriod
        (if isLong then MZF_LONG_DOWN_US else MZF_SHORT_DOWN_US) s in
    let s := set_mzf_half 0 s in
    (true, s).

Definition mzf_next_stage (st : MZF_STAGE) (s : state) : state :=
  let s := set_mzf_stage st s in
  let s := set_mzf_half 0 s in
  let s := set_mzf_have_byte false s in
  let s := set_mzf_leader_done false s in
  let s := set_mzf_bit_mask 0x80 s in
  set_mzf_chk_byte_idx 0 s.

(** The loop [for (i = 0; i < 128; ++i) mzf_hdr_cksum = mzf_cksum_add(...)],
    with [n] iterations left. *)
Fixpoint hdr_cksum_loop (n : nat) (i : Z) (s : state) : state :=
  match n with
  | O => s
  | S n' =>
      let s :=
        set_mzf_hdr_cksum
          (mzf_cksum_add (mzf_hdr_cksum s) (hdr_at (mzf_hdr s) i)) s in
      hdr_cksum_loop n' (i + 1) s
  end.

Definition mzf_init (s : state) : state :=
  let s := set_mzf_stage DONE s in
  let s := set_mzf_half 0 s in
  if negb (seekSet0 (entry s)) then set_currentID IDEOF s
  else
    let '(r, buf) := file_read (entry s) (mzf_hdr s) 128 in
    let s := set_mzf_hdr buf s in
    if negb (r =? 128) then set_currentID IDEOF s
    else
      let s :=
        set_mzf_file_len
          (Z.lor (byte_val (hdr_at (mzf_hdr s) 18))
                 (u16 (Z.shiftl (byte_val (hdr_at (mzf_hdr s) 19)) 8))) s in
      let s := set_mzf_hdr_cksum 0 s in
      let s := hdr_cksum_loop 128 0 s in
      let s := set_bytesRead 128 s in
      let s := set_currentTask PROCESSID s in
      let s := set_currentID ID_MZF s in
      let s := set_mzf_pulses_left MZF_LGAP_PULSES s in
      mzf_next_stage LGAP1 s.

(** Modelled from the spec: [ReadByte] on this state, one byte at offset
    [bytesRead]. *)
Definition ReadByte (s : state) : bool * state :=
  match byte_at (entry s) (bytesRead s) with
  | Some b =>
      let s := set_bytesRead (bytesRead s + 1) s in
      let s := set_outByte b s in
      (true, s)
  | None => (false, s)
  end.

Definition mzf_load_next_byte (s : state) : bool * state :=
  match mzf_src s with
  | HDR =>
      if 128 <=? mzf_hdr_idx s then (false, s)
      else
        let i := mzf_hdr_idx s in
        let s := set_mzf_hdr_idx (u16 (i + 1)) s in
        let s := set_mzf_cur_byte (hdr_at (mzf_hdr s) i) s in
        let s := set_mzf_have_byte true s in
        (true, s)
  | FILE =>
      if mzf_file_left s =? 0 then (false, s)
      else
        let '(ok, s) := ReadByte s in
        if negb ok then (false, s)
        else
          let s := set_mzf_cur_byte (outByte s) s in
          let s := set_mzf_have_byte true s in
          let s := set_mzf_file_left (u16 (mzf_file_left s - 1)) s in
          let s :=
            set_mzf_file_cksum
              (mzf_cksum_add (mzf_file_cksum s) (mzf_cur_byte s)) s in
          (true, s)
  | CHK =>
      if 2 <=? mzf_chk_byte_idx s then (false, s)
      else
        let v :=
          match mzf_stage s with
          | CHKH1 | CHKH2 => mzf_hdr_cksum s
          | _ => mzf_file_cksum s
          end in
        let b :=
          if mzf_chk_byte_idx s =? 0 then to_byte (Z.shiftr v 8)
          else to_byte (Z.land v 0xFF) in
        let s := set_mzf_cur_byte b s in
        let s := set_mzf_have_byte true s in
        let s := set_mzf_chk_byte_idx (u8 (mzf_chk_byte_idx s + 1)) s in
        (true, s)
  end.

Definition mzf_reset_byte_writer_for_src (src : BYTE_SRC) (s : state)
  : state :=
  let s := set_mzf_src src s in
  let s := set_mzf_have_byte false s in
  let s := set_mzf_leader_done false s in
  let s := set_mzf_bit_mask 0x80 s in
  set_mzf_chk_byte_idx 0 s.

(** The statements of [mzf_process_bytes] below the load (the function
    returns early when the load fails): the leader pulse, then the current
    data pulse. *)
Definition mzf_emit_bits (s : state) : state :=
  if negb (mzf_leader_done s) then
    let '(done, s) := mzf_emit_pulse true s in
    if done then set_mzf_leader_done true s else s
  else
    let bitIsOne :=
      negb (Z.land (byte_val (mzf_cur_byte s)) (mzf_bit_mask s) =? 0) in
    let '(done, s) := mzf_emit_pulse bitIsOne s in
    if done then
      let s := set_mzf_bit_mask (Z.shiftr (mzf_bit_mask s) 1) s in
      if mzf_bit_mask s =? 0 then set_mzf_have_byte false s else s
    else s.

Definition mzf_process_bytes (totalBytesForHDR : Z) (s : state) : state :=
  if negb (mzf_have_byte s) then
    let '(ok, s) := mzf_load_next_byte s in
    if negb ok then set_currentPeriod 0 s
    else
      let s := set_mzf_leader_done false s in
      let s := set_mzf_bit_mask 0x80 s in
      mzf_emit_bits s
  else mzf_emit_bits s.

Definition mzf_process (s : state) : state :=
  match mzf_stage s with
  | LGAP1 =>
      let '(done, s) := mzf_emit_pulse false s in
      if done then
        let s := set_mzf_pulses_left (u32 (mzf_pulses_left s - 1)) s in
        if mzf_pulses_left s =? 0 then
          let s := set_mzf_tm_left MZF_LTM_LONGS s in
          mzf_next_stage LTM_LONG s
        else s
      else s
  | LTM_LONG =>
      let '(done, s) := mzf_emit_pulse true s in
      if done then
        let s := set_mzf_tm_left (u8 (mzf_tm_left s - 1)) s in
        if mzf_tm_left s =? 0 then
          let s := set_mzf_tm_left MZF_LTM_SHORTS s in
          mzf_next_stage LTM_SHORT s
        else s
      else s
  | LTM_SHORT =>
      let '(done, s) := mzf_emit_pulse false s in
      if done then
        let s := set_mzf_tm_left (u8 (mzf_tm_left s - 1)) s in
        if mzf_tm_left s =? 0 then mzf_next_stage LTM_ENDLONG s else s
      else s
  | LTM_ENDLONG =>
      let '(done, s) := mzf_emit_pulse true s in
      if done then
        let s := set_mzf_hdr_idx 0 s in
        let s := mzf_reset_byte_writer_for_src HDR s in
        mzf_next_stage HDR1 s
      else s
  | HDR1 =>
      let s := mzf_process_bytes 128 s in
      if currentPeriod s =? 0 then
        let s := mzf_reset_byte_writer_for_src CHK s in
        mzf_next_stage CHKH1 s
      else s
  | CHKH1 =>
      let s := mzf_process_bytes 2 s in
      if currentPeriod s =? 0 then
        let s := set_mzf_hdr_idx 0 s in
        let s := mzf_reset_byte_writer_for_src HDR s in
        mzf_next_stage HDR2 s
      else s
  | HDR2 =>
      let s := mzf_process_bytes 128 s in
      if currentPeriod s =? 0 then
        let s := mzf_reset_byte_writer_for_src CHK s in
        mzf_next_stage CHKH2 s
      else s
  | CHKH2 =>
      let s := mzf_process_bytes 2 s in
      if currentPeriod s =? 0 then
        let s := set_mzf_pulses_left MZF_SGAP_PULSES s in
        mzf_next_stage SGAP s
      else s
  | SGAP =>
      let '(done, s) := mzf_emit_pulse false s in
      if done then
        let s := set_mzf_pulses_left (u32 (mzf_pulses_left s - 1)) s in
        if mzf_pulses_left s =? 0 then
          let s := set_mzf_tm_left MZF_STM_LONGS s in
          mzf_next_stage STM_LONG s
        else s
      else s
  | STM_LONG =>
      let '(done, s) := mzf_emit_pulse true s in
      if done then
        let s := set_mzf_tm_left (u8 (mzf_tm_left s - 1)) s in
        if mzf_tm_left s =? 0 then
          let s := set_mzf_tm_left MZF_STM_SHORTS s in
          mzf_next_stage STM_SHORT s
        else s
      else s
  | STM_SHORT =>
      let '(done, s) := mzf_emit_pulse false s in
      if done then
        let s := set_mzf_tm_left (u8 (mzf_tm_left s - 1)) s in
        if mzf_tm_left s =? 0 then mzf_next_stage STM_ENDLONG s else s
      else s
  | STM_ENDLONG =>
      let '(done, s) := mzf_emit_pulse true s in
      if done then
        let s := set_bytesRead 128 s in
        let s := set_mzf_file_left (mzf_file_len s) s in
        let s := set_mzf_file_cksum 0 s in
        let s := mzf_reset_byte_writer_for_src FILE s in
        mzf_next_stage FILE1 s
      else s
  | FILE1 =>
      let s := mzf_process_bytes 0 s in
      if currentPeriod s =? 0 then
        let s := mzf_reset_byte_writer_for_src CHK s in
        mzf_next_stage CHKF1 s
      else s
  | CHKF1 =>
      let s := mzf_process_bytes 2 s in
      if currentPeriod s =? 0 then mzf_next_stage DONE s else s
  | FILE2 =>
      let s := mzf_process_bytes 0 s in
      if currentPeriod s =? 0 then
        let s := mzf_reset_byte_writer_for_src CHK s in
        mzf_next_stage CHKF2 s
      else s
  | CHKF2 =>
      let s := mzf_process_bytes 2 s in
      if currentPeriod s =? 0 then mzf_next_stage DONE s else s
  | DONE =>
      let s := set_currentID IDEOF s in
      let s := set_currentTask PROCESSID s in
      let s := set_count_r 255 s in
      set_currentPeriod 0 s
  end.

(** ** Runs, invariants and waveforms of the MZF encoder *)

(** *** Running the encoder *)

(** [n] calls of [mzf_process]. *)
Fixpoint ticks (n : nat) (s : state) : state :=
  match n with
  | O => s
  | S n' => ticks n' (mzf_process s)
  end.

(** The stage that runs each of the first [n] ticks, with the half-period
    the tick hands to the caller. *)
Fixpoint trace (n : nat) (s : state) : list (MZF_STAGE * Z) :=
  match n with
  | O => []
  | S n' =>
      (mzf_stage s, currentPeriod (mzf_process s)) :: trace n' (mzf_process s)
  end.

Definition stages (n : nat) (s : state) : list MZF_STAGE :=
  map fst (trace n s).

(** [n] consecutive calls of [mzf_process_bytes]: the half-periods they
    store in [currentPeriod] and the state they leave. *)
Fixpoint pb_run (n : nat) (s : state) : list Z * state :=
  match n with
  | O => ([], s)
  | S n' =>
      let s' := mzf_process_bytes 0 s in
      (currentPeriod s' :: fst (pb_run n' s'), snd (pb_run n' s'))
  end.

(** The statics as their initialisers leave them, before any session. *)
Definition power_on (f : SdFile) : state :=
  mkState DONE (repeat x00 128) 0 0 0 0 0 0 HDR 0 x00 false false 0x80 0 0
    0 (ID_other 0) (TASK_other 0) 0 0 x00 f.

(** A header that declares a body of three bytes, followed by that body. *)
Definition example_image : SdFile :=
  mkSdFile
    (repeat x01 18 ++ [x03; x00] ++ repeat x00 108 ++ [x00; xff; x81])
    true true.

(** The same header with only the first body byte on the medium. *)
Definition truncated_image : SdFile :=
  mkSdFile (repeat x01 18 ++ [x03; x00] ++ repeat x00 108 ++ [x5a])
    true true.

(** An image too short to hold a header. *)
Definition short_image : SdFile := mkSdFile (repeat x01 100) true true.

(** The state [n] ticks into the playback of image [f]. *)
Definition playing (n : Z) (f : SdFile) : state :=
  ticks (Z.to_nat n) (mzf_init (power_on f)).

(** *** The pieces of [mzf_process] *)

Definition up_us (isLong : bool) : Z :=
  if isLong then MZF_LONG_UP_US else MZF_SHORT_UP_US.

Definition down_us (isLong : bool) : Z :=
  if isLong then MZF_LONG_DOWN_US else MZF_SHORT_DOWN_US.

(** The test [(mzf_cur_byte & mzf_bit_mask) != 0]. *)
Definition bit_of (b : byte) (m : Z) : bool :=
  negb (Z.land (byte_val b) m =? 0).

Definition cur_bit (s : state) : bool :=
  bit_of (mzf_cur_byte s) (mzf_bit_mask s).

(** The checksum a checksum stage sends, and its next byte. *)
Definition chk_value (s : state) : Z :=
  match mzf_stage s with
  | CHKH1 | CHKH2 => mzf_hdr_cksum s
  | _ => mzf_file_cksum s
  end.

Definition chk_byte (s : state) : byte :=
  if mzf_chk_byte_idx s =? 0 then to_byte (Z.shiftr (chk_value s) 8)
  else to_byte (Z.land (chk_value s) 0xFF).

Definition is_byte_stage (st : MZF_STAGE) : bool :=
  match st with
  | HDR1 | CHKH1 | HDR2 | CHKH2 | FILE1 | CHKF1 | FILE2 | CHKF2 => true
  | _ => false
  end.

Definition is_data_stage (st : MZF_STAGE) : bool :=
  match st with
  | HDR1 | HDR2 | FILE1 => true
  | _ => false
  end.

Definition is_chk_stage (st : MZF_STAGE) : bool :=
  match st with
  | CHKH1 | CHKH2 | CHKF1 | CHKF2 => true
  | _ => false
  end.

Definition is_pulse_stage (st : MZF_STAGE) : bool :=
  match st with
  | LGAP1 | LTM_LONG | LTM_SHORT | LTM_ENDLONG
  | SGAP | STM_LONG | STM_SHORT | STM_ENDLONG => true
  | _ => false
  end.

Definition is_gap_stage (st : MZF_STAGE) : bool :=
  match st with
  | LGAP1 | SGAP => true
  | _ => false
  end.

Definition is_tm_stage (st : MZF_STAGE) : bool :=
  match st with
  | LTM_LONG | LTM_SHORT | STM_LONG | STM_SHORT => true
  | _ => false
  end.

(** The pulse kind of the gap and tapemark stages. *)
Definition stage_long (st : MZF_STAGE) : bool :=
  match st with
  | LTM_LONG | LTM_ENDLONG | STM_LONG | STM_ENDLONG => true
  | _ => false
  end.

(** What a gap or tapemark stage does once a pulse is complete: the body of
    its [if (mzf_emit_pulse(...))]. *)
Definition pulse_done (st : MZF_STAGE) (s : state) : state :=
  match st with
  | LGAP1 =>
      let s := set_mzf_pulses_left (u32 (mzf_pulses_left s - 1)) s in
      if mzf_pulses_left s =? 0 then
        mzf_next_stage LTM_LONG (set_mzf_tm_left MZF_LTM_LONGS s)
      else s
  | LTM_LONG =>
      let s := set_mzf_tm_left (u8 (mzf_tm_left s - 1)) s in
      if mzf_tm_left s =? 0 then
        mzf_next_stage LTM_SHORT (set_mzf_tm_left MZF_LTM_SHORTS s)
      else s
  | LTM_SHORT =>
      let s := set_mzf_tm_left (u8 (mzf_tm_left s - 1)) s in
      if mzf_tm_left s =? 0 then mzf_next_stage LTM_ENDLONG s else s
  | LTM_ENDLONG =>
      mzf_next_stage HDR1
        (mzf_reset_byte_writer_for_src HDR (set_mzf_hdr_idx 0 s))
  | SGAP =>
      let s := set_mzf_pulses_left (u32 (mzf_pulses_left s - 1)) s in
      if mzf_pulses_left s =? 0 then
        mzf_next_stage STM_LONG (set_mzf_tm_left MZF_STM_LONGS s)
      else s
  | STM_LONG =>
      let s := set_mzf_tm_left (u8 (mzf_tm_left s - 1)) s in
      if mzf_tm_left s =? 0 then
        mzf_next_stage STM_SHORT (set_mzf_tm_left MZF_STM_SHORTS s)
      else s
  | STM_SHORT =>
      let s := set_mzf_tm_left (u8 (mzf_tm_left s - 1)) s in
      if mzf_tm_left s =? 0 then mzf_next_stage STM_ENDLONG s else s
  | STM_ENDLONG =>
      mzf_next_stage FILE1
        (mzf_reset_byte_writer_for_src FILE
           (set_mzf_file_cksum 0
              (set_mzf_file_left (mzf_file_len s) (set_bytesRead 128 s))))
  | _ => s
  end.

(** What a byte stage does once [mzf_process_bytes] reports it exhausted:
    the body of its [if (currentPeriod == 0)]. *)
Definition stage_exit (st : MZF_STAGE) (s : state) : state :=
  match st with
  | HDR1 => mzf_next_stage CHKH1 (mzf_reset_byte_writer_for_src CHK s)
  | CHKH1 =>
      mzf_next_stage HDR2
        (mzf_reset_byte_writer_for_src HDR (set_mzf_hdr_idx 0 s))
  | HDR2 => mzf_next_stage CHKH2 (mzf_reset_byte_writer_for_src CHK s)
  | CHKH2 => mzf_next_stage SGAP (set_mzf_pulses_left MZF_SGAP_PULSES s)
  | FILE1 => mzf_next_stage CHKF1 (mzf_reset_byte_writer_for_src CHK s)
  | CHKF1 => mzf_next_stage DONE s
  | FILE2 => mzf_next_stage CHKF2 (mzf_reset_byte_writer_for_src CHK s)
  | CHKF2 => mzf_next_stage DONE s
  | _ => s
  end.

(** The argument each byte stage passes to [mzf_process_bytes]. *)
Definition bytes_arg (st : MZF_STAGE) : Z :=
  match st with
  | HDR1 | HDR2 => 128
  | FILE1 | FILE2 => 0
  | _ => 2
  end.

(** *** [mzf_init] *)

(** The checksum loop of [mzf_init] on the accumulator alone. *)
Fixpoint cksum_loop (n : nat) (i : Z) (h : list byte) (acc : Z) : Z :=
  match n with
  | O => acc
  | S n' => cksum_loop n' (i + 1) h (mzf_cksum_add acc (hdr_at h i))
  end.

Definition header_read (s : state) : Z * list byte :=
  file_read (entry s) (mzf_hdr s) 128.

(** The seek succeeds and the read delivers 128 bytes. *)
Definition header_ok (s : state) : Prop :=
  seekSet0 (entry s) = true /\ fst (header_read s) = 128.

Definition file_len_of (h : list byte) : Z :=
  Z.lor (byte_val (hdr_at h 18)) (u16 (Z.shiftl (byte_val (hdr_at h 19)) 8)).

(** What [mzf_init] leaves when the header is read. *)
Definition init_state (s : state) : state :=
  let buf := snd (header_read s) in
  mzf_next_stage LGAP1
    (set_mzf_pulses_left MZF_LGAP_PULSES
       (set_currentID ID_MZF
          (set_currentTask PROCESSID
             (set_bytesRead 128
                (set_mzf_hdr_cksum (cksum_loop 128 0 buf 0)
                   (set_mzf_file_len (file_len_of buf)
                      (set_mzf_hdr buf
                         (set_mzf_half 0 (set_mzf_stage DONE s))))))))).

(** The states of a playback session: what [mzf_init] leaves after reading
    the header, and what any number of ticks make of it. *)
Definition session (s : state) : Prop :=
  exists s0 n, header_ok s0 /\ s = ticks n (mzf_init s0).

(** The fields a successful [mzf_init] sets up for playback, unchanged. *)
Definition playback_untouched (s0 s : state) : Prop :=
  mzf_file_len s = mzf_file_len s0 /\
  mzf_hdr_cksum s = mzf_hdr_cksum s0 /\
  mzf_file_cksum s = mzf_file_cksum s0 /\
  mzf_pulses_left s = mzf_pulses_left s0 /\
  mzf_file_left s = mzf_file_left s0 /\
  mzf_tm_left s = mzf_tm_left s0 /\
  mzf_src s = mzf_src s0 /\
  mzf_hdr_idx s = mzf_hdr_idx s0 /\
  mzf_have_byte s = mzf_have_byte s0 /\
  mzf_leader_done s = mzf_leader_done s0 /\
  mzf_bit_mask s = mzf_bit_mask s0 /\
  mzf_chk_byte_idx s = mzf_chk_byte_idx s0 /\
  bytesRead s = bytesRead s0 /\
  currentTask s = currentTask s0.

(** *** The invariant of a session and the ticks it has left *)

(** The ticks the pulse in progress still takes. *)
Definition half_ticks (s : state) : Z := if mzf_half s =? 0 then 2 else 1.

Definition is_mask (m : Z) : Prop := In m [128; 64; 32; 16; 8; 4; 2; 1].

(** The byte writer: a byte in flight has a one-bit mask, 0x80 until the
    leader pulse is done; without a byte no pulse is in progress. *)
Definition writer_ok (s : state) : Prop :=
  if mzf_have_byte s then
    is_mask (mzf_bit_mask s) /\
    (mzf_leader_done s = false -> mzf_bit_mask s = 128)
  else mzf_half s = 0.

(** The ticks the byte in flight still takes. *)
Definition cur_ticks (s : state) : Z :=
  if mzf_have_byte s then
    if mzf_leader_done s then 2 * Z.log2 (mzf_bit_mask s) + half_ticks s
    else 16 + half_ticks s
  else 0.

Definition stage_inv (s : state) : Prop :=
  match mzf_stage s with
  | LGAP1 | SGAP => 1 <= mzf_pulses_left s <= 22000
  | LTM_LONG | LTM_SHORT | STM_LONG | STM_SHORT => 1 <= mzf_tm_left s <= 40
  | LTM_ENDLONG | STM_ENDLONG => True
  | HDR1 | HDR2 =>
      mzf_src s = HDR /\ 0 <= mzf_hdr_idx s <= 128 /\ writer_ok s
  | CHKH1 | CHKH2 | CHKF1 =>
      mzf_src s = CHK /\ 0 <= mzf_chk_byte_idx s <= 2 /\ writer_ok s
  | FILE1 =>
      mzf_src s = FILE /\ 0 <= mzf_file_left s <= 65535 /\ writer_ok s
  | FILE2 | CHKF2 => False
  | DONE => True
  end.

Definition inv (s : state) : Prop :=
  0 <= mzf_file_len s <= 65535 /\ stage_inv s.

(** A bound on the ticks of all the stages after [st], when each is entered
    with its largest count. *)
Definition stage_base (st : MZF_STAGE) : Z :=
  match st with
  | LGAP1 => 1206596
  | LTM_LONG => 1206516
  | LTM_SHORT => 1206436
  | LTM_ENDLONG => 1206434
  | HDR1 => 1204129
  | CHKH1 => 1204092
  | HDR2 => 1201787
  | CHKH2 => 1201750
  | SGAP => 1179750
  | STM_LONG => 1179710
  | STM_SHORT => 1179670
  | STM_ENDLONG => 1179668
  | FILE1 => 37
  | CHKF1 | FILE2 | CHKF2 | DONE => 0
  end.

(** A bound on the ticks the current stage still takes. *)
Definition stage_local (s : state) : Z :=
  match mzf_stage s with
  | LGAP1 | SGAP => 2 * (mzf_pulses_left s - 1) + half_ticks s
  | LTM_LONG | LTM_SHORT | STM_LONG | STM_SHORT =>
      2 * (mzf_tm_left s - 1) + half_ticks s
  | LTM_ENDLONG | STM_ENDLONG => half_ticks s
  | HDR1 | HDR2 => 18 * (128 - mzf_hdr_idx s) + 1 + cur_ticks s
  | CHKH1 | CHKH2 | CHKF1 | CHKF2 =>
      18 * (2 - mzf_chk_byte_idx s) + 1 + cur_ticks s
  | FILE1 | FILE2 => 18 * mzf_file_left s + 1 + cur_ticks s
  | DONE => 0
  end.

Definition ticks_bound (s : state) : Z :=
  stage_base (mzf_stage s) + stage_local s.

(** *** The order of the stages *)

(** The stage each [mzf_next_stage] call of [mzf_process] names. *)
Definition stage_succ (st : MZF_STAGE) : MZF_STAGE :=
  match st with
  | LGAP1 => LTM_LONG
  | LTM_LONG => LTM_SHORT
  | LTM_SHORT => LTM_ENDLONG
  | LTM_ENDLONG => HDR1
  | HDR1 => CHKH1
  | CHKH1 => HDR2
  | HDR2 => CHKH2
  | CHKH2 => SGAP
  | SGAP => STM_LONG
  | STM_LONG => STM_SHORT
  | STM_SHORT => STM_ENDLONG
  | STM_ENDLONG => FILE1
  | FILE1 => CHKF1
  | CHKF1 => DONE
  | FILE2 => CHKF2
  | CHKF2 => DONE
  | DONE => DONE
  end.

(** The enumerators of [MZF_STAGE], as the compiler numbers them. *)
Definition stage_rank (st : MZF_STAGE) : Z :=
  match st with
  | LGAP1 => 0
  | LTM_LONG => 1
  | LTM_SHORT => 2
  | LTM_ENDLONG => 3
  | HDR1 => 4
  | CHKH1 => 5
  | HDR2 => 6
  | CHKH2 => 7
  | SGAP => 8
  | STM_LONG => 9
  | STM_SHORT => 10
  | STM_ENDLONG => 11
  | FILE1 => 12
  | CHKF1 => 13
  | FILE2 => 14
  | CHKF2 => 15
  | DONE => 16
  end.

Definition stage_eqb (a b : MZF_STAGE) : bool := stage_rank a =? stage_rank b.

(** Collapses every run of equal consecutive stages to one entry. *)
Fixpoint compress (l : list MZF_STAGE) : list MZF_STAGE :=
  match l with
  | [] => []
  | a :: t =>
      match t with
      | [] => [a]
      | b :: _ => if stage_eqb a b then compress t else a :: compress t
      end
  end.

(** The order the spec gives: gap, leader tapemark, header, checksum, header
    copy, checksum, short gap, trailer tapemark, body, checksum, terminal. *)
Definition mzf_order : list MZF_STAGE :=
  [LGAP1; LTM_LONG; LTM_SHORT; LTM_ENDLONG; HDR1; CHKH1; HDR2; CHKH2;
   SGAP; STM_LONG; STM_SHORT; STM_ENDLONG; FILE1; CHKF1; DONE].

(** The part of [mzf_order] that starts at a stage. *)
Definition order_from (st : MZF_STAGE) : list MZF_STAGE :=
  match st with
  | FILE2 | CHKF2 => []
  | DONE => [DONE]
  | _ => skipn (Z.to_nat (stage_rank st)) mzf_order
  end.

(** *** Waveforms *)

(** [n] pulses of one kind, all emitted by stage [st]. *)
Fixpoint pulse_train (st : MZF_STAGE) (isLong : bool) (n : nat)
  : list (MZF_STAGE * Z) :=
  match n with
  | O => []
  | S n' =>
      (st, up_us isLong) :: (st, down_us isLong) :: pulse_train st isLong n'
  end.

(** A tapemark: [n] long pulses, [n] short pulses, one long pulse. *)
Definition tapemark (long short endlong : MZF_STAGE) (n : nat)
  : list (MZF_STAGE * Z) :=
  pulse_train long true n ++ pulse_train short false n ++
  pulse_train endlong true 1.

Definition pulse_wave (isLong : bool) : list Z :=
  [up_us isLong; down_us isLong].

(** The half-periods of one byte: the long leader pulse, then one pulse per
    mask from 0x80 down to 0x01. *)
Definition byte_wave (b : byte) : list Z :=
  pulse_wave true ++
  flat_map (fun m => pulse_wave (bit_of b m)) [128; 64; 32; 16; 8; 4; 2; 1].

(** The two checksum bytes, high byte first, and the zero period that ends
    the stage. *)
Definition chk_wave (v : Z) : list Z :=
  byte_wave (to_byte (Z.shiftr v 8)) ++ byte_wave (to_byte (Z.land v 0xFF)) ++
  [0].

(** The byte writer after the last half-period of the byte in [s]. *)
Definition byte_sent (s : state) : state :=
  set_mzf_have_byte false
    (set_mzf_bit_mask 0
       (set_mzf_leader_done true
          (set_mzf_half 0
             (set_currentPeriod (down_us (bit_of (mzf_cur_byte s) 1)) s)))).

(** Reading pulses back, as the spec words it: a long pulse is a 1, a short
    pulse a 0, the first data pulse is the most significant bit. *)
Definition pulse_bit (up down : Z) : option bool :=
  if (up =? 464) && (down =? 494) then Some true
  else if (up =? 240) && (down =? 264) then Some false
  else None.

Fixpoint decode_bits (w : list Z) : option (list bool) :=
  match w with
  | [] => Some []
  | up :: t =>
      match t with
      | [] => None
      | down :: t' =>
          match pulse_bit up down, decode_bits t' with
          | Some b, Some bs => Some (b :: bs)
          | _, _ => None
          end
      end
  end.

Definition bits_value (bs : list bool) : Z :=
  fold_left (fun acc (b : bool) => 2 * acc + (if b then 1 else 0)) bs 0.

(** A leader pulse, then exactly eight data pulses. *)
Definition decode_byte (w : list Z) : option byte :=
  match decode_bits w with
  | Some (true :: bs) =>
      if (length bs =? 8)%nat then Some (to_byte (bits_value bs)) else None
  | _ => None
  end.

(** *** The checksum, as the spec words it *)

(** The number of 1 bits of a byte, bit by bit. *)
Definition popcount_spec (b : byte) : Z :=
  Z.of_nat
    (length (filter (Z.testbit (byte_val b)) [0; 1; 2; 3; 4; 5; 6; 7])).

(** The sum of the population counts, reduced modulo 65536. *)
Definition checksum_spec (l : list byte) : Z :=
  fold_right Z.add 0 (map popcount_spec l) mod 65536.

(** *** What a tick leaves alone *)

Definition same_header (s s' : state) : Prop :=
  mzf_hdr s' = mzf_hdr s /\ mzf_hdr_cksum s' = mzf_hdr_cksum s /\
  mzf_file_len s' = mzf_file_len s.

Definition same_ids (s s' : state) : Prop :=
  currentID s' = currentID s /\ currentTask s' = currentTask s /\
  entry s' = entry s.

(** The values [mzf_process] may leave in [currentPeriod]. *)
Definition mzf_periods : list Z :=
  [0; MZF_LONG_UP_US; MZF_LONG_DOWN_US; MZF_SHORT_UP_US; MZF_SHORT_DOWN_US].

(** ** Whole playbacks of the MZF encoder *)

(** From [s], the ticks of [w] run in order and leave [t]. *)
Definition plays (s : state) (w : list (MZF_STAGE * Z)) (t : state) : Prop :=
  trace (length w) s = w /\ ticks (length w) s = t.

(** What [mzf_process] leaves behind when it calls [mzf_next_stage]: the
    fields the call resets, and the counter or the byte source of the new
    stage as the statements in front of the call set it. *)
Definition stage_entered (s : state) : Prop :=
  mzf_half s = 0 /\ mzf_have_byte s = false /\
  mzf_leader_done s = false /\ mzf_bit_mask s = 0x80 /\
  mzf_chk_byte_idx s = 0 /\
  match mzf_stage s with
  | LGAP1 => mzf_pulses_left s = MZF_LGAP_PULSES
  | LTM_LONG => mzf_tm_left s = MZF_LTM_LONGS
  | LTM_SHORT => mzf_tm_left s = MZF_LTM_SHORTS
  | SGAP => mzf_pulses_left s = MZF_SGAP_PULSES
  | STM_LONG => mzf_tm_left s = MZF_STM_LONGS
  | STM_SHORT => mzf_tm_left s = MZF_STM_SHORTS
  | LTM_ENDLONG | STM_ENDLONG => True
  | HDR1 | HDR2 => mzf_src s = HDR /\ mzf_hdr_idx s = 0
  | CHKH1 | CHKH2 | CHKF1 | CHKF2 => mzf_src s = CHK
  | FILE1 =>
      mzf_src s = FILE /\ mzf_file_left s = mzf_file_len s /\
      bytesRead s = 128 /\ mzf_file_cksum s = 0
  | FILE2 => False
  | DONE => True
  end.

(** [k] bytes of the header buffer from index [i] on, in the order
    [mzf_load_next_byte] takes them. *)
Fixpoint hdr_bytes (h : list byte) (i : Z) (k : nat) : list byte :=
  match k with
  | O => []
  | S k' => hdr_at h i :: hdr_bytes h (i + 1) k'
  end.

(** The half-periods of a sequence of bytes. *)
Definition bytes_wave (bs : list byte) : list Z := flat_map byte_wave bs.

(** The header of an image, and the body the file stage takes from it: the
    bytes after the header, as many as bytes 18 and 19 of the header
    declare, or fewer when the image ends before. *)
Definition header_of (f : SdFile) : list byte := firstn 128 (f_bytes f).

Definition body_of (f : SdFile) : list byte :=
  firstn (Z.to_nat (file_len_of (header_of f))) (skipn 128 (f_bytes f)).

(** The ticks of a byte stage: its bytes, then the zero period of the tick
    that leaves it. *)
Definition byte_stage_wave (st : MZF_STAGE) (bs : list byte)
  : list (MZF_STAGE * Z) :=
  map (pair st) (bytes_wave bs ++ [0]).

Definition chk_stage_wave (st : MZF_STAGE) (v : Z) : list (MZF_STAGE * Z) :=
  map (pair st) (chk_wave v).

(** The ticks of a whole playback of image [f], stage by stage. *)
Definition mzf_tape (f : SdFile) : list (MZF_STAGE * Z) :=
  pulse_train LGAP1 false (Z.to_nat MZF_LGAP_PULSES) ++
  tapemark LTM_LONG LTM_SHORT LTM_ENDLONG (Z.to_nat MZF_LTM_LONGS) ++
  byte_stage_wave HDR1 (header_of f) ++
  chk_stage_wave CHKH1 (checksum_spec (header_of f)) ++
  byte_stage_wave HDR2 (header_of f) ++
  chk_stage_wave CHKH2 (checksum_spec (header_of f)) ++
  pulse_train SGAP false (Z.to_nat MZF_SGAP_PULSES) ++
  tapemark STM_LONG STM_SHORT STM_ENDLONG (Z.to_nat MZF_STM_LONGS) ++
  byte_stage_wave FILE1 (body_of f) ++
  chk_stage_wave CHKF1 (checksum_spec (body_of f)).

(** *** The read position *)

Definition image_len (s : state) : Z := Z.of_nat (length (f_bytes (entry s))).

(** Where [bytesRead] stands, stage by stage: at 128 until the file stage;
    there it has advanced by as many bytes as [mzf_file_left] has gone down;
    afterwards it stands at the end of the declared body or at the end of
    the image. *)
Definition reads_inv (s : state) : Prop :=
  128 <= bytesRead s <= 128 + mzf_file_len s /\
  bytesRead s <= image_len s /\
  0 <= mzf_file_len s <= 65535 /\
  match mzf_stage s with
  | HDR1 | HDR2 => mzf_src s = HDR /\ bytesRead s = 128
  | CHKH1 | CHKH2 => mzf_src s = CHK /\ bytesRead s = 128
  | FILE1 =>
      mzf_src s = FILE /\ 0 <= mzf_file_left s /\
      bytesRead s + mzf_file_left s = 128 + mzf_file_len s
  | CHKF1 =>
      mzf_src s = CHK /\
      (bytesRead s = 128 + mzf_file_len s \/ bytesRead s = image_len s)
  | DONE => bytesRead s = 128 + mzf_file_len s \/ bytesRead s = image_len s
  | FILE2 | CHKF2 => False
  | _ => bytesRead s = 128
  end.

(** The fields [reads_inv] looks at, unchanged. *)
Definition same_reads (s t : state) : Prop :=
  mzf_stage t = mzf_stage s /\ mzf_src t = mzf_src s /\
  bytesRead t = bytesRead s /\ mzf_file_left t = mzf_file_left s /\
  mzf_file_len t = mzf_file_len s /\ entry t = entry s.

End Mzf.

(** ** The CAQ encoder *)

Module Caq.

Definition CAQ_MARK_HALF_US : Z := 272.
Definition CAQ_SPACE_HALF_US : Z := 544.

Inductive CAQ_STAGE : Type :=
| START_BIT
| DATA_BITS
| STOP_BIT1
| STOP_BIT2
| DONE.

(** The file-scope statics of the CAQ encoder followed by the globals it
    uses; [BAUDRATE] is the menu-configured rate, of the same type [word] as
    [caq_saved_baudrate]. *)
Record state : Type := mkState {
  caq_stage : CAQ_STAGE;
  caq_saved_baudrate : Z;  (* word *)
  caq_baudrate_overridden : bool;
  caq_cur_byte : byte;
  caq_have_byte : bool;
  caq_bit_idx : Z;  (* int8_t *)
  caq_halves_left : Z;  (* uint8_t *)
  caq_half_period : Z;  (* word *)
  currentPeriod : Z;  (* word *)
  currentID : BLOCKID;
  currentTask : TASK;
  count_r : Z;  (* byte *)
  bytesRead : Z;  (* unsigned long *)
  outByte : byte;
  BAUDRATE : Z;  (* word *)
  entry : SdFile  (* the open tape image *)
}.

Definition set_caq_stage (v : CAQ_STAGE) (s : state) : state :=
  mkState v (caq_saved_baudrate s) (caq_baudrate_overridden s)
    (caq_cur_byte s) (caq_have_byte s) (caq_bit_idx s) (caq_halves_left s)
    (caq_half_period s) (currentPeriod s) (currentID s) (currentTask s)
    (count_r s) (bytesRead s) (outByte s) (BAUDRATE s) (entry s).
Definition set_caq_saved_baudrate (v : Z) (s : state) : state :=
  mkState (caq_stage s) v (caq_baudrate_overridden s) (caq_cur_byte s)
    (caq_have_byte s) (caq_bit_idx s) (caq_halves_left s) (caq_half_period s)
    (currentPeriod s) (currentID s) (currentTask s) (count_r s) (bytesRead s)
    (outByte s) (BAUDRATE s) (entry s).
Definition set_caq_baudrate_overridden (v : bool) (s : state) : state :=
  mkState (caq_stage s) (caq_saved_baudrate s) v (caq_cur_byte s)
    (caq_have_byte s) (caq_bit_idx s) (caq_halves_left s) (caq_half_period s)
    (currentPeriod s) (currentID s) (currentTask s) (count_r s) (bytesRead s)
    (outByte s) (BAUDRATE s) (entry s).
Definition set_caq_cur_byte (v : byte) (s : state) : state :=
  mkState (caq_stage s) (caq_saved_baudrate s) (caq_baudrate_overridden s) v
    (caq_have_byte s) (caq_bit_idx s) (caq_halves_left s) (caq_half_period s)
    (currentPeriod s) (currentID s) (currentTask s) (count_r s) (bytesRead s)
    (outByte s) (BAUDRATE s) (entry s).
Definition set_caq_have_byte (v : bool) (s : state) : state :=
  mkState (caq_stage s) (caq_saved_baudrate s) (caq_baudrate_overridden s)
    (caq_cur_byte s) v (caq_bit_idx s) (caq_halves_left s) (caq_half_period s)
    (currentPeriod s) (currentID s) (currentTask s) (count_r s) (bytesRead s)
    (outByte s) (BAUDRATE s) (entry s).
Definition set_caq_bit_idx (v : Z) (s : state) : state :=
  mkState (caq_stage s) (caq_saved_baudrate s) (caq_baudrate_overridden s)
    (caq_cur_byte s) (caq_have_byte s) v (caq_halves_left s)
    (caq_half_period s) (currentPeriod s) (currentID s) (currentTask s)
    (count_r s) (bytesRead s) (outByte s) (BAUDRATE s) (entry s).
Definition set_caq_halves_left (v : Z) (s : state) : state :=
  mkState (caq_stage s) (caq_saved_baudrate s) (caq_baudrate_overridden s)
    (caq_cur_byte s) (caq_have_byte s) (caq_bit_idx s) v (caq_half_period s)
    (currentPeriod s) (currentID s) (currentTask s) (count_r s) (bytesRead s)
    (outByte s) (BAUDRATE s) (entry s).
Definition set_caq_half_period (v : Z) (s : state) : state :=
  mkState (caq_stage s) (caq_saved_baudrate s) (caq_baudrate_overridden s)
    (caq_cur_byte s) (caq_have_byte s) (caq_bit_idx s) (caq_halves_left s) v
    (currentPeriod s) (currentID s) (currentTask s) (count_r s) (bytesRead s)
    (outByte s) (BAUDRATE s) (entry s).
Definition set_currentPeriod (v : Z) (s : state) : state :=
  mkState (caq_stage s) (caq_saved_baudrate s) (caq_baudrate_overridden s)
    (caq_cur_byte s) (caq_have_byte s) (caq_bit_idx s) (caq_halves_left s)
    (caq_half_period s) v (currentID s) (currentTask s) (count_r s)
    (bytesRead s) (outByte s) (BAUDRATE s) (entry s).
Definition set_currentID (v : BLOCKID) (s : state) : state :=
  mkState (caq_stage s) (caq_saved_baudrate s) (caq_baudrate_overridden s)
    (caq_cur_byte s) (caq_have_byte s) (caq_bit_idx s) (caq_halves_left s)
    (caq_half_period s) (currentPeriod s) v (currentTask s) (count_r s)
    (bytesRead s) (outByte s) (BAUDRATE s) (entry s).
Definition set_currentTask (v : TASK) (s : state) : state :=
  mkState (caq_stage s) (caq_saved_baudrate s) (caq_baudrate_overridden s)
    (caq_cur_byte s) (caq_have_byte s) (caq_bit_idx s) (caq_halves_left s)
    (caq_half_period s) (currentPeriod s) (currentID s) v (count_r s)
    (bytesRead s) (outByte s) (BAUDRATE s) (entry s).
Definition set_count_r (v : Z) (s : state) : state :=
  mkState (caq_stage s) (caq_saved_baudrate s) (caq_baudrate_overridden s)
    (caq_cur_byte s) (caq_have_byte s) (caq_bit_idx s) (caq_halves_left s)
    (caq_half_period s) (currentPeriod s) (currentID s) (currentTask s) v
    (bytesRead s) (outByte s) (BAUDRATE s) (entry s).
Definition set_bytesRead (v : Z) (s : state) : state :=
  mkState (caq_stage s) (caq_saved_baudrate s) (caq_baudrate_overridden s)
    (caq_cur_byte s) (caq_have_byte s) (caq_bit_idx s) (caq_halves_left s)
    (caq_half_period s) (currentPeriod s) (currentID s) (currentTask s)
    (count_r s) v (outByte s) (BAUDRATE s) (entry s).
Definition set_outByte (v : byte) (s : state) : state :=
  mkState (caq_stage s) (caq_saved_baudrate s) (caq_baudrate_overridden s)
    (caq_cur_byte s) (caq_have_byte s) (caq_bit_idx s) (caq_halves_left s)
    (caq_half_period s) (currentPeriod s) (currentID s) (currentTask s)
    (count_r s) (bytesRead s) v (BAUDRATE s) (entry s).
Definition set_BAUDRATE (v : Z) (s : state) : state :=
  mkState (caq_stage s) (caq_saved_baudrate s) (caq_baudrate_overridden s)
    (caq_cur_byte s) (caq_have_byte s) (caq_bit_idx s) (caq_halves_left s)
    (caq_half_period s) (currentPeriod s) (currentID s) (currentTask s)
    (count_r s) (bytesRead s) (outByte s) v (entry s).
Definition set_entry (v : SdFile) (s : state) : state :=
  mkState (caq_stage s) (caq_saved_baudrate s) (caq_baudrate_overridden s)
    (caq_cur_byte s) (caq_have_byte s) (caq_bit_idx s) (caq_halves_left s)
    (caq_half_period s) (currentPeriod s) (currentID s) (currentTask s)
    (count_r s) (bytesRead s) (outByte s) (BAUDRATE s) v.

Definition caq_begin_bit (bit_val : bool) (s : state) : state :=
  let s :=
    set_caq_half_period
      (if bit_val then CAQ_MARK_HALF_US else CAQ_SPACE_HALF_US) s in
  set_caq_halves_left 4 s.

(** Modelled from the spec: [ReadByte] on this state, one byte at offset
    [bytesRead]. *)
Definition ReadByte (s : state) : bool * state :=
  match byte_at (entry s) (bytesRead s) with
  | Some b =>
      let s := set_bytesRead (bytesRead s + 1) s in
      let s := set_outByte b s in
      (true, s)
  | None => (false, s)
  end.

(** [caq_get_next_byte(caq_cur_byte)]: the reference argument of the only
    call is [caq_cur_byte]. *)
Definition caq_get_next_byte (s : state) : bool * state :=
  let '(ok, s) := ReadByte s in
  if negb ok then (false, s)
  else
    let s := set_caq_cur_byte (outByte s) s in
    (true, s).

Definition caq_init (s : state) : state :=
  let s := set_caq_stage START_BIT s in
  let s := set_caq_have_byte false s in
  let s := set_caq_bit_idx 7 s in
  let s := set_caq_halves_left 0 s in
  let s := set_caq_half_period CAQ_SPACE_HALF_US s in
  let s :=
    if negb (caq_baudrate_overridden s) then
      let s := set_caq_saved_baudrate (BAUDRATE s) s in
      let s := set_BAUDRATE 600 s in
      set_caq_baudrate_overridden true s
    else s in
  let s := set_currentID ID_CAQ s in
  let s := set_currentTask PROCESSID s in
  set_count_r 255 s.

Definition caq_process (s : state) : state :=
  let s := set_currentPeriod 0 s in
  if negb (caq_halves_left s =? 0) then
    let s := set_currentPeriod (caq_half_period s) s in
    set_caq_halves_left (u8 (caq_halves_left s - 1)) s
  else
    let s :=
      if negb (caq_have_byte s) then
        let '(ok, s) := caq_get_next_byte s in
        if negb ok then set_caq_stage DONE s
        else
          let s := set_caq_have_byte true s in
          let s := set_caq_stage START_BIT s in
          set_caq_bit_idx 7 s
      else s in
    match caq_stage s with
    | START_BIT =>
        let s := caq_begin_bit false s in
        let s := set_caq_stage DATA_BITS s in
        let s := set_currentPeriod (caq_half_period s) s in
        set_caq_halves_left (u8 (caq_halves_left s - 1)) s
    | DATA_BITS =>
        let bit_val :=
          negb (Z.land (Z.shiftr (byte_val (caq_cur_byte s)) (caq_bit_idx s))
                       0x01 =? 0) in
        let s := caq_begin_bit bit_val s in
        let s := set_caq_bit_idx (i8 (caq_bit_idx s - 1)) s in
        let s := if caq_bit_idx s <? 0 then set_caq_stage STOP_BIT1 s else s in
        let s := set_currentPeriod (caq_half_period s) s in
        set_caq_halves_left (u8 (caq_halves_left s - 1)) s
    | STOP_BIT1 =>
        let s := caq_begin_bit true s in
        let s := set_caq_stage STOP_BIT2 s in
        let s := set_currentPeriod (caq_half_period s) s in
        set_caq_halves_left (u8 (caq_halves_left s - 1)) s
    | STOP_BIT2 =>
        let s := caq_begin_bit true s in
        let s := set_caq_have_byte false s in
        let s := set_caq_stage START_BIT s in
        let s := set_currentPeriod (caq_half_period s) s in
        set_caq_halves_left (u8 (caq_halves_left s - 1)) s
    | DONE =>
        let s :=
          if caq_baudrate_overridden s then
            let s := set_BAUDRATE (caq_saved_baudrate s) s in
            set_caq_baudrate_overridden false s
          else s in
        let s := set_currentID IDEOF s in
        let s := set_currentTask PROCESSID s in
        let s := set_count_r 255 s in
        set_currentPeriod 0 s
    end.

(** ** Runs, frames and the baud override of the CAQ encoder *)

(** *** The pieces of [caq_process] *)

(** The "need a byte to send?" block. *)
Definition caq_fetch (s : state) : state :=
  if negb (caq_have_byte s) then
    let '(ok, s) := caq_get_next_byte s in
    if negb ok then set_caq_stage DONE s
    else
      let s := set_caq_have_byte true s in
      let s := set_caq_stage START_BIT s in
      set_caq_bit_idx 7 s
  else s.

(** The test [(caq_cur_byte >> caq_bit_idx) & 0x01]. *)
Definition caq_bit (b : byte) (i : Z) : bool :=
  negb (Z.land (Z.shiftr (byte_val b) i) 0x01 =? 0).

(** The first half-period of a bit, once [caq_begin_bit] has run. *)
Definition caq_first_half (s : state) : state :=
  let s := set_currentPeriod (caq_half_period s) s in
  set_caq_halves_left (u8 (caq_halves_left s - 1)) s.

(** The [case DONE]. *)
Definition caq_done (s : state) : state :=
  let s :=
    if caq_baudrate_overridden s then
      let s := set_BAUDRATE (caq_saved_baudrate s) s in
      set_caq_baudrate_overridden false s
    else s in
  let s := set_currentID IDEOF s in
  let s := set_currentTask PROCESSID s in
  let s := set_count_r 255 s in
  set_currentPeriod 0 s.

(** The [switch (caq_stage)]. *)
Definition caq_switch (s : state) : state :=
  match caq_stage s with
  | START_BIT =>
      caq_first_half (set_caq_stage DATA_BITS (caq_begin_bit false s))
  | DATA_BITS =>
      let bit_val := caq_bit (caq_cur_byte s) (caq_bit_idx s) in
      let s := caq_begin_bit bit_val s in
      let s := set_caq_bit_idx (i8 (caq_bit_idx s - 1)) s in
      let s := if caq_bit_idx s <? 0 then set_caq_stage STOP_BIT1 s else s in
      caq_first_half s
  | STOP_BIT1 =>
      caq_first_half (set_caq_stage STOP_BIT2 (caq_begin_bit true s))
  | STOP_BIT2 =>
      caq_first_half
        (set_caq_stage START_BIT
           (set_caq_have_byte false (caq_begin_bit true s)))
  | DONE => caq_done s
  end.

(** *** Running the encoder *)

(** [n] ticks: the half-periods handed to the caller and the final state. *)
Fixpoint run (n : nat) (s : state) : list Z * state :=
  match n with
  | O => ([], s)
  | S n' =>
      let s' := caq_process s in
      (currentPeriod s' :: fst (run n' s'), snd (run n' s'))
  end.

(** The statics as their initialisers leave them, with the configured rate
    and an open image. *)
Definition power_on (f : SdFile) (baud : Z) : state :=
  mkState DONE 0 false x00 false 7 0 0 0 (ID_other 0) (TASK_other 0) 0 0 x00
    baud f.

Definition example_image : SdFile := mkSdFile [xa5; x00; xff] true true.

(** An image that holds no byte at all. *)
Definition empty_image : SdFile := mkSdFile [] true true.

(** What the rest of the firmware may do between two calls: anything that
    leaves the statics of the encoder alone. *)
Definition same_statics (s s' : state) : Prop :=
  caq_stage s' = caq_stage s /\
  caq_saved_baudrate s' = caq_saved_baudrate s /\
  caq_baudrate_overridden s' = caq_baudrate_overridden s /\
  caq_cur_byte s' = caq_cur_byte s /\
  caq_have_byte s' = caq_have_byte s /\
  caq_bit_idx s' = caq_bit_idx s /\
  caq_halves_left s' = caq_halves_left s /\
  caq_half_period s' = caq_half_period s.

Inductive reachable : state -> Prop :=
| reach_power_on f baud : reachable (power_on f baud)
| reach_init s : reachable s -> reachable (caq_init s)
| reach_process s : reachable s -> reachable (caq_process s)
| reach_globals s s' : reachable s -> same_statics s s' -> reachable s'.

(** The calls a session is made of: [caq_init], a tick, another image
    opened. *)
Inductive caq_call : Type :=
| call_init
| call_process
| call_open (f : SdFile).

Definition do_call (c : caq_call) (s : state) : state :=
  match c with
  | call_init => caq_init s
  | call_process => caq_process s
  | call_open f => set_bytesRead 0 (set_entry f s)
  end.

Definition do_calls (cs : list caq_call) (s : state) : state :=
  fold_left (fun s c => do_call c s) cs s.

(** *** Frames and waveforms *)

(** The frame of a byte, as the spec words it: one start bit 0, the data
    bits from bit 7 down to bit 0, two stop bits 1. *)
Definition caq_frame (b : byte) : list bool :=
  [false] ++ map (Z.testbit (byte_val b)) [7; 6; 5; 4; 3; 2; 1; 0] ++
  [true; true].

(** The same frame with the bit test of the code. *)
Definition caq_code_frame (b : byte) : list bool :=
  [false] ++ map (caq_bit b) [7; 6; 5; 4; 3; 2; 1; 0] ++ [true; true].

Definition bit_half (bit : bool) : Z :=
  if bit then CAQ_MARK_HALF_US else CAQ_SPACE_HALF_US.

(** Four half-periods per bit. *)
Definition caq_wave (bits : list bool) : list Z :=
  flat_map (fun bit => repeat (bit_half bit) 4) bits.

(** The encoder after the last half-period of byte [b], fetched in [s]. *)
Definition caq_byte_sent (b : byte) (s : state) : state :=
  set_caq_halves_left 0
    (set_currentPeriod CAQ_MARK_HALF_US
       (set_caq_half_period CAQ_MARK_HALF_US
          (set_caq_stage START_BIT
             (set_caq_have_byte false
                (set_caq_bit_idx (-1)
                   (set_caq_cur_byte b
                      (set_outByte b
                         (set_bytesRead (bytesRead s + 1) s)))))))).

(** *** The baud override *)

(** Through a session that started with rate [V]: DONE is only ever reached
    between bits, and either the override holds [V] and the rate is 600, or
    there is no override and the rate is [V]. *)
Definition baud_inv (V : Z) (s : state) : Prop :=
  (caq_stage s = DONE -> caq_halves_left s = 0) /\
  (caq_baudrate_overridden s = true /\ caq_saved_baudrate s = V /\
   BAUDRATE s = 600 \/
   caq_baudrate_overridden s = false /\ BAUDRATE s = V).

(** What [caq_fetch] leaves alone. *)
Definition fetch_frame (s t : state) : Prop :=
  caq_saved_baudrate t = caq_saved_baudrate s /\
  caq_baudrate_overridden t = caq_baudrate_overridden s /\
  BAUDRATE t = BAUDRATE s /\
  caq_halves_left t = caq_halves_left s /\
  caq_half_period t = caq_half_period s /\
  currentPeriod t = currentPeriod s.

(** The values [caq_process] may leave in [currentPeriod]. *)
Definition caq_periods : list Z := [0; CAQ_MARK_HALF_US; CAQ_SPACE_HALF_US].

(** ** Whole playbacks of the CAQ encoder *)

(** The half-periods of a sequence of bytes, frame after frame. *)
Definition caq_tape (bs : list byte) : list Z :=
  flat_map (fun b => caq_wave (caq_frame b)) bs.

(** The bytes of the image from the read position on. *)
Definition unread (s : state) : list byte :=
  skipn (Z.to_nat (bytesRead s)) (f_bytes (entry s)).

(** What sending a byte leaves alone. *)
Definition same_session (s t : state) : Prop :=
  entry t = entry s /\ BAUDRATE t = BAUDRATE s /\
  caq_saved_baudrate t = caq_saved_baudrate s /\
  caq_baudrate_overridden t = caq_baudrate_overridden s /\
  currentID t = currentID s /\ currentTask t = currentTask s /\
  count_r t = count_r s.

(** Between two calls: the bit index and the half-period counter stay in
    range, START_BIT is only seen without a byte, DATA_BITS only with a bit
    left to send, DONE only between bits and without a byte. *)
Definition caq_inv (s : state) : Prop :=
  -1 <= caq_bit_idx s <= 7 /\ 0 <= caq_halves_left s <= 3 /\
  (caq_stage s = START_BIT -> caq_have_byte s = false) /\
  (caq_stage s = DATA_BITS -> 0 <= caq_bit_idx s) /\
  (caq_stage s = DONE -> caq_halves_left s = 0 /\ caq_have_byte s = false).

(** Reading a frame back: the data bits are the half-periods 4, 8, ..., 32
    of the 44, a mark half-period is a 1, bit 7 comes first. *)
Definition frame_byte (w : list Z) : byte :=
  to_byte
    (fold_left
       (fun acc i =>
          2 * acc + (if nth i w 0 =? CAQ_MARK_HALF_US then 1 else 0))
       [4; 8; 12; 16; 20; 24; 28; 32]%nat 0).

End Caq.

(** * Proofs *)

Ltac Zify.zify_post_hook ::= Z.div_mod_to_equations.

(** Closed numerals. *)
Ltac is_pos_lit p :=
  lazymatch p with
  | xH => idtac
  | xO ?q => is_pos_lit q
  | xI ?q => is_pos_lit q
  end.

Ltac is_Z_lit z :=
  lazymatch z with
  | Z0 => idtac
  | Zpos ?p => is_pos_lit p
  | Zneg ?p => is_pos_lit p
  end.

(** Two list facts the playbacks need. *)
Lemma app_inj_length {A} (a b c d : list A) :
  length a = length b -> a ++ c = b ++ d -> a = b /\ c = d.
Proof.
  revert b. induction a as [ | x a IH]; intros [ | y b] Hl E;
    try discriminate Hl.
  - split; [reflexivity | exact E].
  - cbn [app] in E. injection E as -> E. injection Hl as Hl.
    destruct (IH b Hl E) as [-> ->]. split; reflexivity.
Qed.

Lemma firstn_repeat_le {A} (x : A) k : forall n,
  (k <= n)%nat -> firstn k (repeat x n) = repeat x k.
Proof.
  induction k as [ | k IH]; intros n Hl; [reflexivity | ].
  destruct n as [ | n]; [lia | ].
  cbn [repeat firstn]. apply f_equal. apply IH. lia.
Qed.

(** ** The MZF encoder *)

Module MzfProofs.
Import Mzf.

(** Field access through the setters. *)
Ltac fields :=
  cbn [mzf_stage mzf_hdr mzf_file_len mzf_hdr_cksum mzf_file_cksum
       mzf_pulses_left mzf_file_left mzf_tm_left mzf_src mzf_hdr_idx
       mzf_cur_byte mzf_have_byte mzf_leader_done mzf_bit_mask mzf_chk_byte_idx
       mzf_half currentPeriod currentID currentTask count_r bytesRead outByte
       entry
       set_mzf_stage set_mzf_hdr set_mzf_file_len set_mzf_hdr_cksum
       set_mzf_file_cksum set_mzf_pulses_left set_mzf_file_left
       set_mzf_tm_left set_mzf_src set_mzf_hdr_idx set_mzf_cur_byte
       set_mzf_have_byte set_mzf_leader_done set_mzf_bit_mask
       set_mzf_chk_byte_idx set_mzf_half set_currentPeriod set_currentID
       set_currentTask set_count_r set_bytesRead set_outByte set_entry].
Ltac fields_in H :=
  cbn [mzf_stage mzf_hdr mzf_file_len mzf_hdr_cksum mzf_file_cksum
       mzf_pulses_left mzf_file_left mzf_tm_left mzf_src mzf_hdr_idx
       mzf_cur_byte mzf_have_byte mzf_leader_done mzf_bit_mask mzf_chk_byte_idx
       mzf_half currentPeriod currentID currentTask count_r bytesRead outByte
       entry
       set_mzf_stage set_mzf_hdr set_mzf_file_len set_mzf_hdr_cksum
       set_mzf_file_cksum set_mzf_pulses_left set_mzf_file_left
       set_mzf_tm_left set_mzf_src set_mzf_hdr_idx set_mzf_cur_byte
       set_mzf_have_byte set_mzf_leader_done set_mzf_bit_mask
       set_mzf_chk_byte_idx set_mzf_half set_currentPeriod set_currentID
       set_currentTask set_count_r set_bytesRead set_outByte set_entry] in
       H.

(** The same on states built from a record constructor: the result is the
    record with its fields evaluated. *)
Ltac flat :=
  cbv [mzf_stage mzf_hdr mzf_file_len mzf_hdr_cksum mzf_file_cksum
       mzf_pulses_left mzf_file_left mzf_tm_left mzf_src mzf_hdr_idx
       mzf_cur_byte mzf_have_byte mzf_leader_done mzf_bit_mask mzf_chk_byte_idx
       mzf_half currentPeriod currentID currentTask count_r bytesRead outByte
       entry
       set_mzf_stage set_mzf_hdr set_mzf_file_len set_mzf_hdr_cksum
       set_mzf_file_cksum set_mzf_pulses_left set_mzf_file_left
       set_mzf_tm_left set_mzf_src set_mzf_hdr_idx set_mzf_cur_byte
       set_mzf_have_byte set_mzf_leader_done set_mzf_bit_mask
       set_mzf_chk_byte_idx set_mzf_half set_currentPeriod set_currentID
       set_currentTask set_count_r set_bytesRead set_outByte set_entry].

(** *** [mzf_emit_pulse] and the bit writer, as equations *)

(** [mzf_emit_pulse] on the up half and on the down half. *)
Lemma emit_pulse_up l s :
  mzf_half s = 0 ->
  mzf_emit_pulse l s = (false, set_mzf_half 1 (set_currentPeriod (up_us l) s)).
Proof. intros H. unfold mzf_emit_pulse. rewrite H. reflexivity. Qed.

Lemma emit_pulse_down l s :
  mzf_half s <> 0 ->
  mzf_emit_pulse l s = (true, set_mzf_half 0 (set_currentPeriod (down_us l) s)).
Proof.
  intros H. unfold mzf_emit_pulse.
  destruct (Z.eqb_spec (mzf_half s) 0); [contradiction | reflexivity].
Qed.

(** The four cases of the statements below the load: leader pulse or data
    pulse, up half or down half. *)
Lemma emit_bits_leader_up s :
  mzf_leader_done s = false -> mzf_half s = 0 ->
  mzf_emit_bits s = set_mzf_half 1 (set_currentPeriod MZF_LONG_UP_US s).
Proof.
  intros Hl Hh. unfold mzf_emit_bits. rewrite Hl. cbn [negb].
  rewrite (emit_pulse_up _ _ Hh). reflexivity.
Qed.

Lemma emit_bits_leader_down s :
  mzf_leader_done s = false -> mzf_half s <> 0 ->
  mzf_emit_bits s =
  set_mzf_leader_done true
    (set_mzf_half 0 (set_currentPeriod MZF_LONG_DOWN_US s)).
Proof.
  intros Hl Hh. unfold mzf_emit_bits. rewrite Hl. cbn [negb].
  rewrite (emit_pulse_down _ _ Hh). reflexivity.
Qed.

Lemma emit_bits_data_up s :
  mzf_leader_done s = true -> mzf_half s = 0 ->
  mzf_emit_bits s = set_mzf_half 1 (set_currentPeriod (up_us (cur_bit s)) s).
Proof.
  intros Hl Hh. unfold mzf_emit_bits. rewrite Hl. cbn [negb].
  rewrite (emit_pulse_up _ _ Hh). reflexivity.
Qed.

Lemma emit_bits_data_down s :
  mzf_leader_done s = true -> mzf_half s <> 0 ->
  mzf_emit_bits s =
  let s1 :=
    set_mzf_bit_mask (Z.shiftr (mzf_bit_mask s) 1)
      (set_mzf_half 0 (set_currentPeriod (down_us (cur_bit s)) s)) in
  if Z.shiftr (mzf_bit_mask s) 1 =? 0 then set_mzf_have_byte false s1 else s1.
Proof.
  intros Hl Hh. unfold mzf_emit_bits. rewrite Hl. cbn [negb].
  rewrite (emit_pulse_down _ _ Hh). reflexivity.
Qed.

(** *** Loading the next byte *)

Lemma load_hdr_ok s :
  mzf_src s = HDR -> mzf_hdr_idx s < 128 ->
  mzf_load_next_byte s =
  (true,
   set_mzf_have_byte true
     (set_mzf_cur_byte (hdr_at (mzf_hdr s) (mzf_hdr_idx s))
        (set_mzf_hdr_idx (u16 (mzf_hdr_idx s + 1)) s))).
Proof.
  intros Hs Hi. unfold mzf_load_next_byte. rewrite Hs.
  destruct (Z.leb_spec 128 (mzf_hdr_idx s)); [lia | reflexivity].
Qed.

Lemma load_hdr_end s :
  mzf_src s = HDR -> 128 <= mzf_hdr_idx s ->
  mzf_load_next_byte s = (false, s).
Proof.
  intros Hs Hi. unfold mzf_load_next_byte. rewrite Hs.
  destruct (Z.leb_spec 128 (mzf_hdr_idx s)); [reflexivity | lia].
Qed.

Lemma load_file_empty s :
  mzf_src s = FILE -> mzf_file_left s = 0 ->
  mzf_load_next_byte s = (false, s).
Proof.
  intros Hs Hl. unfold mzf_load_next_byte. rewrite Hs, Hl. reflexivity.
Qed.

Lemma load_file_fail s :
  mzf_src s = FILE -> mzf_file_left s <> 0 ->
  byte_at (entry s) (bytesRead s) = None ->
  mzf_load_next_byte s = (false, s).
Proof.
  intros Hs Hl Hb. unfold mzf_load_next_byte, ReadByte. rewrite Hs, Hb.
  destruct (Z.eqb_spec (mzf_file_left s) 0); [contradiction | reflexivity].
Qed.

Lemma load_file_ok s b :
  mzf_src s = FILE -> mzf_file_left s <> 0 ->
  byte_at (entry s) (bytesRead s) = Some b ->
  mzf_load_next_byte s =
  (true,
   set_mzf_file_cksum (mzf_cksum_add (mzf_file_cksum s) b)
     (set_mzf_file_left (u16 (mzf_file_left s - 1))
        (set_mzf_have_byte true
           (set_mzf_cur_byte b
              (set_outByte b (set_bytesRead (bytesRead s + 1) s)))))).
Proof.
  intros Hs Hl Hb. unfold mzf_load_next_byte, ReadByte. rewrite Hs, Hb.
  destruct (Z.eqb_spec (mzf_file_left s) 0); [contradiction | reflexivity].
Qed.

Lemma load_chk_ok s :
  mzf_src s = CHK -> mzf_chk_byte_idx s < 2 ->
  mzf_load_next_byte s =
  (true,
   set_mzf_chk_byte_idx (u8 (mzf_chk_byte_idx s + 1))
     (set_mzf_have_byte true (set_mzf_cur_byte (chk_byte s) s))).
Proof.
  intros Hs Hi. unfold mzf_load_next_byte. rewrite Hs.
  destruct (Z.leb_spec 2 (mzf_chk_byte_idx s)); [lia | reflexivity].
Qed.

Lemma load_chk_end s :
  mzf_src s = CHK -> 2 <= mzf_chk_byte_idx s ->
  mzf_load_next_byte s = (false, s).
Proof.
  intros Hs Hi. unfold mzf_load_next_byte. rewrite Hs.
  destruct (Z.leb_spec 2 (mzf_chk_byte_idx s)); [reflexivity | lia].
Qed.

(** *** One call of [mzf_process_bytes] *)

(** With a byte in flight nothing is loaded; without one, the load decides. *)
Lemma process_bytes_have n s :
  mzf_have_byte s = true -> mzf_process_bytes n s = mzf_emit_bits s.
Proof. intros H. unfold mzf_process_bytes. rewrite H. reflexivity. Qed.

Lemma process_bytes_load_ok n s s' :
  mzf_have_byte s = false -> mzf_load_next_byte s = (true, s') ->
  mzf_process_bytes n s =
  mzf_emit_bits (set_mzf_bit_mask 0x80 (set_mzf_leader_done false s')).
Proof. intros H L. unfold mzf_process_bytes. rewrite H, L. reflexivity. Qed.

Lemma process_bytes_load_fail n s s' :
  mzf_have_byte s = false -> mzf_load_next_byte s = (false, s') ->
  mzf_process_bytes n s = set_currentPeriod 0 s'.
Proof. intros H L. unfold mzf_process_bytes. rewrite H, L. reflexivity. Qed.

(** [mzf_emit_pulse] stores one of the four pulse constants. *)
Lemma emit_pulse_period l s :
  In (currentPeriod (snd (mzf_emit_pulse l s))) [464; 494; 240; 264].
Proof.
  unfold mzf_emit_pulse.
  destruct (mzf_half s =? 0), l; cbn; auto 6.
Qed.

Lemma emit_bits_period s :
  In (currentPeriod (mzf_emit_bits s)) [464; 494; 240; 264].
Proof.
  destruct (mzf_leader_done s) eqn:Hl;
    destruct (Z.eq_dec (mzf_half s) 0) as [Hh | Hh].
  - rewrite (emit_bits_data_up _ Hl Hh). fields.
    destruct (cur_bit s); cbn; auto.
  - rewrite (emit_bits_data_down _ Hl Hh). cbv zeta.
    destruct (_ =? 0); fields; destruct (cur_bit s); cbn; auto.
  - rewrite (emit_bits_leader_up _ Hl Hh). cbn; auto.
  - rewrite (emit_bits_leader_down _ Hl Hh). cbn; auto.
Qed.

(** A byte in flight always emits a half-period. *)
Lemma emit_bits_nonzero s : (currentPeriod (mzf_emit_bits s) =? 0) = false.
Proof.
  pose proof (emit_bits_period s) as H. cbn [In] in H.
  apply Z.eqb_neq. lia.
Qed.

(** *** One call of [mzf_process], by kind of stage *)

(** A gap or tapemark stage: the up half, then the down half and the
    bookkeeping of [pulse_done]. *)
Lemma tick_pulse_up s :
  is_pulse_stage (mzf_stage s) = true -> mzf_half s = 0 ->
  mzf_process s =
  set_mzf_half 1 (set_currentPeriod (up_us (stage_long (mzf_stage s))) s).
Proof.
  intros Hs Hh. unfold mzf_process.
  destruct (mzf_stage s); try discriminate Hs; cbn [stage_long];
    rewrite (emit_pulse_up _ _ Hh); reflexivity.
Qed.

Lemma tick_pulse_down s :
  is_pulse_stage (mzf_stage s) = true -> mzf_half s <> 0 ->
  mzf_process s =
  pulse_done (mzf_stage s)
    (set_mzf_half 0 (set_currentPeriod (down_us (stage_long (mzf_stage s))) s)).
Proof.
  intros Hs Hh. unfold mzf_process.
  destruct (mzf_stage s); try discriminate Hs; cbn [stage_long];
    rewrite (emit_pulse_down _ _ Hh); reflexivity.
Qed.

(** A byte stage calls [mzf_process_bytes] and leaves when it reports a zero
    period. *)
Lemma tick_byte_stage s :
  is_byte_stage (mzf_stage s) = true ->
  mzf_process s =
  let s1 := mzf_process_bytes (bytes_arg (mzf_stage s)) s in
  if currentPeriod s1 =? 0 then stage_exit (mzf_stage s) s1 else s1.
Proof.
  intros Hs. unfold mzf_process.
  destruct (mzf_stage s); try discriminate Hs; reflexivity.
Qed.

Lemma tick_emit s :
  is_byte_stage (mzf_stage s) = true -> mzf_have_byte s = true ->
  mzf_process s = mzf_emit_bits s.
Proof.
  intros Hs Hb. rewrite (tick_byte_stage _ Hs). cbv zeta.
  rewrite (process_bytes_have _ _ Hb), emit_bits_nonzero. reflexivity.
Qed.

Lemma tick_load_ok s s' :
  is_byte_stage (mzf_stage s) = true -> mzf_have_byte s = false ->
  mzf_load_next_byte s = (true, s') ->
  mzf_process s =
  mzf_emit_bits (set_mzf_bit_mask 0x80 (set_mzf_leader_done false s')).
Proof.
  intros Hs Hb L. rewrite (tick_byte_stage _ Hs). cbv zeta.
  rewrite (process_bytes_load_ok _ _ _ Hb L), emit_bits_nonzero. reflexivity.
Qed.

Lemma tick_load_fail s s' :
  is_byte_stage (mzf_stage s) = true -> mzf_have_byte s = false ->
  mzf_load_next_byte s = (false, s') ->
  mzf_process s = stage_exit (mzf_stage s) (set_currentPeriod 0 s').
Proof.
  intros Hs Hb L. rewrite (tick_byte_stage _ Hs). cbv zeta.
  rewrite (process_bytes_load_fail _ _ _ Hb L). reflexivity.
Qed.

(** The terminal stage hands over to the end-of-file block. *)
Lemma tick_done s :
  mzf_stage s = DONE ->
  mzf_process s =
  set_currentPeriod 0
    (set_count_r 255 (set_currentTask PROCESSID (set_currentID IDEOF s))).
Proof. intros Hs. unfold mzf_process. rewrite Hs. reflexivity. Qed.

(** Evaluates the tests, logarithms and shifts on literals left in the goal
    and replaces the tests a hypothesis decides. *)
Ltac lit_tests :=
  repeat match goal with
  | H : ?b = _ |- context [if ?b then _ else _] => rewrite H
  | |- context [Z.eqb ?x ?y] =>
      is_Z_lit x; is_Z_lit y;
      let v := eval cbv in (Z.eqb x y) in
      change (Z.eqb x y) with v
  | |- context [Z.log2 ?x] =>
      is_Z_lit x;
      let v := eval cbv in (Z.log2 x) in
      change (Z.log2 x) with v
  | |- context [Z.shiftr ?x 1] =>
      is_Z_lit x;
      let v := eval cbv in (Z.shiftr x 1) in
      change (Z.shiftr x 1) with v
  end; cbv iota.

Ltac split_if :=
  match goal with
  | |- context [if ?b then _ else _] =>
      lazymatch b with
      | context [if _ then _ else _] => fail
      | _ => destruct b eqn:?
      end
  end.

Ltac unfold_meas :=
  unfold inv, stage_inv, ticks_bound, stage_local, writer_ok, cur_ticks,
    half_ticks, is_mask, pulse_done, stage_exit, mzf_next_stage,
    mzf_reset_byte_writer_for_src, up_us, down_us,
    MZF_LTM_LONGS, MZF_LTM_SHORTS, MZF_STM_LONGS, MZF_STM_SHORTS,
    MZF_LGAP_PULSES, MZF_SGAP_PULSES.

Ltac arith :=
  unfold u8, u16, u32 in *; cbn [stage_base In];
  repeat split; first [lia | reflexivity | intuition (auto; lia)].

(** *** Every tick of a session uses up one unit of [ticks_bound] *)

(** A tick of a gap or tapemark stage. *)
Lemma step_pulse s :
  inv s -> is_pulse_stage (mzf_stage s) = true ->
  inv (mzf_process s) /\ 0 <= ticks_bound (mzf_process s) < ticks_bound s.
Proof.
  intros [Hlen Hst] Hp. unfold stage_inv in Hst.
  destruct (Z.eq_dec (mzf_half s) 0) as [Hh | Hh].
  - rewrite (tick_pulse_up _ Hp Hh).
    unfold_meas. fields. rewrite Hh.
    destruct (mzf_stage s); try discriminate Hp; lit_tests; arith.
  - rewrite (tick_pulse_down _ Hp Hh).
    apply Z.eqb_neq in Hh.
    unfold_meas.
    destruct (mzf_stage s) eqn:Hs; try discriminate Hp; fields; cbv zeta;
      fields; repeat (split_if; fields); rewrite ?Hs; lit_tests; arith.
Qed.

Ltac mask_cases Hm :=
  cbn [In] in Hm;
  repeat (destruct Hm as [Hm | Hm]; [ | ]); try contradiction;
  rewrite <- ?Hm in *.

Lemma step_emit s :
  inv s -> is_byte_stage (mzf_stage s) = true -> mzf_have_byte s = true ->
  inv (mzf_process s) /\ 0 <= ticks_bound (mzf_process s) < ticks_bound s.
Proof.
  intros [Hlen Hst] Hp Hb. rewrite (tick_emit _ Hp Hb).
  assert (Hw : writer_ok s).
  { unfold stage_inv in Hst.
    destruct (mzf_stage s); try discriminate Hp; try contradiction;
      apply Hst. }
  unfold writer_ok in Hw. rewrite Hb in Hw. destruct Hw as [Hm Hl0].
  unfold stage_inv, writer_ok in Hst. rewrite Hb in Hst.
  pose proof (Z.log2_nonneg (mzf_bit_mask s)) as Hlog.
  unfold is_mask in Hm.
  destruct (mzf_leader_done s) eqn:Hl;
    destruct (Z.eq_dec (mzf_half s) 0) as [Hh | Hh].
  - rewrite (emit_bits_data_up _ Hl Hh).
    unfold_meas. fields. rewrite Hb, Hl, Hh.
    destruct (mzf_stage s); try discriminate Hp; lit_tests; arith.
  - rewrite (emit_bits_data_down _ Hl Hh). apply Z.eqb_neq in Hh.
    unfold_meas. cbv zeta.
    mask_cases Hm; lit_tests; fields; rewrite ?Hb, ?Hl, ?Hh;
    destruct (mzf_stage s); try discriminate Hp; try contradiction;
      lit_tests; arith.
  - rewrite (emit_bits_leader_up _ Hl Hh).
    unfold_meas. fields. rewrite Hb, Hl, Hh.
    destruct (mzf_stage s); try discriminate Hp; lit_tests; arith.
  - rewrite (emit_bits_leader_down _ Hl Hh). apply Z.eqb_neq in Hh.
    specialize (Hl0 eq_refl).
    unfold_meas. fields. rewrite Hb, Hl, Hh, Hl0.
    destruct (mzf_stage s); try discriminate Hp; try contradiction;
      lit_tests; arith.
Qed.

Lemma tick_first_half s s' :
  is_byte_stage (mzf_stage s) = true -> mzf_have_byte s = false ->
  mzf_load_next_byte s = (true, s') -> mzf_half s' = 0 ->
  mzf_process s =
  set_mzf_half 1
    (set_currentPeriod MZF_LONG_UP_US
       (set_mzf_bit_mask 0x80 (set_mzf_leader_done false s'))).
Proof.
  intros Hs Hb L Hh. rewrite (tick_load_ok _ _ Hs Hb L).
  apply emit_bits_leader_up; fields; [reflexivity | exact Hh].
Qed.

Ltac meas_done Hs Hb :=
  rewrite ?Hs; unfold_meas; fields; rewrite ?Hs, ?Hb; lit_tests; arith.

Lemma step_load s :
  inv s -> is_byte_stage (mzf_stage s) = true -> mzf_have_byte s = false ->
  inv (mzf_process s) /\ 0 <= ticks_bound (mzf_process s) < ticks_bound s.
Proof.
  intros [Hlen Hst] Hp Hb.
  unfold stage_inv, writer_ok in Hst. rewrite Hb in Hst.
  destruct (mzf_stage s) eqn:Hs; try discriminate Hp; try contradiction;
    destruct Hst as (Hsrc & Hrem & Hh);
    assert (Hbs : is_byte_stage (mzf_stage s) = true)
      by (rewrite Hs; reflexivity).
  - (* HDR1 *)
    destruct (Z_lt_dec (mzf_hdr_idx s) 128) as [Hi | Hi].
    + rewrite (tick_first_half s _ Hbs Hb (load_hdr_ok _ Hsrc Hi) Hh).
      meas_done Hs Hb.
    + rewrite (tick_load_fail s _ Hbs Hb (load_hdr_end _ Hsrc ltac:(lia))).
      meas_done Hs Hb.
  - (* CHKH1 *)
    destruct (Z_lt_dec (mzf_chk_byte_idx s) 2) as [Hi | Hi].
    + rewrite (tick_first_half s _ Hbs Hb (load_chk_ok _ Hsrc Hi) Hh).
      meas_done Hs Hb.
    + rewrite (tick_load_fail s _ Hbs Hb (load_chk_end _ Hsrc ltac:(lia))).
      meas_done Hs Hb.
  - (* HDR2 *)
    destruct (Z_lt_dec (mzf_hdr_idx s) 128) as [Hi | Hi].
    + rewrite (tick_first_half s _ Hbs Hb (load_hdr_ok _ Hsrc Hi) Hh).
      meas_done Hs Hb.
    + rewrite (tick_load_fail s _ Hbs Hb (load_hdr_end _ Hsrc ltac:(lia))).
      meas_done Hs Hb.
  - (* CHKH2 *)
    destruct (Z_lt_dec (mzf_chk_byte_idx s) 2) as [Hi | Hi].
    + rewrite (tick_first_half s _ Hbs Hb (load_chk_ok _ Hsrc Hi) Hh).
      meas_done Hs Hb.
    + rewrite (tick_load_fail s _ Hbs Hb (load_chk_end _ Hsrc ltac:(lia))).
      meas_done Hs Hb.
  - (* FILE1 *)
    destruct (Z.eq_dec (mzf_file_left s) 0) as [Hi | Hi];
      [ | destruct (byte_at (entry s) (bytesRead s)) as [b | ] eqn:Hrd ].
    + rewrite (tick_load_fail s _ Hbs Hb (load_file_empty _ Hsrc Hi)).
      meas_done Hs Hb.
    + rewrite (tick_first_half s _ Hbs Hb (load_file_ok _ _ Hsrc Hi Hrd) Hh).
      meas_done Hs Hb.
    + rewrite (tick_load_fail s _ Hbs Hb (load_file_fail _ Hsrc Hi Hrd)).
      meas_done Hs Hb.
  - (* CHKF1 *)
    destruct (Z_lt_dec (mzf_chk_byte_idx s) 2) as [Hi | Hi].
    + rewrite (tick_first_half s _ Hbs Hb (load_chk_ok _ Hsrc Hi) Hh).
      meas_done Hs Hb.
    + rewrite (tick_load_fail s _ Hbs Hb (load_chk_end _ Hsrc ltac:(lia))).
      meas_done Hs Hb.
Qed.

(** One tick from a state of the invariant, outside DONE, keeps the invariant
    and lowers [ticks_bound] by at least one. *)
Lemma step_decreases s :
  inv s -> mzf_stage s <> DONE ->
  inv (mzf_process s) /\ 0 <= ticks_bound (mzf_process s) < ticks_bound s.
Proof.
  intros Hi Hnd.
  destruct (is_pulse_stage (mzf_stage s)) eqn:Hp.
  - apply step_pulse; assumption.
  - assert (Hb : is_byte_stage (mzf_stage s) = true).
    { destruct (mzf_stage s); try discriminate Hp; try reflexivity.
      contradiction. }
    destruct (mzf_have_byte s) eqn:Hh.
    + apply step_emit; assumption.
    + apply step_load; assumption.
Qed.

(** *** [mzf_init] *)

(** The checksum loop touches [mzf_hdr_cksum] only. *)
Lemma hdr_cksum_loop_eq n : forall i s,
  hdr_cksum_loop n i s =
  set_mzf_hdr_cksum (cksum_loop n i (mzf_hdr s) (mzf_hdr_cksum s)) s.
Proof.
  induction n as [ | n IH]; intros i s.
  - destruct s; reflexivity.
  - cbn [hdr_cksum_loop cksum_loop]. rewrite IH. destruct s; reflexivity.
Qed.

(** The three outcomes of [mzf_init]. *)
Lemma init_ok s : header_ok s -> mzf_init s = init_state s.
Proof.
  intros [Hseek Hread]. unfold mzf_init, init_state, header_read in *.
  fields. rewrite Hseek. cbn [negb].
  destruct (file_read (entry s) (mzf_hdr s) 128) as [r buf].
  cbn [fst snd] in *. subst r. cbn [Z.eqb Pos.eqb negb].
  rewrite hdr_cksum_loop_eq. destruct s. reflexivity.
Qed.

Lemma init_seek_fail s :
  seekSet0 (entry s) = false ->
  mzf_init s = set_currentID IDEOF (set_mzf_half 0 (set_mzf_stage DONE s)).
Proof.
  intros Hseek. unfold mzf_init. fields. rewrite Hseek. reflexivity.
Qed.

Lemma init_read_fail s :
  seekSet0 (entry s) = true -> fst (header_read s) <> 128 ->
  mzf_init s =
  set_currentID IDEOF
    (set_mzf_hdr (snd (header_read s))
       (set_mzf_half 0 (set_mzf_stage DONE s))).
Proof.
  intros Hseek Hread. unfold mzf_init, header_read in *.
  fields. rewrite Hseek. cbn [negb].
  destruct (file_read (entry s) (mzf_hdr s) 128) as [r buf].
  cbn [fst snd] in *. apply Z.eqb_neq in Hread. rewrite Hread. reflexivity.
Qed.

(** *** The invariant holds when playback starts *)

Lemma byte_val_range b : 0 <= byte_val b <= 255.
Proof.
  unfold byte_val. pose proof (Byte.to_N_bounded b). lia.
Qed.

Lemma file_len_range h : 0 <= file_len_of h <= 65535.
Proof.
  unfold file_len_of.
  pose proof (byte_val_range (hdr_at h 18)) as Hlo.
  pose proof (byte_val_range (hdr_at h 19)) as Hhi.
  set (lo := byte_val (hdr_at h 18)) in *.
  set (hi := byte_val (hdr_at h 19)) in *.
  assert (Hs : u16 (Z.shiftl hi 8) = hi * 256).
  { rewrite Z.shiftl_mul_pow2 by lia. change (2 ^ 8) with 256.
    unfold u16. apply Z.mod_small. lia. }
  rewrite Hs.
  pose proof (Z.add_lor_land lo (hi * 256)) as Hadd.
  assert (0 <= Z.land lo (hi * 256)) by (apply Z.land_nonneg; lia).
  assert (0 <= Z.lor lo (hi * 256)) by (apply Z.lor_nonneg; lia).
  lia.
Qed.

(** [mzf_init] establishes the invariant and every tick keeps it. *)
Lemma inv_init s : header_ok s -> inv (mzf_init s).
Proof.
  intros H. rewrite (init_ok _ H). unfold init_state, inv, stage_inv.
  unfold mzf_next_stage, MZF_LGAP_PULSES. fields.
  pose proof (file_len_range (snd (header_read s))). lia.
Qed.

Lemma inv_ticks n : forall s, inv s -> inv (ticks n s).
Proof.
  induction n as [ | n IH]; intros s Hi; cbn [ticks]; [exact Hi | ].
  apply IH. destruct (mzf_stage s) eqn:Hs;
    try (apply step_decreases; [exact Hi | rewrite Hs; discriminate]).
  rewrite (tick_done _ Hs). destruct Hi as [Hlen _].
  split; [exact Hlen | ]. unfold stage_inv. fields. rewrite Hs. exact I.
Qed.

(** *** Every session reaches the terminal stage *)

(** From a state of the invariant the terminal stage is reached within
    [ticks_bound] ticks, and is never left. *)
Lemma reaches_done_within k : forall s,
  inv s -> ticks_bound s <= Z.of_nat k ->
  exists n, (n <= k)%nat /\ mzf_stage (ticks n s) = DONE.
Proof.
  induction k as [ | k IH]; intros s Hi Hk.
  - exists O. split; [lia | ]. cbn [ticks].
    destruct (mzf_stage s) eqn:Hs; try reflexivity;
      (assert (Hnd : mzf_stage s <> DONE) by (rewrite Hs; discriminate);
       destruct (step_decreases _ Hi Hnd) as [_ Hd]; lia).
  - destruct (mzf_stage s) eqn:Hs;
      try (assert (Hnd : mzf_stage s <> DONE) by (rewrite Hs; discriminate);
           destruct (step_decreases _ Hi Hnd) as [Hi' Hd];
           destruct (IH _ Hi' ltac:(lia)) as (n & Hn & Hdone);
           exists (S n); split; [lia | exact Hdone]).
    exists O. split; [lia | exact Hs].
Qed.

Lemma done_stays n : forall s,
  mzf_stage s = DONE -> mzf_stage (ticks n s) = DONE.
Proof.
  induction n as [ | n IH]; intros s Hs; cbn [ticks]; [exact Hs | ].
  apply IH. rewrite (tick_done _ Hs). fields. exact Hs.
Qed.

(** *** The order of the stages *)

(** Only [mzf_process] itself changes the stage. *)
Lemma emit_bits_stage s : mzf_stage (mzf_emit_bits s) = mzf_stage s.
Proof.
  destruct (mzf_leader_done s) eqn:Hl;
    destruct (Z.eq_dec (mzf_half s) 0) as [Hh | Hh].
  - rewrite (emit_bits_data_up _ Hl Hh). reflexivity.
  - rewrite (emit_bits_data_down _ Hl Hh). cbv zeta.
    destruct (_ =? 0); reflexivity.
  - rewrite (emit_bits_leader_up _ Hl Hh). reflexivity.
  - rewrite (emit_bits_leader_down _ Hl Hh). reflexivity.
Qed.

Lemma load_stage s :
  mzf_stage (snd (mzf_load_next_byte s)) = mzf_stage s.
Proof.
  unfold mzf_load_next_byte, ReadByte.
  destruct (mzf_src s).
  - destruct (128 <=? mzf_hdr_idx s); reflexivity.
  - destruct (mzf_file_left s =? 0); [reflexivity | ].
    destruct (byte_at (entry s) (bytesRead s)); reflexivity.
  - destruct (2 <=? mzf_chk_byte_idx s); reflexivity.
Qed.

Lemma process_bytes_cases n s :
  (currentPeriod (mzf_process_bytes n s) <> 0 /\
   mzf_stage (mzf_process_bytes n s) = mzf_stage s) \/
  (exists s', mzf_load_next_byte s = (false, s') /\
              mzf_have_byte s = false /\
              mzf_process_bytes n s = set_currentPeriod 0 s').
Proof.
  destruct (mzf_have_byte s) eqn:Hb.
  - left. rewrite (process_bytes_have _ _ Hb).
    split; [apply Z.eqb_neq, emit_bits_nonzero | apply emit_bits_stage].
  - pose proof (load_stage s) as Hst.
    destruct (mzf_load_next_byte s) as [[] s'] eqn:L; cbn [snd] in Hst.
    + left. rewrite (process_bytes_load_ok _ _ _ Hb L).
      split; [apply Z.eqb_neq, emit_bits_nonzero | ].
      rewrite emit_bits_stage. fields. exact Hst.
    + right. exists s'. repeat split.
      apply (process_bytes_load_fail _ _ _ Hb L).
Qed.

(** A tick keeps the stage or moves to the one [stage_succ] names. *)
Lemma tick_stage s :
  mzf_stage (mzf_process s) = mzf_stage s \/
  mzf_stage (mzf_process s) = stage_succ (mzf_stage s).
Proof.
  destruct (is_pulse_stage (mzf_stage s)) eqn:Hp.
  - destruct (Z.eq_dec (mzf_half s) 0) as [Hh | Hh].
    + left. rewrite (tick_pulse_up _ Hp Hh). reflexivity.
    + rewrite (tick_pulse_down _ Hp Hh).
      destruct (mzf_stage s) eqn:Hs; try discriminate Hp;
        unfold pulse_done; cbv zeta; fields;
        try (destruct (_ =? 0); [right | left]; fields; assumption || reflexivity);
        right; reflexivity.
  - destruct (is_byte_stage (mzf_stage s)) eqn:Hb.
    + rewrite (tick_byte_stage _ Hb). cbv zeta.
      destruct (process_bytes_cases (bytes_arg (mzf_stage s)) s)
        as [[Hnz Hst] | (s' & L & Hh & E)].
      * apply Z.eqb_neq in Hnz. rewrite Hnz. left. exact Hst.
      * rewrite E. fields. cbn [Z.eqb]. right.
        pose proof (load_stage s) as Hst. rewrite L in Hst. cbn [snd] in Hst.
        destruct (mzf_stage s) eqn:Hs; try discriminate Hb; reflexivity.
    + left. destruct (mzf_stage s) eqn:Hs; try discriminate.
      rewrite (tick_done _ Hs). fields. exact Hs.
Qed.

(** [stage_eqb] decides equality of stages. *)
Lemma stage_eqb_eq a b : stage_eqb a b = true <-> a = b.
Proof.
  split; [ | intros ->; apply Z.eqb_refl ].
  destruct a, b; intros H; try reflexivity; discriminate H.
Qed.

(** Runs compose. *)
Lemma ticks_add a : forall b s, ticks (a + b) s = ticks b (ticks a s).
Proof.
  induction a as [ | a IH]; intros b s; [reflexivity | ].
  cbn [ticks Nat.add]. apply IH.
Qed.

Lemma trace_app a : forall b s,
  trace (a + b) s = trace a s ++ trace b (ticks a s).
Proof.
  induction a as [ | a IH]; intros b s; [reflexivity | ].
  cbn [trace ticks Nat.add app]. rewrite IH. reflexivity.
Qed.

Lemma stages_S n s :
  stages (S n) s = mzf_stage s :: stages n (mzf_process s).
Proof. reflexivity. Qed.

(** A run that ends in DONE went through the stages of [order_from] and no
    others. *)
Lemma compress_to_done n : forall s,
  order_from (mzf_stage s) <> [] ->
  mzf_stage (ticks n s) = DONE ->
  compress (stages (S n) s) = order_from (mzf_stage s).
Proof.
  induction n as [ | n IH]; intros s Hon Hd.
  - cbn [ticks] in Hd. rewrite stages_S, Hd. reflexivity.
  - cbn [ticks] in Hd. rewrite stages_S.
    assert (Hstep := tick_stage s).
    assert (Hon' : order_from (mzf_stage (mzf_process s)) <> []).
    { destruct Hstep as [-> | ->]; [exact Hon | ].
      destruct (mzf_stage s); try discriminate; exact Hon. }
    specialize (IH _ Hon' Hd). rewrite stages_S in IH |- *.
    cbn [compress].
    destruct (stage_eqb (mzf_stage s) (mzf_stage (mzf_process s))) eqn:He.
    + apply stage_eqb_eq in He. rewrite He. exact IH.
    + cbn [compress] in IH. rewrite IH.
      destruct Hstep as [Hsame | Hnext].
      * rewrite Hsame in He. unfold stage_eqb in He.
        rewrite Z.eqb_refl in He. discriminate He.
      * rewrite Hnext in *.
        destruct (mzf_stage s); try reflexivity; try discriminate He;
          contradiction.
Qed.

(** A gap or tapemark stage emits the pulse kind [stage_long] gives. *)
Lemma pulse_done_period st s :
  currentPeriod (pulse_done st s) = currentPeriod s.
Proof.
  destruct st; unfold pulse_done; cbv zeta; try reflexivity;
    destruct (_ =? 0); reflexivity.
Qed.

Lemma pulse_stage_period s :
  is_pulse_stage (mzf_stage s) = true ->
  In (currentPeriod (mzf_process s))
     [up_us (stage_long (mzf_stage s)); down_us (stage_long (mzf_stage s))].
Proof.
  intros Hp. destruct (Z.eq_dec (mzf_half s) 0) as [Hh | Hh].
  - rewrite (tick_pulse_up _ Hp Hh). left. reflexivity.
  - rewrite (tick_pulse_down _ Hp Hh), pulse_done_period.
    right. left. reflexivity.
Qed.

(** C1: after a successful [mzf_init] the stages run in the order long gap,
    leader tapemark (long, short, end long), header, header checksum, header
    copy, its checksum, short gap, trailer tapemark (long, short, end long),
    file body, file checksum, terminal; the session always gets there, the
    second file copy [FILE2] and its checksum [CHKF2] are never entered, and
    each gap or tapemark stage emits only the pulse kind of its name. *)
Theorem mzf_stage_order s0 :
  header_ok s0 ->
  (exists N, forall n, (N <= n)%nat ->
     compress (stages n (mzf_init s0)) = mzf_order) /\
  (forall n, mzf_stage (ticks n (mzf_init s0)) <> FILE2 /\
             mzf_stage (ticks n (mzf_init s0)) <> CHKF2) /\
  (forall n, is_pulse_stage (mzf_stage (ticks n (mzf_init s0))) = true ->
     In (currentPeriod (ticks (S n) (mzf_init s0)))
        (if stage_long (mzf_stage (ticks n (mzf_init s0)))
         then [MZF_LONG_UP_US; MZF_LONG_DOWN_US]
         else [MZF_SHORT_UP_US; MZF_SHORT_DOWN_US])).
Proof.
  intros Hok. pose proof (inv_init _ Hok) as Hinv.
  assert (Hst : mzf_stage (mzf_init s0) = LGAP1)
    by (rewrite (init_ok _ Hok); reflexivity).
  split; [ | split ].
  - destruct (reaches_done_within
                (Z.to_nat (ticks_bound (mzf_init s0))) _ Hinv ltac:(lia))
      as (n0 & _ & Hd).
    exists (S n0). intros n Hn.
    destruct n as [ | m]; [lia | ].
    replace m with (n0 + (m - n0))%nat by lia.
    rewrite compress_to_done.
    + rewrite Hst. reflexivity.
    + rewrite Hst. discriminate.
    + rewrite ticks_add. apply done_stays, Hd.
  - intros n. pose proof (inv_ticks n _ Hinv) as [_ Hs].
    unfold stage_inv in Hs.
    split; intros E; rewrite E in Hs; exact Hs.
  - intros n Hp. replace (S n) with (n + 1)%nat by lia.
    rewrite ticks_add. cbn [ticks].
    pose proof (pulse_stage_period _ Hp) as H.
    destruct (stage_long _); exact H.
Qed.

(** The theorem on the playback of [example_image]. *)
Lemma mzf_stage_order_witness :
  header_ok (power_on example_image) /\
  ((exists N, forall n, (N <= n)%nat ->
      compress (stages n (mzf_init (power_on example_image))) = mzf_order) /\
   (forall n, mzf_stage (ticks n (mzf_init (power_on example_image))) <> FILE2 /\
              mzf_stage (ticks n (mzf_init (power_on example_image))) <> CHKF2) /\
   (forall n,
      is_pulse_stage
        (mzf_stage (ticks n (mzf_init (power_on example_image)))) = true ->
      In (currentPeriod (ticks (S n) (mzf_init (power_on example_image))))
         (if stage_long (mzf_stage (ticks n (mzf_init (power_on example_image))))
          then [MZF_LONG_UP_US; MZF_LONG_DOWN_US]
          else [MZF_SHORT_UP_US; MZF_SHORT_DOWN_US]))).
Proof.
  split; [split; reflexivity | ].
  apply (mzf_stage_order (power_on example_image)). split; reflexivity.
Defined.

(** *** Runs of whole pulses *)

(** One whole pulse takes two ticks. *)
Lemma two_ticks s :
  is_pulse_stage (mzf_stage s) = true -> mzf_half s = 0 ->
  trace 2 s = pulse_train (mzf_stage s) (stage_long (mzf_stage s)) 1 /\
  ticks 2 s =
  pulse_done (mzf_stage s)
    (set_mzf_half 0
       (set_currentPeriod (down_us (stage_long (mzf_stage s))) s)).
Proof.
  intros Hp Hh. cbn [trace ticks pulse_train].
  rewrite (tick_pulse_up _ Hp Hh).
  set (s1 := set_mzf_half 1 _).
  assert (Hp1 : is_pulse_stage (mzf_stage s1) = true) by exact Hp.
  assert (Hh1 : mzf_half s1 <> 0) by (subst s1; fields; discriminate).
  rewrite (tick_pulse_down _ Hp1 Hh1), pulse_done_period.
  subst s1. fields. split; [reflexivity | ].
  destruct s; fields; reflexivity.
Qed.

(** A pulse that is not the last of its stage leaves the stage alone. *)
Lemma gap_continues st s :
  is_gap_stage st = true -> 1 < mzf_pulses_left s < 4294967296 ->
  pulse_done st s = set_mzf_pulses_left (mzf_pulses_left s - 1) s.
Proof.
  intros Hg Hn.
  assert (E : u32 (mzf_pulses_left s - 1) = mzf_pulses_left s - 1)
    by (unfold u32; lia).
  assert (E0 : (mzf_pulses_left s - 1 =? 0) = false) by lia.
  destruct st; try discriminate Hg; unfold pulse_done; cbv zeta; fields;
    rewrite E, E0; reflexivity.
Qed.

Lemma tm_continues st s :
  is_tm_stage st = true -> 1 < mzf_tm_left s < 256 ->
  pulse_done st s = set_mzf_tm_left (mzf_tm_left s - 1) s.
Proof.
  intros Hg Hn.
  assert (E : u8 (mzf_tm_left s - 1) = mzf_tm_left s - 1)
    by (unfold u8; lia).
  assert (E0 : (mzf_tm_left s - 1 =? 0) = false) by lia.
  destruct st; try discriminate Hg; unfold pulse_done; cbv zeta; fields;
    rewrite E, E0; reflexivity.
Qed.

(** A gap stage with [n] pulses to go emits exactly [n] short pulses and
    then does what it does when its counter reaches zero. *)
Lemma gap_run n : forall s,
  is_gap_stage (mzf_stage s) = true -> mzf_half s = 0 ->
  mzf_pulses_left s = Z.of_nat (S n) -> Z.of_nat (S n) < 4294967296 ->
  trace (2 * S n) s = pulse_train (mzf_stage s) false (S n) /\
  ticks (2 * S n) s =
  pulse_done (mzf_stage s)
    (set_mzf_pulses_left 1
       (set_mzf_half 0 (set_currentPeriod MZF_SHORT_DOWN_US s))).
Proof.
  induction n as [ | n IH]; intros s Hg Hh Hn Hlt.
  - assert (Hp : is_pulse_stage (mzf_stage s) = true)
      by (destruct (mzf_stage s); try discriminate Hg; reflexivity).
    assert (Hl : stage_long (mzf_stage s) = false)
      by (destruct (mzf_stage s); try discriminate Hg; reflexivity).
    destruct (two_ticks s Hp Hh) as [Ht Hs]. rewrite Hl in Ht, Hs.
    change (2 * 1)%nat with 2%nat. split; [exact Ht | ].
    rewrite Hs. destruct s. fields_in Hn. subst. fields. reflexivity.
  - assert (Hp : is_pulse_stage (mzf_stage s) = true)
      by (destruct (mzf_stage s); try discriminate Hg; reflexivity).
    assert (Hl : stage_long (mzf_stage s) = false)
      by (destruct (mzf_stage s); try discriminate Hg; reflexivity).
    destruct (two_ticks s Hp Hh) as [Ht Hs]. rewrite Hl in Ht, Hs.
    replace (2 * S (S n))%nat with (2 + 2 * S n)%nat by lia.
    rewrite trace_app, ticks_add, Ht, Hs.
    rewrite gap_continues by (fields; first [exact Hg | lia]).
    fields.
    set (s2 := set_mzf_pulses_left _ _).
    destruct (IH s2) as [Ht2 Hs2]; try (subst s2; fields; assumption || lia).
    rewrite Ht2, Hs2. subst s2. fields. split; [reflexivity | ].
    destruct s; fields; reflexivity.
Qed.

(** A tapemark stage with [n] pulses to go emits exactly [n] pulses of its
    kind. *)
Lemma tm_run n : forall s,
  is_tm_stage (mzf_stage s) = true -> mzf_half s = 0 ->
  mzf_tm_left s = Z.of_nat (S n) -> Z.of_nat (S n) < 256 ->
  trace (2 * S n) s =
  pulse_train (mzf_stage s) (stage_long (mzf_stage s)) (S n) /\
  ticks (2 * S n) s =
  pulse_done (mzf_stage s)
    (set_mzf_tm_left 1
       (set_mzf_half 0
          (set_currentPeriod (down_us (stage_long (mzf_stage s))) s))).
Proof.
  induction n as [ | n IH]; intros s Hg Hh Hn Hlt.
  - assert (Hp : is_pulse_stage (mzf_stage s) = true)
      by (destruct (mzf_stage s); try discriminate Hg; reflexivity).
    destruct (two_ticks s Hp Hh) as [Ht Hs].
    change (2 * 1)%nat with 2%nat. split; [exact Ht | ].
    rewrite Hs. destruct s. fields_in Hn. subst. fields. reflexivity.
  - assert (Hp : is_pulse_stage (mzf_stage s) = true)
      by (destruct (mzf_stage s); try discriminate Hg; reflexivity).
    destruct (two_ticks s Hp Hh) as [Ht Hs].
    replace (2 * S (S n))%nat with (2 + 2 * S n)%nat by lia.
    rewrite trace_app, ticks_add, Ht, Hs.
    rewrite tm_continues by (fields; first [exact Hg | lia]).
    fields.
    set (s2 := set_mzf_tm_left _ _).
    destruct (IH s2) as [Ht2 Hs2]; try (subst s2; fields; assumption || lia).
    rewrite Ht2, Hs2. subst s2. fields. split; [reflexivity | ].
    destruct s; fields; reflexivity.
Qed.

(** The state in which the stage after a gap or tapemark stage starts. *)
Lemma gap_last s :
  mzf_pulses_left s = 1 ->
  pulse_done LGAP1 s =
  mzf_next_stage LTM_LONG
    (set_mzf_tm_left MZF_LTM_LONGS (set_mzf_pulses_left 0 s)) /\
  pulse_done SGAP s =
  mzf_next_stage STM_LONG
    (set_mzf_tm_left MZF_STM_LONGS (set_mzf_pulses_left 0 s)).
Proof.
  intros H. unfold pulse_done. cbv zeta. fields. rewrite H.
  split; reflexivity.
Qed.

(** The last pulse of a tapemark stage. *)
Lemma tm_last s :
  mzf_tm_left s = 1 ->
  pulse_done LTM_LONG s =
  mzf_next_stage LTM_SHORT (set_mzf_tm_left MZF_LTM_SHORTS s) /\
  pulse_done LTM_SHORT s = mzf_next_stage LTM_ENDLONG (set_mzf_tm_left 0 s) /\
  pulse_done STM_LONG s =
  mzf_next_stage STM_SHORT (set_mzf_tm_left MZF_STM_SHORTS s) /\
  pulse_done STM_SHORT s = mzf_next_stage STM_ENDLONG (set_mzf_tm_left 0 s).
Proof.
  intros H. unfold pulse_done. cbv zeta. fields. rewrite H.
  change (u8 (1 - 1) =? 0) with true. cbv iota.
  change (u8 (1 - 1)) with 0.
  repeat split; destruct s; reflexivity.
Qed.

(** From the first long pulse of a tapemark to the stage that follows it. *)
Lemma tapemark_run st n s :
  (st = LTM_LONG \/ st = STM_LONG) ->
  mzf_stage s = st -> mzf_half s = 0 ->
  mzf_tm_left s = Z.of_nat (S n) -> Z.of_nat (S n) < 256 ->
  (st = LTM_LONG -> MZF_LTM_SHORTS = Z.of_nat (S n)) ->
  (st = STM_LONG -> MZF_STM_SHORTS = Z.of_nat (S n)) ->
  trace (2 * S n + (2 * S n + 2)) s =
  tapemark st (stage_succ st) (stage_succ (stage_succ st)) (S n) /\
  mzf_stage (ticks (2 * S n + (2 * S n + 2)) s) =
  stage_succ (stage_succ (stage_succ st)) /\
  mzf_half (ticks (2 * S n + (2 * S n + 2)) s) = 0 /\
  mzf_have_byte (ticks (2 * S n + (2 * S n + 2)) s) = false.
Proof.
  intros Hst Hs Hh Hn Hlt HL HS.
  rewrite !trace_app, !ticks_add. unfold tapemark.
  (* the long pulses *)
  destruct (tm_run n s) as [T1 S1];
    try assumption; [destruct Hst; subst st; rewrite Hs; reflexivity | ].
  rewrite T1, S1, Hs. clear T1 S1.
  set (a := set_mzf_tm_left 1 _).
  assert (Ea : exists b, pulse_done st a = b /\ mzf_stage b = stage_succ st /\
            mzf_half b = 0 /\ mzf_tm_left b = Z.of_nat (S n)).
  { destruct (tm_last a eq_refl) as (E1 & _ & E3 & _).
    destruct Hst; subst st; [rewrite E1 | rewrite E3];
      eexists; (split; [reflexivity | ]); unfold mzf_next_stage; fields;
      auto. }
  destruct Ea as (b & -> & Hsb & Hhb & Hnb). clear a.
  (* the short pulses *)
  destruct (tm_run n b) as [T2 S2];
    try assumption; [destruct Hst; subst st; rewrite Hsb; reflexivity | ].
  rewrite T2, S2, Hsb. clear T2 S2.
  set (c := set_mzf_tm_left 1 _).
  assert (Ec : exists d, pulse_done (stage_succ st) c = d /\
            mzf_stage d = stage_succ (stage_succ st) /\ mzf_half d = 0).
  { destruct (tm_last c eq_refl) as (_ & E2 & _ & E4).
    destruct Hst; subst st; cbn [stage_succ]; [rewrite E2 | rewrite E4];
      eexists; (split; [reflexivity | ]); unfold mzf_next_stage; fields;
      auto. }
  destruct Ec as (d & -> & Hsd & Hhd). clear c.
  (* the closing long pulse *)
  destruct (two_ticks d) as [T3 S3];
    [destruct Hst; subst st; rewrite Hsd; reflexivity | exact Hhd | ].
  rewrite T3, S3, Hsd. clear T3 S3.
  destruct Hst; subst st; cbn [stage_succ stage_long];
    (split; [reflexivity | ]); unfold pulse_done, mzf_next_stage; fields;
    auto.
Qed.

(** C6: the long gap is 22000 short pulses (44000 half-periods), the leader
    tapemark 40 long, 40 short and 1 long pulse, and the header follows;
    the short gap, entered from the second header checksum, is 11000 short
    pulses, the trailer tapemark 20 long, 20 short and 1 long pulse, and the
    file body follows. *)
Theorem mzf_gap_tapemark_counts s0 s :
  header_ok s0 ->
  mzf_stage s = CHKH2 -> mzf_stage (mzf_process s) = SGAP ->
  (trace (2 * Z.to_nat 22000 + (2 * 40 + (2 * 40 + 2))) (mzf_init s0) =
   pulse_train LGAP1 false (Z.to_nat 22000) ++
   tapemark LTM_LONG LTM_SHORT LTM_ENDLONG 40 /\
   mzf_stage (ticks (2 * Z.to_nat 22000 + (2 * 40 + (2 * 40 + 2)))
                (mzf_init s0)) = HDR1) /\
  (trace (2 * Z.to_nat 11000 + (2 * 20 + (2 * 20 + 2))) (mzf_process s) =
   pulse_train SGAP false (Z.to_nat 11000) ++
   tapemark STM_LONG STM_SHORT STM_ENDLONG 20 /\
   mzf_stage (ticks (2 * Z.to_nat 11000 + (2 * 20 + (2 * 20 + 2)))
                (mzf_process s)) = FILE1).
Proof.
  intros Hok Hs Hnext. split.
  - rewrite (init_ok _ Hok).
    assert (Ha : exists a, init_state s0 = a /\ mzf_stage a = LGAP1 /\
                 mzf_half a = 0 /\ mzf_pulses_left a = 22000)
      by (eexists; repeat split).
    destruct Ha as (a & -> & Hsa & Hha & Hna).
    assert (E : Z.to_nat 22000 = S (Z.to_nat 21999)) by lia.
    rewrite E, trace_app, ticks_add.
    destruct (gap_run (Z.to_nat 21999) a) as [T1 S1];
      try assumption; try lia; [rewrite Hsa; reflexivity | ].
    rewrite T1, S1, Hsa. clear T1 S1.
    set (b := set_mzf_pulses_left 1 _).
    destruct (gap_last b eq_refl) as [-> _].
    destruct (tapemark_run LTM_LONG 39
                (mzf_next_stage LTM_LONG
                   (set_mzf_tm_left MZF_LTM_LONGS (set_mzf_pulses_left 0 b))))
      as (T2 & S2 & _); try reflexivity; [left; reflexivity | discriminate | ].
    split; [ | exact S2 ].
    apply f_equal. exact T2.
  - assert (Hb : is_byte_stage (mzf_stage s) = true)
      by (rewrite Hs; reflexivity).
    rewrite (tick_byte_stage _ Hb) in *. cbv zeta in *.
    destruct (process_bytes_cases (bytes_arg (mzf_stage s)) s)
      as [[Hnz Hst] | (s' & L & Hh & E)].
    { apply Z.eqb_neq in Hnz. rewrite Hnz in Hnext.
      rewrite Hst, Hs in Hnext. discriminate Hnext. }
    clear Hnext. rewrite E, Hs. fields. cbn [Z.eqb stage_exit].
    match goal with
    | |- context [mzf_next_stage SGAP ?t] =>
        assert (Ha : exists a, mzf_next_stage SGAP t = a /\
                  mzf_stage a = SGAP /\ mzf_half a = 0 /\
                  mzf_pulses_left a = 11000)
          by (eexists; repeat split)
    end.
    destruct Ha as (a & -> & Hsa & Hha & Hna).
    assert (E1 : Z.to_nat 11000 = S (Z.to_nat 10999)) by lia.
    rewrite E1, trace_app, ticks_add.
    destruct (gap_run (Z.to_nat 10999) a) as [T1 S1];
      try assumption; try lia; [rewrite Hsa; reflexivity | ].
    rewrite T1, S1, Hsa. clear T1 S1.
    set (b := set_mzf_pulses_left 1 _).
    destruct (gap_last b eq_refl) as [_ ->].
    destruct (tapemark_run STM_LONG 19
                (mzf_next_stage STM_LONG
                   (set_mzf_tm_left MZF_STM_LONGS (set_mzf_pulses_left 0 b))))
      as (T2 & S2 & _); try reflexivity; [right; reflexivity | discriminate | ].
    split; [ | exact S2 ].
    apply f_equal. exact T2.
Qed.

(** The theorem on the playback of [example_image]; tick 48845 is the one
    that leaves CHKH2. *)
Lemma mzf_gap_tapemark_counts_witness :
  header_ok (power_on example_image) /\
  mzf_stage (playing 48845 example_image) = CHKH2 /\
  mzf_stage (mzf_process (playing 48845 example_image)) = SGAP /\
  ((trace (2 * Z.to_nat 22000 + (2 * 40 + (2 * 40 + 2)))
      (mzf_init (power_on example_image)) =
    pulse_train LGAP1 false (Z.to_nat 22000) ++
    tapemark LTM_LONG LTM_SHORT LTM_ENDLONG 40 /\
    mzf_stage
      (ticks (2 * Z.to_nat 22000 + (2 * 40 + (2 * 40 + 2)))
         (mzf_init (power_on example_image))) = HDR1) /\
   (trace (2 * Z.to_nat 11000 + (2 * 20 + (2 * 20 + 2)))
      (mzf_process (playing 48845 example_image)) =
    pulse_train SGAP false (Z.to_nat 11000) ++
    tapemark STM_LONG STM_SHORT STM_ENDLONG 20 /\
    mzf_stage
      (ticks (2 * Z.to_nat 11000 + (2 * 20 + (2 * 20 + 2)))
         (mzf_process (playing 48845 example_image))) = FILE1)).
Proof.
  assert (H0 : header_ok (power_on example_image)) by (split; reflexivity).
  assert (H1 : mzf_stage (playing 48845 example_image) = CHKH2)
    by (vm_compute; reflexivity).
  assert (H2 : mzf_stage (mzf_process (playing 48845 example_image)) = SGAP)
    by (vm_compute; reflexivity).
  exact (conj H0 (conj H1 (conj H2 (mzf_gap_tapemark_counts _ _ H0 H1 H2)))).
Defined.

(** *** One byte through [mzf_process_bytes] *)

(** One more call in front of a run of [pb_run]. *)
Lemma pb_cons n s s' p ps sf :
  mzf_process_bytes 0 s = s' -> currentPeriod s' = p ->
  pb_run n s' = (ps, sf) ->
  pb_run (S n) s = (p :: ps, sf).
Proof. intros <- <- H. cbn [pb_run]. rewrite H. reflexivity. Qed.

Ltac side := fields; first [reflexivity | discriminate].

(** One call with a byte in flight, on a state given as a record. *)
Ltac pb_step :=
  eapply pb_cons;
  [ rewrite process_bytes_have by side;
    first
      [ rewrite emit_bits_leader_up by side
      | rewrite emit_bits_leader_down by side
      | rewrite emit_bits_data_up by side
      | rewrite emit_bits_data_down by side ];
    cbv zeta; unfold cur_bit; fields; lit_tests; flat; reflexivity
  | reflexivity
  | ].

(** The 18 calls that send a byte already loaded, leader pulse not yet sent. *)
Lemma byte_emit_run s :
  mzf_have_byte s = true -> mzf_leader_done s = false ->
  mzf_bit_mask s = 128 -> mzf_half s = 0 ->
  pb_run 18 s = (byte_wave (mzf_cur_byte s), byte_sent s).
Proof.
  destruct s. fields. intros -> -> -> ->.
  unfold byte_wave, byte_sent. cbv [flat_map pulse_wave app]. flat.
  do 18 pb_step.
  reflexivity.
Qed.

(** The byte stays in flight for the first 17 of them. *)
Lemma byte_in_flight s :
  mzf_have_byte s = true -> mzf_leader_done s = false ->
  mzf_bit_mask s = 128 -> mzf_half s = 0 ->
  mzf_have_byte (snd (pb_run 17 s)) = true.
Proof.
  destruct s. fields. intros -> -> -> ->.
  assert (H : exists ps sf,
             pb_run 17
               (mkState mzf_stage0 mzf_hdr0 mzf_file_len0 mzf_hdr_cksum0
                  mzf_file_cksum0 mzf_pulses_left0 mzf_file_left0
                  mzf_tm_left0 mzf_src0 mzf_hdr_idx0 mzf_cur_byte0 true
                  false 128 mzf_chk_byte_idx0 0 currentPeriod0 currentID0
                  currentTask0 count_r0 bytesRead0 outByte0 entry0) =
             (ps, sf) /\ mzf_have_byte sf = true).
  { eexists. eexists. split; [ do 17 pb_step; reflexivity | reflexivity ]. }
  destruct H as (ps & sf & -> & H). exact H.
Qed.

(** Decoding the wave of a byte gives the byte back, for all 256 bytes. *)
Lemma decode_byte_wave b : decode_byte (byte_wave b) = Some b.
Proof. destruct b; vm_compute; reflexivity. Qed.

(** A successful load sets the byte-loaded flag and keeps the half-period
    index. *)
Lemma load_ok_frame s s' :
  mzf_load_next_byte s = (true, s') ->
  mzf_have_byte s' = true /\ mzf_half s' = mzf_half s /\
  mzf_stage s' = mzf_stage s.
Proof.
  unfold mzf_load_next_byte, ReadByte. intros H.
  destruct (mzf_src s).
  - destruct (128 <=? mzf_hdr_idx s); [discriminate H | ].
    injection H as <-. repeat split.
  - destruct (mzf_file_left s =? 0); [discriminate H | ].
    destruct (byte_at (entry s) (bytesRead s)); [ | discriminate H ].
    injection H as <-. repeat split.
  - destruct (2 <=? mzf_chk_byte_idx s); [discriminate H | ].
    injection H as <-. repeat split.
Qed.

(** The call that loads a byte emits its first half-period like a call that
    finds the byte loaded and the writer reset. *)
Lemma pb_run_load n s s' :
  mzf_have_byte s = false -> mzf_load_next_byte s = (true, s') ->
  pb_run (S n) s =
  pb_run (S n) (set_mzf_bit_mask 0x80 (set_mzf_leader_done false s')).
Proof.
  intros Hb L. destruct (load_ok_frame _ _ L) as (Hb' & _).
  cbn [pb_run]. rewrite (process_bytes_load_ok _ _ _ Hb L).
  rewrite process_bytes_have by (fields; exact Hb'). reflexivity.
Qed.

(** C4: the calls of [mzf_process_bytes] that send one byte emit a long
    leader pulse and then eight data pulses; read back with long as 1 and
    short as 0, most significant bit first, the data pulses give the byte.
    The byte is in flight up to the 17th call and done at the 18th. *)
Theorem mzf_byte_roundtrip s s' :
  mzf_have_byte s = false -> mzf_half s = 0 ->
  mzf_load_next_byte s = (true, s') ->
  fst (pb_run 18 s) = byte_wave (mzf_cur_byte s') /\
  decode_byte (fst (pb_run 18 s)) = Some (mzf_cur_byte s') /\
  mzf_have_byte (snd (pb_run 17 s)) = true /\
  mzf_have_byte (snd (pb_run 18 s)) = false.
Proof.
  intros Hb Hh L. destruct (load_ok_frame _ _ L) as (Hb' & Hh' & _).
  rewrite !(pb_run_load _ _ _ Hb L).
  set (s1 := set_mzf_bit_mask 128 _).
  assert (H1 : mzf_have_byte s1 = true) by exact Hb'.
  assert (H2 : mzf_leader_done s1 = false) by reflexivity.
  assert (H3 : mzf_bit_mask s1 = 128) by reflexivity.
  assert (H4 : mzf_half s1 = 0) by (subst s1; fields; congruence).
  rewrite (byte_emit_run s1 H1 H2 H3 H4). cbn [fst snd].
  repeat split.
  - apply decode_byte_wave.
  - apply (byte_in_flight s1 H1 H2 H3 H4).
Qed.

(** The theorem on the first header byte of [example_image]: tick 44162 is
    the first of HDR1. *)
Lemma mzf_byte_roundtrip_witness :
  mzf_have_byte (playing 44162 example_image) = false /\
  mzf_half (playing 44162 example_image) = 0 /\
  mzf_load_next_byte (playing 44162 example_image) =
  (true, snd (mzf_load_next_byte (playing 44162 example_image))) /\
  (fst (pb_run 18 (playing 44162 example_image)) =
   byte_wave
     (mzf_cur_byte (snd (mzf_load_next_byte (playing 44162 example_image)))) /\
   decode_byte (fst (pb_run 18 (playing 44162 example_image))) =
   Some
     (mzf_cur_byte (snd (mzf_load_next_byte (playing 44162 example_image)))) /\
   mzf_have_byte (snd (pb_run 17 (playing 44162 example_image))) = true /\
   mzf_have_byte (snd (pb_run 18 (playing 44162 example_image))) = false).
Proof.
  assert (H0 : mzf_have_byte (playing 44162 example_image) = false)
    by (vm_compute; reflexivity).
  assert (H1 : mzf_half (playing 44162 example_image) = 0)
    by (vm_compute; reflexivity).
  assert (H2 : mzf_load_next_byte (playing 44162 example_image) =
               (true, snd (mzf_load_next_byte (playing 44162 example_image))))
    by (vm_compute; reflexivity).
  exact (conj H0 (conj H1 (conj H2 (mzf_byte_roundtrip _ _ H0 H1 H2)))).
Defined.

(** *** Byte stages, tick by tick *)

(** While a byte stage emits, its ticks are the calls of
    [mzf_process_bytes]. *)
Lemma tick_as_process_bytes s :
  is_byte_stage (mzf_stage s) = true ->
  currentPeriod (mzf_process_bytes 0 s) <> 0 ->
  mzf_process s = mzf_process_bytes 0 s /\
  mzf_stage (mzf_process_bytes 0 s) = mzf_stage s.
Proof.
  intros Hs Hp. rewrite (tick_byte_stage _ Hs). cbv zeta.
  change (mzf_process_bytes (bytes_arg (mzf_stage s)) s)
    with (mzf_process_bytes 0 s).
  apply Z.eqb_neq in Hp. rewrite Hp. split; [reflexivity | ].
  destruct (process_bytes_cases 0 s) as [[_ H] | (s' & _ & _ & E)];
    [exact H | ].
  rewrite E in Hp. discriminate Hp.
Qed.

Lemma ticks_as_pb n : forall s,
  is_byte_stage (mzf_stage s) = true ->
  (forall p, In p (fst (pb_run n s)) -> p <> 0) ->
  trace n s = map (pair (mzf_stage s)) (fst (pb_run n s)) /\
  ticks n s = snd (pb_run n s).
Proof.
  induction n as [ | n IH]; intros s Hs Hnz; [split; reflexivity | ].
  cbn [pb_run fst snd] in *.
  destruct (tick_as_process_bytes s Hs) as [E Hst];
    [apply Hnz; left; reflexivity | ].
  cbn [trace ticks map]. rewrite E.
  destruct (IH (mzf_process_bytes 0 s)) as [T S1].
  - rewrite Hst. exact Hs.
  - intros p Hp. apply Hnz. right. exact Hp.
  - rewrite T, S1, Hst. split; reflexivity.
Qed.

(** No half-period of a byte is the zero period. *)
Lemma byte_wave_nonzero b p : In p (byte_wave b) -> p <> 0.
Proof.
  unfold byte_wave. cbv [flat_map pulse_wave app In]. intros H.
  repeat (destruct H as [H | H]; [subst p | ]); try contradiction;
    try discriminate;
    match goal with |- context [bit_of ?x ?m] => destruct (bit_of x m) end;
    discriminate.
Qed.

(** The 18 ticks that send one byte in a byte stage. *)
Lemma byte_ticks s s' :
  is_byte_stage (mzf_stage s) = true ->
  mzf_have_byte s = false -> mzf_half s = 0 ->
  mzf_load_next_byte s = (true, s') ->
  trace 18 s = map (pair (mzf_stage s)) (byte_wave (mzf_cur_byte s')) /\
  ticks 18 s =
  byte_sent (set_mzf_bit_mask 0x80 (set_mzf_leader_done false s')).
Proof.
  intros Hs Hb Hh L. destruct (load_ok_frame _ _ L) as (Hb' & Hh' & _).
  assert (R : pb_run 18 s =
              (byte_wave (mzf_cur_byte s'),
               byte_sent
                 (set_mzf_bit_mask 0x80 (set_mzf_leader_done false s')))).
  { rewrite (pb_run_load _ _ _ Hb L).
    rewrite (byte_emit_run
               (set_mzf_bit_mask 0x80 (set_mzf_leader_done false s')))
      by (fields; congruence).
    reflexivity. }
  destruct (ticks_as_pb 18 s Hs) as [T S1].
  - rewrite R. cbn [fst]. apply byte_wave_nonzero.
  - rewrite T, S1, R. split; reflexivity.
Qed.

(** A checksum stage, from its first tick to the tick that leaves it. *)
Lemma chk_stage_run a :
  is_chk_stage (mzf_stage a) = true -> mzf_src a = CHK ->
  mzf_have_byte a = false -> mzf_half a = 0 -> mzf_chk_byte_idx a = 0 ->
  trace 37 a = map (pair (mzf_stage a)) (chk_wave (chk_value a)) /\
  mzf_stage (ticks 37 a) = stage_succ (mzf_stage a).
Proof.
  intros Hs Hsrc Hb Hh Hi.
  assert (Hbs : is_byte_stage (mzf_stage a) = true)
    by (destruct (mzf_stage a); try discriminate Hs; reflexivity).
  change 37%nat with (18 + (18 + 1))%nat.
  rewrite !trace_app, !ticks_add. unfold chk_wave. rewrite !map_app.
  (* high byte *)
  destruct (byte_ticks a _ Hbs Hb Hh (load_chk_ok a Hsrc ltac:(lia)))
    as [T1 S1].
  rewrite T1, S1. clear T1 S1. fields.
  assert (E1 : chk_byte a = to_byte (Z.shiftr (chk_value a) 8))
    by (unfold chk_byte; rewrite Hi; reflexivity).
  rewrite E1.
  match goal with
  | |- context [trace 18 ?t] =>
      assert (Hb1 : exists b, t = b /\
                mzf_stage b = mzf_stage a /\ mzf_src b = CHK /\
                mzf_have_byte b = false /\ mzf_half b = 0 /\
                mzf_chk_byte_idx b = 1 /\ chk_value b = chk_value a)
  end.
  { eexists. split; [reflexivity | ].
    unfold byte_sent, chk_value. fields. rewrite Hi.
    repeat split. assumption. }
  destruct Hb1 as (b & -> & Hsb & Hsrcb & Hbb & Hhb & Hib & Hvb).
  (* low byte *)
  assert (Hbsb : is_byte_stage (mzf_stage b) = true) by (rewrite Hsb; exact Hbs).
  destruct (byte_ticks b _ Hbsb Hbb Hhb (load_chk_ok b Hsrcb ltac:(lia)))
    as [T2 S2].
  rewrite T2, S2. clear T2 S2. fields.
  assert (E2 : chk_byte b = to_byte (Z.land (chk_value a) 0xFF))
    by (unfold chk_byte; rewrite Hib, Hvb; reflexivity).
  rewrite E2, Hsb.
  match goal with
  | |- context [trace 1 ?t] =>
      assert (Hc1 : exists c, t = c /\
                mzf_stage c = mzf_stage a /\ mzf_src c = CHK /\
                mzf_have_byte c = false /\ mzf_chk_byte_idx c = 2)
  end.
  { eexists. split; [reflexivity | ].
    unfold byte_sent. fields. rewrite Hib.
    repeat split; assumption. }
  destruct Hc1 as (c & -> & Hsc & Hsrcc & Hbc & Hic).
  (* the tick that finds no third byte *)
  assert (Hbsc : is_byte_stage (mzf_stage c) = true) by (rewrite Hsc; exact Hbs).
  cbn [trace ticks map].
  rewrite (tick_load_fail c _ Hbsc Hbc (load_chk_end c Hsrcc ltac:(lia))).
  rewrite Hsc. split.
  - do 2 apply f_equal. 
    destruct (mzf_stage a); try discriminate Hs; reflexivity.
  - destruct (mzf_stage a); try discriminate Hs; reflexivity.
Qed.

(** *** What a tick leaves alone *)

(** The header buffer, its checksum and the file length are written by
    [mzf_init] only. *)
Lemma emit_bits_header s : same_header s (mzf_emit_bits s).
Proof.
  destruct (mzf_leader_done s) eqn:Hl;
    destruct (Z.eq_dec (mzf_half s) 0) as [Hh | Hh].
  - rewrite (emit_bits_data_up _ Hl Hh). repeat split.
  - rewrite (emit_bits_data_down _ Hl Hh). cbv zeta.
    destruct (_ =? 0); repeat split.
  - rewrite (emit_bits_leader_up _ Hl Hh). repeat split.
  - rewrite (emit_bits_leader_down _ Hl Hh). repeat split.
Qed.

Lemma load_header s : same_header s (snd (mzf_load_next_byte s)).
Proof.
  unfold mzf_load_next_byte, ReadByte.
  destruct (mzf_src s).
  - destruct (128 <=? mzf_hdr_idx s); repeat split.
  - destruct (mzf_file_left s =? 0); [repeat split | ].
    destruct (byte_at (entry s) (bytesRead s)); repeat split.
  - destruct (2 <=? mzf_chk_byte_idx s); repeat split.
Qed.

Lemma process_bytes_header n s : same_header s (mzf_process_bytes n s).
Proof.
  destruct (mzf_have_byte s) eqn:Hb.
  - rewrite (process_bytes_have _ _ Hb). apply emit_bits_header.
  - pose proof (load_header s) as H.
    destruct (mzf_load_next_byte s) as [[] s'] eqn:L; cbn [snd] in H.
    + rewrite (process_bytes_load_ok _ _ _ Hb L).
      destruct (emit_bits_header
                  (set_mzf_bit_mask 128 (set_mzf_leader_done false s')))
        as (H1 & H2 & H3).
      destruct H as (G1 & G2 & G3).
      unfold same_header. rewrite H1, H2, H3. fields. auto.
    + rewrite (process_bytes_load_fail _ _ _ Hb L). exact H.
Qed.

Lemma tick_header s : same_header s (mzf_process s).
Proof.
  destruct (is_pulse_stage (mzf_stage s)) eqn:Hp.
  - destruct (Z.eq_dec (mzf_half s) 0) as [Hh | Hh].
    + rewrite (tick_pulse_up _ Hp Hh). repeat split.
    + rewrite (tick_pulse_down _ Hp Hh).
      destruct (mzf_stage s); try discriminate Hp;
        unfold pulse_done; cbv zeta; fields;
        try (destruct (_ =? 0)); repeat split.
  - destruct (is_byte_stage (mzf_stage s)) eqn:Hb.
    + rewrite (tick_byte_stage _ Hb). cbv zeta.
      pose proof (process_bytes_header (bytes_arg (mzf_stage s)) s) as H.
      destruct (_ =? 0); [ | exact H ].
      destruct H as (H1 & H2 & H3).
      destruct (mzf_stage s); try discriminate Hb; unfold same_header;
        unfold stage_exit, mzf_next_stage, mzf_reset_byte_writer_for_src;
        fields; auto.
    + destruct (mzf_stage s) eqn:Hs; try discriminate.
      rewrite (tick_done _ Hs). repeat split.
Qed.

Lemma ticks_header n : forall s, same_header s (ticks n s).
Proof.
  induction n as [ | n IH]; intros s; [repeat split | ].
  cbn [ticks]. destruct (IH (mzf_process s)) as (H1 & H2 & H3).
  destruct (tick_header s) as (G1 & G2 & G3).
  unfold same_header. rewrite H1, H2, H3. auto.
Qed.

(** *** The header checksum *)

(** [popcount8] counts the 1 bits, for all 256 bytes. *)
Lemma popcount8_spec b : popcount8 b = popcount_spec b.
Proof. destruct b; vm_compute; reflexivity. Qed.

Lemma popcount_spec_range b : 0 <= popcount_spec b <= 8.
Proof. destruct b; vm_compute; split; discriminate. Qed.

(** The checksum loop as a sum. *)
Lemma fold_cksum l : forall acc,
  0 <= acc < 65536 ->
  fold_left mzf_cksum_add l acc =
  (acc + fold_right Z.add 0 (map popcount_spec l)) mod 65536.
Proof.
  induction l as [ | b l IH]; intros acc Hacc; cbn [fold_left map fold_right].
  - rewrite Z.add_0_r. symmetry. apply Z.mod_small. exact Hacc.
  - rewrite IH by (unfold mzf_cksum_add, u16; apply Z.mod_pos_bound; lia).
    unfold mzf_cksum_add, u16. rewrite popcount8_spec.
    rewrite Zplus_mod_idemp_l. f_equal. lia.
Qed.

Lemma cksum_loop_app l : forall pre rest acc,
  cksum_loop (length l) (Z.of_nat (length pre)) (pre ++ l ++ rest) acc =
  fold_left mzf_cksum_add l acc.
Proof.
  induction l as [ | b l IH]; intros pre rest acc; [reflexivity | ].
  cbn [length cksum_loop fold_left].
  assert (E : hdr_at (pre ++ (b :: l) ++ rest) (Z.of_nat (length pre)) = b).
  { unfold hdr_at. rewrite Nat2Z.id. cbn [app]. apply nth_middle. }
  rewrite E.
  replace (Z.of_nat (length pre) + 1) with (Z.of_nat (length (pre ++ [b])))
    by (rewrite length_app; cbn [length]; lia).
  replace (pre ++ (b :: l) ++ rest) with ((pre ++ [b]) ++ l ++ rest)
    by (rewrite <- app_assoc; reflexivity).
  apply IH.
Qed.

(** A read that delivers 128 bytes leaves the first 128 bytes of the image in
    the buffer. *)
Lemma header_read_ok s :
  fst (header_read s) = 128 ->
  firstn 128 (snd (header_read s)) = firstn 128 (f_bytes (entry s)) /\
  length (firstn 128 (f_bytes (entry s))) = 128%nat /\
  exists rest,
    snd (header_read s) = firstn 128 (f_bytes (entry s)) ++ rest.
Proof.
  unfold header_read, file_read.
  destruct (f_io_ok (entry s)); cbn [fst snd]; [ | discriminate ].
  intros H. apply (f_equal Z.to_nat) in H. rewrite Nat2Z.id in H.
  change (Z.to_nat 128) with 128%nat in H.
  repeat split.
  - rewrite firstn_app, H, Nat.sub_diag, firstn_O, app_nil_r.
    rewrite <- H at 1. apply firstn_all.
  - exact H.
  - eexists. reflexivity.
Qed.

(** The checksum [mzf_init] stores is the one the spec words. *)
Lemma init_checksum s :
  header_ok s ->
  mzf_hdr_cksum (mzf_init s) = checksum_spec (firstn 128 (mzf_hdr (mzf_init s)))
  /\ firstn 128 (mzf_hdr (mzf_init s)) = firstn 128 (f_bytes (entry s))
  /\ length (firstn 128 (mzf_hdr (mzf_init s))) = 128%nat.
Proof.
  intros Hok. rewrite (init_ok _ Hok). destruct Hok as [_ Hr].
  destruct (header_read_ok _ Hr) as (Hf & Hl & rest & Hrest).
  unfold init_state, mzf_next_stage. fields.
  rewrite Hf. repeat split; [ | exact Hl ].
  pose proof (cksum_loop_app (firstn 128 (f_bytes (entry s))) [] rest 0)
    as E.
  rewrite Hl in E. cbn [length app] in E. change (Z.of_nat 0) with 0 in E.
  rewrite Hrest, E, fold_cksum by lia. reflexivity.
Qed.

(** A failed load leaves the state as it was. *)
Lemma load_fail_same s s' : mzf_load_next_byte s = (false, s') -> s' = s.
Proof.
  unfold mzf_load_next_byte, ReadByte. intros H.
  destruct (mzf_src s).
  - destruct (128 <=? mzf_hdr_idx s); [ | discriminate H ].
    injection H as <-. reflexivity.
  - destruct (mzf_file_left s =? 0); [injection H as <-; reflexivity | ].
    destruct (byte_at (entry s) (bytesRead s)); [discriminate H | ].
    injection H as <-. reflexivity.
  - destruct (2 <=? mzf_chk_byte_idx s); [ | discriminate H ].
    injection H as <-. reflexivity.
Qed.

(** A byte stage is left by the tick that finds nothing to load, and by no
    other tick. *)
Lemma byte_stage_exit s :
  is_byte_stage (mzf_stage s) = true ->
  mzf_stage (mzf_process s) <> mzf_stage s ->
  mzf_have_byte s = false /\ mzf_load_next_byte s = (false, s) /\
  mzf_process s = stage_exit (mzf_stage s) (set_currentPeriod 0 s).
Proof.
  intros Hb Hn.
  destruct (process_bytes_cases (bytes_arg (mzf_stage s)) s)
    as [[Hnz Hst] | (s' & L & Hh & E)].
  - exfalso. apply Hn. rewrite (tick_byte_stage _ Hb). cbv zeta.
    apply Z.eqb_neq in Hnz. rewrite Hnz. exact Hst.
  - pose proof (load_fail_same _ _ L) as ->.
    repeat split; try assumption.
    apply (tick_load_fail _ _ Hb Hh L).
Qed.

(** The checksum stage that follows a header copy or the file body. *)
Lemma chk_after_data s :
  is_data_stage (mzf_stage s) = true ->
  mzf_stage (mzf_process s) <> mzf_stage s ->
  trace 37 (mzf_process s) =
  map (pair (stage_succ (mzf_stage s)))
    (chk_wave
       match mzf_stage s with
       | FILE1 => mzf_file_cksum s
       | _ => mzf_hdr_cksum s
       end) /\
  mzf_stage (ticks 37 (mzf_process s)) =
  stage_succ (stage_succ (mzf_stage s)).
Proof.
  intros Hd Hn.
  assert (Hb : is_byte_stage (mzf_stage s) = true)
    by (destruct (mzf_stage s); try discriminate Hd; reflexivity).
  destruct (byte_stage_exit _ Hb Hn) as (_ & _ & E). rewrite E.
  match goal with
  | |- context [trace 37 ?t] =>
      assert (Ha : exists a, t = a /\
                mzf_stage a = stage_succ (mzf_stage s) /\
                mzf_src a = CHK /\ mzf_have_byte a = false /\
                mzf_half a = 0 /\ mzf_chk_byte_idx a = 0 /\
                chk_value a =
                match mzf_stage s with
                | FILE1 => mzf_file_cksum s
                | _ => mzf_hdr_cksum s
                end)
  end.
  { eexists. split; [reflexivity | ].
    destruct (mzf_stage s); try discriminate Hd; repeat split. }
  destruct Ha as (a & -> & Hsa & Hsrc & Hba & Hha & Hia & Hva).
  rewrite <- Hva, <- Hsa.
  apply chk_stage_run; try assumption.
  rewrite Hsa. destruct (mzf_stage s); try discriminate Hd; reflexivity.
Qed.

(** C2: [popcount8] is the population count; the checksum [mzf_init]
    computes is the sum of the population counts of the 128 header bytes
    modulo 65536, and it stays that through the session; a checksum stage,
    entered from the block it covers, sends the high byte of that block's
    checksum, then the low byte, then reports the stage exhausted. *)
Theorem mzf_checksum s0 s :
  header_ok s0 ->
  is_data_stage (mzf_stage s) = true ->
  mzf_stage (mzf_process s) <> mzf_stage s ->
  (forall b, popcount8 b = popcount_spec b) /\
  (forall n,
     mzf_hdr_cksum (ticks n (mzf_init s0)) =
     checksum_spec (firstn 128 (mzf_hdr (ticks n (mzf_init s0)))) /\
     firstn 128 (mzf_hdr (ticks n (mzf_init s0))) =
     firstn 128 (f_bytes (entry s0)) /\
     length (firstn 128 (f_bytes (entry s0))) = 128%nat) /\
  (let v :=
     match mzf_stage s with
     | FILE1 => mzf_file_cksum s
     | _ => mzf_hdr_cksum s
     end in
   trace 37 (mzf_process s) =
   map (pair (stage_succ (mzf_stage s)))
     (byte_wave (to_byte (Z.shiftr v 8)) ++
      byte_wave (to_byte (Z.land v 0xFF)) ++ [0]) /\
   mzf_stage (ticks 37 (mzf_process s)) =
   stage_succ (stage_succ (mzf_stage s))).
Proof.
  intros Hok Hd Hn. split; [exact popcount8_spec | split].
  - intros n. destruct (init_checksum _ Hok) as (H1 & H2 & H3).
    destruct (ticks_header n (mzf_init s0)) as (G1 & G2 & _).
    rewrite G1, G2, H1, H2. rewrite H2 in H3. repeat split. exact H3.
  - exact (chk_after_data s Hd Hn).
Qed.

(** The theorem on the playback of [example_image]; tick 46466 is the one
    that leaves HDR1. *)
Lemma mzf_checksum_witness :
  header_ok (power_on example_image) /\
  is_data_stage (mzf_stage (playing 46466 example_image)) = true /\
  mzf_stage (mzf_process (playing 46466 example_image)) <>
  mzf_stage (playing 46466 example_image) /\
  ((forall b, popcount8 b = popcount_spec b) /\
   (forall n,
      mzf_hdr_cksum (ticks n (mzf_init (power_on example_image))) =
      checksum_spec
        (firstn 128 (mzf_hdr (ticks n (mzf_init (power_on example_image))))) /\
      firstn 128 (mzf_hdr (ticks n (mzf_init (power_on example_image)))) =
      firstn 128 (f_bytes (entry (power_on example_image))) /\
      length (firstn 128 (f_bytes (entry (power_on example_image)))) =
      128%nat) /\
   (let v :=
      match mzf_stage (playing 46466 example_image) with
      | FILE1 => mzf_file_cksum (playing 46466 example_image)
      | _ => mzf_hdr_cksum (playing 46466 example_image)
      end in
    trace 37 (mzf_process (playing 46466 example_image)) =
    map (pair (stage_succ (mzf_stage (playing 46466 example_image))))
      (byte_wave (to_byte (Z.shiftr v 8)) ++
       byte_wave (to_byte (Z.land v 0xFF)) ++ [0]) /\
    mzf_stage (ticks 37 (mzf_process (playing 46466 example_image))) =
    stage_succ (stage_succ (mzf_stage (playing 46466 example_image))))).
Proof.
  assert (H0 : header_ok (power_on example_image)) by (split; reflexivity).
  assert (H1 : is_data_stage (mzf_stage (playing 46466 example_image)) = true)
    by (vm_compute; reflexivity).
  assert (H2 : mzf_stage (mzf_process (playing 46466 example_image)) <>
               mzf_stage (playing 46466 example_image))
    by (vm_compute; discriminate).
  exact (conj H0 (conj H1 (conj H2 (mzf_checksum _ _ H0 H1 H2)))).
Defined.

(** *** Sessions *)

(** Every state of a session satisfies the invariant. *)
Lemma session_inv s : session s -> inv s.
Proof.
  intros (s0 & n & Hok & ->). apply inv_ticks, inv_init, Hok.
Qed.

(** Leaving a byte stage changes neither [currentPeriod] nor the fact
    that no pulse is in progress. *)
Lemma stage_exit_period st s :
  currentPeriod (stage_exit st s) = currentPeriod s.
Proof. destruct st; reflexivity. Qed.

Lemma stage_exit_half st s :
  is_byte_stage st = true -> mzf_half (stage_exit st s) = 0.
Proof. destruct st; try discriminate; reflexivity. Qed.

(** The half-period a call or a tick stores is one of the five values of
    [mzf_periods], from any state. *)
Lemma process_bytes_period n s :
  In (currentPeriod (mzf_process_bytes n s)) mzf_periods.
Proof.
  destruct (mzf_have_byte s) eqn:Hb.
  - rewrite (process_bytes_have _ _ Hb). right. apply emit_bits_period.
  - destruct (mzf_load_next_byte s) as [[] s'] eqn:L.
    + rewrite (process_bytes_load_ok _ _ _ Hb L). right.
      apply emit_bits_period.
    + rewrite (process_bytes_load_fail _ _ _ Hb L). left. reflexivity.
Qed.

Lemma tick_period s : In (currentPeriod (mzf_process s)) mzf_periods.
Proof.
  destruct (is_pulse_stage (mzf_stage s)) eqn:Hp.
  - pose proof (pulse_stage_period _ Hp) as H.
    destruct (stage_long (mzf_stage s)); cbn in H |- *; intuition.
  - destruct (is_byte_stage (mzf_stage s)) eqn:Hb.
    + rewrite (tick_byte_stage _ Hb). cbv zeta.
      pose proof (process_bytes_period (bytes_arg (mzf_stage s)) s) as H.
      destruct (_ =? 0); [rewrite stage_exit_period | ]; exact H.
    + destruct (mzf_stage s) eqn:Hs; try discriminate.
      rewrite (tick_done _ Hs). left. reflexivity.
Qed.

(** *** A failed header read *)

(** After a failed [mzf_init] every tick is a tick of the terminal stage. *)
Lemma done_ticks n : forall s,
  mzf_stage s = DONE ->
  mzf_stage (ticks n s) = DONE /\
  currentPeriod (ticks (S n) s) = 0 /\
  currentID (ticks (S n) s) = IDEOF /\
  bytesRead (ticks n s) = bytesRead s.
Proof.
  induction n as [ | n IH]; intros s Hs.
  - cbn [ticks]. rewrite (tick_done _ Hs). repeat split. exact Hs.
  - assert (Hs' : mzf_stage (mzf_process s) = DONE)
      by (rewrite (tick_done _ Hs); exact Hs).
    destruct (IH _ Hs') as (H1 & H2 & H3 & H4).
    cbn [ticks] in *. repeat split; try assumption.
    rewrite H4, (tick_done _ Hs). reflexivity.
Qed.

(** An image shorter than a header cannot deliver 128 bytes. *)
Lemma short_read s :
  (length (f_bytes (entry s)) < 128)%nat -> fst (header_read s) <> 128.
Proof.
  unfold header_read, file_read. intros Hlen.
  destruct (f_io_ok (entry s)); cbn [fst]; [ | discriminate ].
  rewrite length_firstn. lia.
Qed.

(** C8: when the seek or the read of the 128 header bytes fails, a short
    read included, [mzf_init] leaves [currentID] at the end-of-file block
    with the stage at the terminal one and sets up nothing for playback;
    every later tick is the terminal case, and the file is not read
    again. *)
Theorem mzf_init_failure s0 :
  seekSet0 (entry s0) = false \/ fst (header_read s0) <> 128 ->
  currentID (mzf_init s0) = IDEOF /\
  mzf_stage (mzf_init s0) = DONE /\
  playback_untouched s0 (mzf_init s0) /\
  (forall n,
     mzf_stage (ticks n (mzf_init s0)) = DONE /\
     currentPeriod (ticks (S n) (mzf_init s0)) = 0 /\
     currentID (ticks (S n) (mzf_init s0)) = IDEOF /\
     bytesRead (ticks n (mzf_init s0)) = bytesRead s0).
Proof.
  intros H.
  assert (E : currentID (mzf_init s0) = IDEOF /\
              mzf_stage (mzf_init s0) = DONE /\
              playback_untouched s0 (mzf_init s0)).
  { destruct (seekSet0 (entry s0)) eqn:Hseek.
    - destruct H as [H | H]; [discriminate H | ].
      rewrite (init_read_fail _ Hseek H). unfold playback_untouched.
      repeat split.
    - rewrite (init_seek_fail _ Hseek). unfold playback_untouched.
      repeat split. }
  destruct E as (E1 & E2 & E3).
  split; [exact E1 | split; [exact E2 | split; [exact E3 | ]]].
  intros n. destruct (done_ticks n _ E2) as (H1 & H2 & H3 & H4).
  repeat split; try assumption.
  rewrite H4. apply E3.
Qed.

(** The theorem on [short_image], whose read delivers 100 bytes. *)
Lemma mzf_init_failure_witness :
  (seekSet0 (entry (power_on short_image)) = false \/
   fst (header_read (power_on short_image)) <> 128) /\
  (currentID (mzf_init (power_on short_image)) = IDEOF /\
   mzf_stage (mzf_init (power_on short_image)) = DONE /\
   playback_untouched (power_on short_image)
     (mzf_init (power_on short_image)) /\
   (forall n,
      mzf_stage (ticks n (mzf_init (power_on short_image))) = DONE /\
      currentPeriod (ticks (S n) (mzf_init (power_on short_image))) = 0 /\
      currentID (ticks (S n) (mzf_init (power_on short_image))) = IDEOF /\
      bytesRead (ticks n (mzf_init (power_on short_image))) =
      bytesRead (power_on short_image))).
Proof.
  assert (H0 : seekSet0 (entry (power_on short_image)) = false \/
               fst (header_read (power_on short_image)) <> 128)
    by (right; vm_compute; discriminate).
  exact (conj H0 (mzf_init_failure _ H0)).
Defined.

(** *** The hand-off globals during playback *)

(** Outside DONE a tick leaves [currentID], [currentTask] and the image
    alone. *)
Lemma emit_bits_ids s : same_ids s (mzf_emit_bits s).
Proof.
  destruct (mzf_leader_done s) eqn:Hl;
    destruct (Z.eq_dec (mzf_half s) 0) as [Hh | Hh].
  - rewrite (emit_bits_data_up _ Hl Hh). repeat split.
  - rewrite (emit_bits_data_down _ Hl Hh). cbv zeta.
    destruct (_ =? 0); repeat split.
  - rewrite (emit_bits_leader_up _ Hl Hh). repeat split.
  - rewrite (emit_bits_leader_down _ Hl Hh). repeat split.
Qed.

Lemma load_ids s : same_ids s (snd (mzf_load_next_byte s)).
Proof.
  unfold mzf_load_next_byte, ReadByte.
  destruct (mzf_src s).
  - destruct (128 <=? mzf_hdr_idx s); repeat split.
  - destruct (mzf_file_left s =? 0); [repeat split | ].
    destruct (byte_at (entry s) (bytesRead s)); repeat split.
  - destruct (2 <=? mzf_chk_byte_idx s); repeat split.
Qed.

Lemma process_bytes_ids n s : same_ids s (mzf_process_bytes n s).
Proof.
  destruct (mzf_have_byte s) eqn:Hb.
  - rewrite (process_bytes_have _ _ Hb). apply emit_bits_ids.
  - pose proof (load_ids s) as H.
    destruct (mzf_load_next_byte s) as [[] s'] eqn:L; cbn [snd] in H.
    + rewrite (process_bytes_load_ok _ _ _ Hb L).
      destruct (emit_bits_ids
                  (set_mzf_bit_mask 128 (set_mzf_leader_done false s')))
        as (H1 & H2 & H3).
      destruct H as (G1 & G2 & G3).
      unfold same_ids. rewrite H1, H2, H3. fields. auto.
    + rewrite (process_bytes_load_fail _ _ _ Hb L). exact H.
Qed.

Lemma tick_ids s : mzf_stage s <> DONE -> same_ids s (mzf_process s).
Proof.
  intros Hnd. destruct (is_pulse_stage (mzf_stage s)) eqn:Hp.
  - destruct (Z.eq_dec (mzf_half s) 0) as [Hh | Hh].
    + rewrite (tick_pulse_up _ Hp Hh). repeat split.
    + rewrite (tick_pulse_down _ Hp Hh).
      destruct (mzf_stage s); try discriminate Hp;
        unfold pulse_done; cbv zeta; fields;
        try (destruct (_ =? 0)); repeat split.
  - destruct (is_byte_stage (mzf_stage s)) eqn:Hb.
    + rewrite (tick_byte_stage _ Hb). cbv zeta.
      pose proof (process_bytes_ids (bytes_arg (mzf_stage s)) s) as H.
      destruct (_ =? 0); [ | exact H ].
      destruct H as (H1 & H2 & H3).
      destruct (mzf_stage s); try discriminate Hb; unfold same_ids;
        unfold stage_exit, mzf_next_stage, mzf_reset_byte_writer_for_src;
        fields; auto.
    + destruct (mzf_stage s) eqn:Hs; try discriminate. contradiction.
Qed.

(** Until the terminal stage runs, the block id stays the one [mzf_init] set. *)
Lemma session_id s :
  session s -> mzf_stage s <> DONE -> currentID s = ID_MZF.
Proof.
  intros (s0 & n & Hok & ->). revert Hok.
  induction n as [ | n IH]; intros Hok Hnd.
  - cbn [ticks]. rewrite (init_ok _ Hok). reflexivity.
  - replace (S n) with (n + 1)%nat in * by lia.
    rewrite ticks_add in *. cbn [ticks] in *.
    assert (Hn : mzf_stage (ticks n (mzf_init s0)) <> DONE).
    { intros E. apply Hnd. rewrite (tick_done _ E). exact E. }
    destruct (tick_ids _ Hn) as (H1 & _). rewrite H1. apply IH; assumption.
Qed.

(** C9: when [ReadByte] fails although the header declared more body bytes,
    the tick of the file stage emits the zero period and enters the file
    checksum stage exactly as it does when the declared length is used up
    (only the leftover counter differs); the session goes on as an MZF
    session, sends the checksum of the bytes streamed so far and reaches the
    terminal stage from there. *)
Theorem mzf_body_exhausted s :
  session s -> mzf_stage s = FILE1 -> mzf_have_byte s = false ->
  mzf_file_left s <> 0 -> byte_at (entry s) (bytesRead s) = None ->
  currentPeriod (mzf_process s) = 0 /\
  mzf_stage (mzf_process s) = CHKF1 /\
  currentID (mzf_process s) = ID_MZF /\
  mzf_process s =
  set_mzf_file_left (mzf_file_left s)
    (mzf_process (set_mzf_file_left 0 s)) /\
  trace 37 (mzf_process s) =
  map (pair CHKF1) (chk_wave (mzf_file_cksum s)) /\
  mzf_stage (ticks 37 (mzf_process s)) = DONE.
Proof.
  intros Hses Hs Hb Hl Hrd.
  destruct (session_inv _ Hses) as [_ Hi]. unfold stage_inv in Hi.
  rewrite Hs in Hi. destruct Hi as (Hsrc & _ & _).
  assert (Hbs : is_byte_stage (mzf_stage s) = true)
    by (rewrite Hs; reflexivity).
  assert (E : mzf_process s = stage_exit FILE1 (set_currentPeriod 0 s)).
  { rewrite (tick_load_fail s _ Hbs Hb (load_file_fail _ Hsrc Hl Hrd)).
    rewrite Hs. reflexivity. }
  assert (E0 : mzf_process (set_mzf_file_left 0 s) =
               stage_exit FILE1 (set_currentPeriod 0 (set_mzf_file_left 0 s))).
  { rewrite (tick_load_fail (set_mzf_file_left 0 s) (set_mzf_file_left 0 s));
      fields; try assumption; try (rewrite Hs; reflexivity).
    apply load_file_empty; fields; [exact Hsrc | reflexivity]. }
  assert (Hn : mzf_stage (mzf_process s) <> mzf_stage s)
    by (rewrite E, Hs; discriminate).
  destruct (chk_after_data s ltac:(rewrite Hs; reflexivity) Hn) as [T S1].
  rewrite Hs in T, S1.
  split; [rewrite E; reflexivity | ].
  split; [rewrite E; reflexivity | ].
  split.
  { rewrite E. unfold stage_exit, mzf_next_stage,
      mzf_reset_byte_writer_for_src. fields.
    apply session_id; [exact Hses | rewrite Hs; discriminate]. }
  split; [ | split; [exact T | exact S1] ].
  rewrite E, E0. destruct s; reflexivity.
Qed.

(** The theorem on [truncated_image]: at tick 70946 the one body byte has
    been sent and two more are declared. *)
Lemma mzf_body_exhausted_witness :
  session (playing 70946 truncated_image) /\
  mzf_stage (playing 70946 truncated_image) = FILE1 /\
  mzf_have_byte (playing 70946 truncated_image) = false /\
  mzf_file_left (playing 70946 truncated_image) <> 0 /\
  byte_at (entry (playing 70946 truncated_image))
    (bytesRead (playing 70946 truncated_image)) = None /\
  (currentPeriod (mzf_process (playing 70946 truncated_image)) = 0 /\
   mzf_stage (mzf_process (playing 70946 truncated_image)) = CHKF1 /\
   currentID (mzf_process (playing 70946 truncated_image)) = ID_MZF /\
   mzf_process (playing 70946 truncated_image) =
   set_mzf_file_left (mzf_file_left (playing 70946 truncated_image))
     (mzf_process (set_mzf_file_left 0 (playing 70946 truncated_image))) /\
   trace 37 (mzf_process (playing 70946 truncated_image)) =
   map (pair CHKF1)
     (chk_wave (mzf_file_cksum (playing 70946 truncated_image))) /\
   mzf_stage (ticks 37 (mzf_process (playing 70946 truncated_image))) = DONE).
Proof.
  assert (H0 : session (playing 70946 truncated_image))
    by (exists (power_on truncated_image), (Z.to_nat 70946);
        split; [split; reflexivity | reflexivity]).
  assert (H1 : mzf_stage (playing 70946 truncated_image) = FILE1)
    by (vm_compute; reflexivity).
  assert (H2 : mzf_have_byte (playing 70946 truncated_image) = false)
    by (vm_compute; reflexivity).
  assert (H3 : mzf_file_left (playing 70946 truncated_image) <> 0)
    by (vm_compute; discriminate).
  assert (H4 : byte_at (entry (playing 70946 truncated_image))
                 (bytesRead (playing 70946 truncated_image)) = None)
    by (vm_compute; reflexivity).
  exact (conj H0 (conj H1 (conj H2 (conj H3 (conj H4
           (mzf_body_exhausted _ H0 H1 H2 H3 H4)))))).
Defined.

(** *** Pulses and stage boundaries *)

(** [mzf_init] leaves [mzf_half] at 0 whatever the outcome. *)
Lemma init_half s0 : mzf_half (mzf_init s0) = 0.
Proof.
  destruct (seekSet0 (entry s0)) eqn:Hseek.
  - destruct (Z.eq_dec (fst (header_read s0)) 128) as [Hr | Hr].
    + rewrite (init_ok s0 (conj Hseek Hr)). reflexivity.
    + rewrite (init_read_fail _ Hseek Hr). reflexivity.
  - rewrite (init_seek_fail _ Hseek). reflexivity.
Qed.

(** A tick that starts on the up half emits an up half or nothing. *)
Lemma tick_from_up s :
  mzf_half s = 0 ->
  In (currentPeriod (mzf_process s)) [0; MZF_LONG_UP_US; MZF_SHORT_UP_US].
Proof.
  intros Hh. destruct (is_pulse_stage (mzf_stage s)) eqn:Hp.
  - rewrite (tick_pulse_up _ Hp Hh). fields.
    destruct (stage_long (mzf_stage s)); cbn; auto.
  - destruct (is_byte_stage (mzf_stage s)) eqn:Hb.
    + destruct (mzf_have_byte s) eqn:Hhb.
      * rewrite (tick_emit _ Hb Hhb).
        destruct (mzf_leader_done s) eqn:Hl.
        -- rewrite (emit_bits_data_up _ Hl Hh). fields.
           destruct (cur_bit s); cbn; auto.
        -- rewrite (emit_bits_leader_up _ Hl Hh). cbn; auto.
      * destruct (mzf_load_next_byte s) as [[] s'] eqn:L.
        -- destruct (load_ok_frame _ _ L) as (_ & Hh' & _).
           rewrite (tick_first_half _ _ Hb Hhb L ltac:(congruence)).
           cbn; auto.
        -- rewrite (tick_load_fail _ _ Hb Hhb L), stage_exit_period.
           left. reflexivity.
    + destruct (mzf_stage s) eqn:Hs; try discriminate.
      rewrite (tick_done _ Hs). left. reflexivity.
Qed.

(** A tick that changes the stage ends a pulse or emits nothing, and leaves
    the half flag at the up half. *)
Lemma stage_change s :
  mzf_stage (mzf_process s) <> mzf_stage s ->
  mzf_half (mzf_process s) = 0 /\
  (In (currentPeriod (mzf_process s)) [MZF_LONG_DOWN_US; MZF_SHORT_DOWN_US]
   \/ currentPeriod (mzf_process s) = 0 /\ mzf_have_byte s = false /\
      is_byte_stage (mzf_stage s) = true).
Proof.
  intros Hn. destruct (is_pulse_stage (mzf_stage s)) eqn:Hp.
  - destruct (Z.eq_dec (mzf_half s) 0) as [Hh | Hh].
    + exfalso. apply Hn. rewrite (tick_pulse_up _ Hp Hh). reflexivity.
    + rewrite (tick_pulse_down _ Hp Hh) in *.
      rewrite pulse_done_period. fields. split.
      * destruct (mzf_stage s) eqn:Hs; try discriminate Hp;
          unfold pulse_done in *; cbv zeta in *; fields_in Hn; fields;
          try reflexivity;
          (destruct (_ =? 0); [reflexivity | exfalso; apply Hn; exact Hs]).
      * left. destruct (stage_long (mzf_stage s)); cbn; auto.
  - destruct (is_byte_stage (mzf_stage s)) eqn:Hb.
    + destruct (byte_stage_exit _ Hb Hn) as (Hhb & _ & E). rewrite E.
      rewrite stage_exit_period, (stage_exit_half _ _ Hb).
      split; [reflexivity | right; repeat split; assumption].
    + exfalso. apply Hn. destruct (mzf_stage s) eqn:Hs; try discriminate.
      rewrite (tick_done _ Hs). exact Hs.
Qed.

(** C10: [mzf_half] is 0 whenever a stage is entered: [mzf_init] leaves it
    0, and the tick that changes the stage either completes a pulse (it
    emits a down half) or emits the zero period with no pulse in progress,
    and leaves [mzf_half] at 0; so the next tick, the first of the new
    stage, emits an up half (or the zero period). *)
Theorem mzf_half_at_stage_entry s0 s :
  session s -> mzf_stage (mzf_process s) <> mzf_stage s ->
  mzf_half (mzf_init s0) = 0 /\
  mzf_half (mzf_process s) = 0 /\
  (In (currentPeriod (mzf_process s)) [MZF_LONG_DOWN_US; MZF_SHORT_DOWN_US]
   \/ currentPeriod (mzf_process s) = 0 /\ mzf_half s = 0) /\
  In (currentPeriod (mzf_process (mzf_process s)))
     [0; MZF_LONG_UP_US; MZF_SHORT_UP_US].
Proof.
  intros Hses Hn. destruct (stage_change s Hn) as (Hh & Hp).
  split; [apply init_half | split; [exact Hh | split] ].
  - destruct Hp as [Hp | (Hz & Hb & Hbs)]; [left; exact Hp | right].
    split; [exact Hz | ].
    destruct (session_inv _ Hses) as [_ Hi]. unfold stage_inv, writer_ok in Hi.
    rewrite Hb in Hi.
    destruct (mzf_stage s); try discriminate Hbs; try contradiction;
      apply Hi.
  - apply tick_from_up, Hh.
Qed.

(** The theorem on the playback of [example_image]; tick 43999 is the one
    that leaves LGAP1. *)
Lemma mzf_half_at_stage_entry_witness :
  session (playing 43999 example_image) /\
  mzf_stage (mzf_process (playing 43999 example_image)) <>
  mzf_stage (playing 43999 example_image) /\
  (mzf_half (mzf_init (power_on example_image)) = 0 /\
   mzf_half (mzf_process (playing 43999 example_image)) = 0 /\
   (In (currentPeriod (mzf_process (playing 43999 example_image)))
      [MZF_LONG_DOWN_US; MZF_SHORT_DOWN_US] \/
    currentPeriod (mzf_process (playing 43999 example_image)) = 0 /\
    mzf_half (playing 43999 example_image) = 0) /\
   In (currentPeriod
         (mzf_process (mzf_process (playing 43999 example_image))))
      [0; MZF_LONG_UP_US; MZF_SHORT_UP_US]).
Proof.
  assert (H0 : session (playing 43999 example_image))
    by (exists (power_on example_image), (Z.to_nat 43999);
        split; [split; reflexivity | reflexivity]).
  assert (H1 : mzf_stage (mzf_process (playing 43999 example_image)) <>
               mzf_stage (playing 43999 example_image))
    by (vm_compute; discriminate).
  exact (conj H0 (conj H1 (mzf_half_at_stage_entry (power_on example_image)
                             _ H0 H1))).
Defined.

(** *** Stage entry *)

(** A tick that changes the stage leaves the new stage freshly entered. *)
Lemma entered_by_tick s :
  mzf_stage (mzf_process s) <> mzf_stage s -> stage_entered (mzf_process s).
Proof.
  intros Hn. destruct (is_pulse_stage (mzf_stage s)) eqn:Hp.
  - destruct (Z.eq_dec (mzf_half s) 0) as [Hh | Hh].
    + exfalso. apply Hn. rewrite (tick_pulse_up _ Hp Hh). reflexivity.
    + rewrite (tick_pulse_down _ Hp Hh) in *.
      destruct (mzf_stage s) eqn:Hs; try discriminate Hp;
        unfold pulse_done in *; cbv zeta in *; fields_in Hn; fields;
        try (destruct (_ =? 0); [ | exfalso; apply Hn; exact Hs ]);
        unfold stage_entered, mzf_next_stage, mzf_reset_byte_writer_for_src;
        fields; repeat split.
  - destruct (is_byte_stage (mzf_stage s)) eqn:Hb.
    + destruct (byte_stage_exit _ Hb Hn) as (Hhb & _ & E). rewrite E.
      destruct (mzf_stage s) eqn:Hs; try discriminate Hb;
        unfold stage_exit, stage_entered, mzf_next_stage,
          mzf_reset_byte_writer_for_src; fields; repeat split.
    + exfalso. apply Hn. destruct (mzf_stage s) eqn:Hs; try discriminate.
      rewrite (tick_done _ Hs). exact Hs.
Qed.

(** X5: whenever a tick changes the stage, the new stage starts from
    scratch, from any state at all: no pulse and no byte in progress, leader
    flag cleared, bit mask 0x80, checksum byte index 0, and the counter or
    byte source of the stage as just set (22000 or 11000 gap pulses, 40 or
    20 tapemark pulses, header index 0 with source HDR, source CHK, or
    source FILE with the declared length left, read position 128 and file
    checksum 0).  No tick ever enters FILE2. *)
Theorem mzf_stage_entry_fresh s :
  mzf_stage (mzf_process s) <> mzf_stage s ->
  stage_entered (mzf_process s) /\ mzf_stage (mzf_process s) <> FILE2.
Proof.
  intros Hn. pose proof (entered_by_tick _ Hn) as H. split; [exact H | ].
  intros E. unfold stage_entered in H. rewrite E in H. tauto.
Qed.

(** The theorem on the tick that leaves STM_ENDLONG for the file stage. *)
Lemma mzf_stage_entry_fresh_witness :
  mzf_stage (mzf_process (playing 70927 example_image)) <>
  mzf_stage (playing 70927 example_image) /\
  (stage_entered (mzf_process (playing 70927 example_image)) /\
   mzf_stage (mzf_process (playing 70927 example_image)) <> FILE2).
Proof.
  assert (H0 : mzf_stage (mzf_process (playing 70927 example_image)) <>
               mzf_stage (playing 70927 example_image))
    by (vm_compute; discriminate).
  exact (conj H0 (mzf_stage_entry_fresh _ H0)).
Defined.

(** *** Segments of a playback *)

(** A trace of [n] ticks has [n] entries. *)
Lemma trace_length n : forall s, length (trace n s) = n.
Proof.
  induction n as [ | n IH]; intros s; cbn [trace length];
    [reflexivity | rewrite IH; reflexivity].
Qed.

Lemma plays_intro n s w t : trace n s = w -> ticks n s = t -> plays s w t.
Proof.
  intros T S. assert (L : length w = n) by (rewrite <- T; apply trace_length).
  unfold plays. rewrite L. split; assumption.
Qed.

Lemma plays_nil s : plays s [] s.
Proof. split; reflexivity. Qed.

(** Segments compose. *)
Lemma plays_app s w1 t w2 u :
  plays s w1 t -> plays t w2 u -> plays s (w1 ++ w2) u.
Proof.
  intros [T1 S1] [T2 S2]. unfold plays.
  rewrite length_app, trace_app, ticks_add, T1, S1, T2, S2.
  split; reflexivity.
Qed.

(** One more tick at the end of a run. *)
Lemma ticks_S_r n : forall s, ticks (S n) s = mzf_process (ticks n s).
Proof.
  induction n as [ | n IH]; intros s; [reflexivity | ].
  change (ticks (S (S n)) s) with (ticks (S n) (mzf_process s)).
  rewrite IH. reflexivity.
Qed.

(** A segment that ends with a tick of another stage than the one it
    leaves has just entered that stage. *)
Lemma plays_last s w st p t :
  plays s (w ++ [(st, p)]) t -> mzf_stage t <> st -> stage_entered t.
Proof.
  intros [T S] Hn. rewrite length_app in T, S. cbn [length] in T, S.
  rewrite trace_app in T. rewrite Nat.add_1_r in S. rewrite ticks_S_r in S.
  cbn [trace] in T.
  apply app_inj_tail in T. destruct T as [_ T]. injection T as Hst _.
  subst t. apply entered_by_tick. rewrite Hst. exact Hn.
Qed.

(** No tick touches the image. *)
Lemma tick_entry s : entry (mzf_process s) = entry s.
Proof.
  destruct (mzf_stage s) eqn:Hs;
    try (apply tick_ids; rewrite Hs; discriminate).
  rewrite (tick_done _ Hs). reflexivity.
Qed.

Lemma ticks_entry n : forall s, entry (ticks n s) = entry s.
Proof.
  induction n as [ | n IH]; intros s; [reflexivity | ].
  cbn [ticks]. rewrite IH. apply tick_entry.
Qed.

(** A segment leaves the header buffer, its checksum, the declared length
    and the image alone. *)
Lemma plays_frame s w t :
  plays s w t -> same_header s t /\ entry t = entry s.
Proof.
  intros [_ S]. subst t. split; [apply ticks_header | apply ticks_entry].
Qed.

(** *** The stages, one by one *)

Lemma tapemark_last l s e n :
  tapemark l s e n =
  (pulse_train l true n ++ pulse_train s false n ++ [(e, up_us true)]) ++
  [(e, down_us true)].
Proof.
  unfold tapemark. cbn [pulse_train]. rewrite <- !app_assoc. reflexivity.
Qed.

(** A gap stage, entered with [S n] pulses to go, and the tapemark after it:
    the gap pulses, the tapemark, and the stage after the tapemark freshly
    entered. *)
Lemma lead_in_run st n m s :
  (st = LGAP1 /\ m = 39%nat \/ st = SGAP /\ m = 19%nat) ->
  mzf_stage s = st -> mzf_half s = 0 ->
  mzf_pulses_left s = Z.of_nat (S n) -> Z.of_nat (S n) < 4294967296 ->
  exists t,
    plays s
      (pulse_train st false (S n) ++
       tapemark (stage_succ st) (stage_succ (stage_succ st))
         (stage_succ (stage_succ (stage_succ st))) (S m)) t /\
    mzf_stage t = stage_succ (stage_succ (stage_succ (stage_succ st))) /\
    stage_entered t.
Proof.
  intros Hst Hs Hh Hn Hlt.
  destruct (gap_run n s) as [T1 S1]; try assumption;
    [destruct Hst as [[-> _] | [-> _]]; rewrite Hs; reflexivity | ].
  rewrite Hs in T1, S1.
  assert (Hb : exists b, ticks (2 * S n) s = b /\
                 mzf_stage b = stage_succ st /\ mzf_half b = 0 /\
                 mzf_tm_left b = Z.of_nat (S m)).
  { rewrite S1.
    match goal with
    | |- context [pulse_done st ?a] =>
        destruct (gap_last a eq_refl) as [E1 E2]
    end.
    destruct Hst as [[-> ->] | [-> ->]]; [rewrite E1 | rewrite E2];
      eexists; (split; [reflexivity | ]); unfold mzf_next_stage; fields;
      repeat split. }
  destruct Hb as (b & Sb & Hsb & Hhb & Hnb). clear S1.
  destruct (tapemark_run (stage_succ st) m b) as (T2 & S2 & _);
    try assumption.
  { destruct Hst as [[-> _] | [-> _]]; [left | right]; reflexivity. }
  { destruct Hst as [[_ ->] | [_ ->]]; lia. }
  { destruct Hst as [[-> ->] | [-> ->]]; intros; [reflexivity | discriminate]. }
  { destruct Hst as [[-> ->] | [-> ->]]; intros; [discriminate | reflexivity]. }
  assert (P : plays s
      (pulse_train st false (S n) ++
       tapemark (stage_succ st) (stage_succ (stage_succ st))
         (stage_succ (stage_succ (stage_succ st))) (S m))
      (ticks (2 * S m + (2 * S m + 2)) b)).
  { apply plays_app with (t := b); eapply plays_intro; eauto. }
  eexists. split; [exact P | ]. split; [exact S2 | ].
  rewrite tapemark_last, app_assoc in P.
  apply (plays_last _ _ _ _ _ P). rewrite S2.
  destruct Hst as [[-> _] | [-> _]]; discriminate.
Qed.

(** [k] header bytes from the current index on. *)
Lemma hdr_run k : forall s,
  mzf_stage s = HDR1 \/ mzf_stage s = HDR2 ->
  mzf_src s = HDR -> mzf_have_byte s = false -> mzf_half s = 0 ->
  0 <= mzf_hdr_idx s -> mzf_hdr_idx s + Z.of_nat k <= 128 ->
  exists t,
    plays s
      (map (pair (mzf_stage s))
         (bytes_wave (hdr_bytes (mzf_hdr s) (mzf_hdr_idx s) k))) t /\
    mzf_stage t = mzf_stage s /\ mzf_src t = HDR /\
    mzf_have_byte t = false /\ mzf_half t = 0 /\
    mzf_hdr_idx t = mzf_hdr_idx s + Z.of_nat k.
Proof.
  induction k as [ | k IH]; intros s Hst Hsrc Hb Hh H0 Hk.
  - exists s. split; [apply plays_nil | ]. repeat split; try assumption. lia.
  - assert (Hbs : is_byte_stage (mzf_stage s) = true)
      by (destruct Hst as [-> | ->]; reflexivity).
    pose proof (load_hdr_ok s Hsrc ltac:(lia)) as L.
    destruct (byte_ticks _ _ Hbs Hb Hh L) as [T1 S1].
    fields_in T1.
    assert (Hx : exists b, ticks 18 s = b /\ mzf_stage b = mzf_stage s /\
                   mzf_src b = HDR /\ mzf_have_byte b = false /\
                   mzf_half b = 0 /\ mzf_hdr_idx b = mzf_hdr_idx s + 1 /\
                   mzf_hdr b = mzf_hdr s).
    { rewrite S1. eexists. split; [reflexivity | ]. unfold byte_sent. fields.
      repeat split; try assumption. unfold u16. lia. }
    destruct Hx as (b & Sb & Hsb & Hsrcb & Hbb & Hhb & Hib & Hhdr). clear S1.
    destruct (IH b) as (t & P & Ht1 & Ht2 & Ht3 & Ht4 & Ht5);
      try assumption; try lia; [rewrite Hsb; exact Hst | ].
    exists t. split.
    + cbn [hdr_bytes]. unfold bytes_wave. cbn [flat_map].
      rewrite map_app. apply plays_app with (t := b).
      * eapply plays_intro; eassumption.
      * rewrite Hsb, Hhdr, Hib in P. exact P.
    + rewrite Ht1, Ht5, Hsb, Hib. repeat split; try assumption. lia.
Qed.

(** The tick that finds nothing to load: period zero, and the next stage. *)
Lemma exit_tick s :
  is_byte_stage (mzf_stage s) = true -> mzf_have_byte s = false ->
  mzf_load_next_byte s = (false, s) ->
  plays s [(mzf_stage s, 0)] (mzf_process s) /\
  mzf_stage (mzf_process s) = stage_succ (mzf_stage s) /\
  mzf_process s = stage_exit (mzf_stage s) (set_currentPeriod 0 s).
Proof.
  intros Hb Hh L. pose proof (tick_load_fail _ _ Hb Hh L) as E.
  split; [ | split; [ | exact E]].
  - apply (plays_intro 1); [ | reflexivity]. cbn [trace].
    rewrite E, stage_exit_period. reflexivity.
  - rewrite E. destruct (mzf_stage s); try discriminate Hb; reflexivity.
Qed.

Lemma map_pair_snoc (st : MZF_STAGE) (w : list Z) :
  map (pair st) (w ++ [0]) = map (pair st) w ++ [(st, 0)].
Proof. rewrite map_app. reflexivity. Qed.

(** A header stage, freshly entered: the 128 bytes of the buffer in order,
    the zero period, and the checksum stage freshly entered. *)
Lemma header_segment s :
  mzf_stage s = HDR1 \/ mzf_stage s = HDR2 -> stage_entered s ->
  exists t,
    plays s
      (map (pair (mzf_stage s))
         (bytes_wave (hdr_bytes (mzf_hdr s) 0 128) ++ [0])) t /\
    mzf_stage t = stage_succ (mzf_stage s) /\ stage_entered t.
Proof.
  intros Hst (Hh & Hb & _ & _ & _ & He).
  assert (Hsrc : mzf_src s = HDR /\ mzf_hdr_idx s = 0)
    by (destruct Hst as [E | E]; rewrite E in He; exact He).
  destruct Hsrc as [Hsrc Hi].
  destruct (hdr_run 128 s) as (b & P & Hsb & Hsrcb & Hbb & Hhb & Hib);
    try assumption; try lia.
  rewrite Hi in P.
  assert (Hbs : is_byte_stage (mzf_stage b) = true)
    by (rewrite Hsb; destruct Hst as [-> | ->]; reflexivity).
  destruct (exit_tick b Hbs Hbb) as (P2 & S2 & _);
    [apply load_hdr_end; [assumption | lia] | ].
  rewrite Hsb in P2, S2.
  assert (P3 : plays s
      (map (pair (mzf_stage s))
         (bytes_wave (hdr_bytes (mzf_hdr s) 0 128) ++ [0]))
      (mzf_process b)).
  { rewrite map_pair_snoc. apply plays_app with (t := b); assumption. }
  exists (mzf_process b). split; [exact P3 | ]. split; [exact S2 | ].
  rewrite map_pair_snoc in P3. apply (plays_last _ _ _ _ _ P3).
  rewrite S2. destruct Hst as [-> | ->]; discriminate.
Qed.

(** The bytes [bs] of the image from the read position on, when at least
    that many are still to be sent. *)
Lemma file_run bs : forall s pre post,
  mzf_stage s = FILE1 -> mzf_src s = FILE ->
  mzf_have_byte s = false -> mzf_half s = 0 ->
  f_io_ok (entry s) = true ->
  f_bytes (entry s) = pre ++ bs ++ post ->
  bytesRead s = Z.of_nat (length pre) ->
  Z.of_nat (length bs) <= mzf_file_left s <= 65535 ->
  exists t,
    plays s (map (pair FILE1) (bytes_wave bs)) t /\
    mzf_stage t = FILE1 /\ mzf_src t = FILE /\
    mzf_have_byte t = false /\ mzf_half t = 0 /\
    bytesRead t = bytesRead s + Z.of_nat (length bs) /\
    mzf_file_left t = mzf_file_left s - Z.of_nat (length bs) /\
    mzf_file_cksum t = fold_left mzf_cksum_add bs (mzf_file_cksum s).
Proof.
  induction bs as [ | x bs IH]; intros s pre post Hst Hsrc Hb Hh Hio Hf Hr Hl.
  - exists s. split; [apply plays_nil | ].
    cbn [length fold_left]. repeat split; try assumption; lia.
  - cbn [length] in Hl.
    assert (Hbs : is_byte_stage (mzf_stage s) = true)
      by (rewrite Hst; reflexivity).
    assert (Hat : byte_at (entry s) (bytesRead s) = Some x).
    { unfold byte_at. rewrite Hio, Hr, Hf, Nat2Z.id.
      replace (0 <=? Z.of_nat (length pre)) with true by lia.
      cbn [andb]. rewrite nth_error_app2 by lia.
      rewrite Nat.sub_diag. reflexivity. }
    pose proof (load_file_ok s x Hsrc ltac:(lia) Hat) as L.
    destruct (byte_ticks _ _ Hbs Hb Hh L) as [T1 S1].
    fields_in T1.
    assert (Hx : exists b, ticks 18 s = b /\ mzf_stage b = FILE1 /\
                   mzf_src b = FILE /\ mzf_have_byte b = false /\
                   mzf_half b = 0 /\ entry b = entry s /\
                   bytesRead b = bytesRead s + 1 /\
                   mzf_file_left b = mzf_file_left s - 1 /\
                   mzf_file_cksum b = mzf_cksum_add (mzf_file_cksum s) x).
    { rewrite S1. eexists. split; [reflexivity | ]. unfold byte_sent. fields.
      repeat split; try assumption. unfold u16. lia. }
    destruct Hx as (b & Sb & Hsb & Hsrcb & Hbb & Hhb & Heb & Hrb & Hlb & Hcb).
    clear S1.
    destruct (IH b (pre ++ [x]) post)
      as (t & P & Ht1 & Ht2 & Ht3 & Ht4 & Ht5 & Ht6 & Ht7);
      try assumption; try lia.
    { rewrite Heb. exact Hio. }
    { rewrite Heb, Hf, <- app_assoc. reflexivity. }
    { rewrite Hrb, Hr, length_app. cbn [length]. lia. }
    exists t. split.
    + unfold bytes_wave. cbn [flat_map]. rewrite map_app.
      apply plays_app with (t := b); [ | exact P].
      eapply plays_intro; [ | exact Sb]. rewrite T1, Hst. reflexivity.
    + rewrite Ht5, Ht6, Ht7, Hrb, Hlb, Hcb. cbn [length fold_left].
      repeat split; try assumption; lia.
Qed.

(** The running checksum from 0 is the checksum the spec words. *)
Lemma checksum_fold bs : fold_left mzf_cksum_add bs 0 = checksum_spec bs.
Proof. rewrite fold_cksum by lia. reflexivity. Qed.

(** The file stage, freshly entered on an image that answers reads: the
    declared number of body bytes, or as many as the image holds after the
    header, then the zero period; the checksum stage is entered with the
    checksum of the bytes sent. *)
Lemma file_segment s :
  mzf_stage s = FILE1 -> stage_entered s ->
  f_io_ok (entry s) = true ->
  (128 <= length (f_bytes (entry s)))%nat ->
  0 <= mzf_file_len s <= 65535 ->
  exists t,
    plays s
      (map (pair FILE1)
         (bytes_wave
            (firstn (Z.to_nat (mzf_file_len s))
               (skipn 128 (f_bytes (entry s)))) ++ [0])) t /\
    mzf_stage t = CHKF1 /\ stage_entered t /\
    mzf_file_cksum t =
    checksum_spec
      (firstn (Z.to_nat (mzf_file_len s)) (skipn 128 (f_bytes (entry s)))) /\
    bytesRead t =
    128 + Z.of_nat
            (length (firstn (Z.to_nat (mzf_file_len s))
                       (skipn 128 (f_bytes (entry s))))).
Proof.
  intros Hst (Hh & Hb & _ & _ & _ & He) Hio Hlen Hfl.
  rewrite Hst in He. destruct He as (Hsrc & Hleft & Hr & Hck).
  set (body := firstn (Z.to_nat (mzf_file_len s))
                 (skipn 128 (f_bytes (entry s)))).
  assert (Hbl : (length body <= Z.to_nat (mzf_file_len s))%nat)
    by apply firstn_le_length.
  assert (Hdec : f_bytes (entry s) =
                 firstn 128 (f_bytes (entry s)) ++ body ++
                 skipn (Z.to_nat (mzf_file_len s))
                   (skipn 128 (f_bytes (entry s)))).
  { unfold body. rewrite !firstn_skipn. reflexivity. }
  assert (Hpre : length (firstn 128 (f_bytes (entry s))) = 128%nat)
    by (apply firstn_length_le; exact Hlen).
  destruct (file_run body s _ _ Hst Hsrc Hb Hh Hio Hdec)
    as (b & P & Hsb & Hsrcb & Hbb & Hhb & Hrb & Hlb & Hcb);
    [rewrite Hpre; exact Hr | lia | ].
  destruct (plays_frame _ _ _ P) as [_ Heb].
  assert (Hbs : is_byte_stage (mzf_stage b) = true)
    by (rewrite Hsb; reflexivity).
  assert (L : mzf_load_next_byte b = (false, b)).
  { destruct (Z.eq_dec (mzf_file_left b) 0) as [Hz | Hz];
      [apply load_file_empty; assumption | ].
    apply load_file_fail; try assumption.
    unfold byte_at. rewrite Heb, Hio.
    replace (0 <=? bytesRead b) with true by lia. cbn [andb].
    apply nth_error_None.
    assert (Hshort : (length body < Z.to_nat (mzf_file_len s))%nat) by lia.
    unfold body in Hshort. rewrite length_firstn in Hshort.
    rewrite length_skipn in Hshort.
    unfold body in Hrb. rewrite length_firstn, length_skipn in Hrb.
    lia. }
  destruct (exit_tick b Hbs Hbb L) as (P2 & S2 & E).
  rewrite Hsb in P2, S2, E.
  assert (P3 : plays s (map (pair FILE1) (bytes_wave body ++ [0]))
                 (mzf_process b)).
  { rewrite map_pair_snoc. apply plays_app with (t := b); assumption. }
  exists (mzf_process b). split; [exact P3 | ]. split; [exact S2 | ].
  split; [ | split].
  - rewrite map_pair_snoc in P3. apply (plays_last _ _ _ _ _ P3).
    rewrite S2. discriminate.
  - rewrite E. unfold stage_exit, mzf_next_stage,
      mzf_reset_byte_writer_for_src. fields.
    rewrite Hcb, Hck. apply checksum_fold.
  - rewrite E. unfold stage_exit, mzf_next_stage,
      mzf_reset_byte_writer_for_src. fields.
    rewrite Hrb, Hr. reflexivity.
Qed.

Lemma chk_wave_last v :
  chk_wave v =
  (byte_wave (to_byte (Z.shiftr v 8)) ++ byte_wave (to_byte (Z.land v 0xFF)))
  ++ [0].
Proof. unfold chk_wave. rewrite app_assoc. reflexivity. Qed.

(** A checksum stage, freshly entered: the two checksum bytes, the zero
    period, and the next stage freshly entered. *)
Lemma chk_segment s :
  is_chk_stage (mzf_stage s) = true -> stage_entered s ->
  exists t,
    plays s (map (pair (mzf_stage s)) (chk_wave (chk_value s))) t /\
    mzf_stage t = stage_succ (mzf_stage s) /\ stage_entered t.
Proof.
  intros Hc (Hh & Hb & _ & _ & Hi & He).
  assert (Hsrc : mzf_src s = CHK)
    by (destruct (mzf_stage s); try discriminate Hc; exact He).
  destruct (chk_stage_run s Hc Hsrc Hb Hh Hi) as [T S].
  assert (P : plays s (map (pair (mzf_stage s)) (chk_wave (chk_value s)))
                (ticks 37 s)) by (eapply plays_intro; eauto).
  eexists. split; [exact P | ]. split; [exact S | ].
  rewrite chk_wave_last, map_pair_snoc in P.
  apply (plays_last _ _ _ _ _ P). rewrite S.
  destruct (mzf_stage s); try discriminate Hc; discriminate.
Qed.

(** *** From [mzf_init] to the terminal stage *)

(** The bytes of the buffer are those of the list it starts with. *)
Lemma hdr_bytes_app k : forall h rest i,
  (i + k <= length h)%nat ->
  hdr_bytes (h ++ rest) (Z.of_nat i) k = firstn k (skipn i h).
Proof.
  induction k as [ | k IH]; intros h rest i Hl; [reflexivity | ].
  cbn [hdr_bytes]. unfold hdr_at at 1. rewrite Nat2Z.id.
  replace (Z.of_nat i + 1) with (Z.of_nat (S i)) by lia.
  rewrite IH by lia. rewrite app_nth1 by lia.
  assert (E : skipn i h = nth i h x00 :: skipn (S i) h).
  { clear IH. revert h Hl. induction i as [ | i IHi]; intros h Hl.
    - destruct h; [cbn in Hl; lia | reflexivity].
    - destruct h as [ | y h]; [cbn in Hl; lia | ].
      cbn [length] in Hl. cbn [nth]. rewrite !skipn_cons.
      apply IHi. lia. }
  rewrite E. reflexivity.
Qed.

Lemma file_len_of_app h rest :
  (20 <= length h)%nat -> file_len_of (h ++ rest) = file_len_of h.
Proof.
  intros Hl. unfold file_len_of, hdr_at.
  rewrite !app_nth1 by (change (Z.to_nat 18) with 18%nat;
                        change (Z.to_nat 19) with 19%nat; lia).
  reflexivity.
Qed.

(** A read that delivers bytes was answered. *)
Lemma read_ok_io s : fst (header_read s) = 128 -> f_io_ok (entry s) = true.
Proof.
  unfold header_read, file_read.
  destruct (f_io_ok (entry s)); [reflexivity | discriminate].
Qed.

(** An image whose header can be read holds at least 128 bytes, and whether
    it can be read is a matter of the image alone. *)
Lemma header_ok_length s :
  header_ok s -> (128 <= length (f_bytes (entry s)))%nat.
Proof.
  intros [_ Hr]. destruct (header_read_ok _ Hr) as (_ & Hl & _).
  rewrite length_firstn in Hl. lia.
Qed.

Lemma header_ok_entry s1 s2 :
  entry s2 = entry s1 -> header_ok s1 -> header_ok s2.
Proof.
  intros He [Hs Hr]. unfold header_ok, header_read, file_read in *.
  rewrite He. split; [exact Hs | ].
  destruct (f_io_ok (entry s1)); [exact Hr | exact Hr].
Qed.

(** What a successful [mzf_init] leaves, in terms of the image. *)
Lemma init_facts s0 :
  header_ok s0 ->
  mzf_stage (mzf_init s0) = LGAP1 /\ stage_entered (mzf_init s0) /\
  entry (mzf_init s0) = entry s0 /\
  f_io_ok (entry s0) = true /\
  (128 <= length (f_bytes (entry s0)))%nat /\
  hdr_bytes (mzf_hdr (mzf_init s0)) 0 128 = header_of (entry s0) /\
  mzf_hdr_cksum (mzf_init s0) = checksum_spec (header_of (entry s0)) /\
  mzf_file_len (mzf_init s0) = file_len_of (header_of (entry s0)) /\
  0 <= mzf_file_len (mzf_init s0) <= 65535.
Proof.
  intros Hok. pose proof Hok as [Hseek Hread].
  destruct (init_checksum _ Hok) as (Hck & Hfirst & Hlen).
  destruct (header_read_ok _ Hread) as (_ & Hl128 & rest & Hbuf).
  rewrite Hfirst in Hck.
  rewrite (init_ok _ Hok) in *.
  assert (Hh : mzf_hdr (init_state s0) = snd (header_read s0))
    by reflexivity.
  assert (Hfl : mzf_file_len (init_state s0) =
                file_len_of (snd (header_read s0))) by reflexivity.
  split; [reflexivity | ].
  split; [unfold stage_entered, init_state, mzf_next_stage; fields;
          repeat split | ].
  split; [reflexivity | ].
  split; [apply read_ok_io; exact Hread | ].
  split.
  { rewrite length_firstn in Hl128. lia. }
  split.
  { rewrite Hh, Hbuf. change 0 with (Z.of_nat 0).
    rewrite hdr_bytes_app by (rewrite Hl128; lia).
    rewrite skipn_O. rewrite firstn_all2 by (rewrite Hl128; lia).
    reflexivity. }
  split; [exact Hck | ].
  split.
  { rewrite Hfl, Hbuf. apply file_len_of_app. unfold header_of. rewrite Hl128. lia. }
  rewrite Hfl. apply file_len_range.
Qed.

(** A whole playback: the ticks after a successful [mzf_init] are those of
    [mzf_tape], and the terminal stage follows. *)
Lemma tape_played s0 :
  header_ok s0 ->
  exists t,
    plays (mzf_init s0) (mzf_tape (entry s0)) t /\ mzf_stage t = DONE.
Proof.
  intros Hok.
  destruct (init_facts _ Hok)
    as (Hs & Hent & He & Hio & Hlen & Hhdr & Hck & Hfl & Hflr).
  revert Hs Hent He Hhdr Hck Hfl Hflr. generalize (mzf_init s0).
  intros a Hs Hent He Hhdr Hck Hfl Hflr.
  set (f := entry s0) in *.
  (* the long gap and the leader tapemark *)
  assert (E1 : Z.to_nat MZF_LGAP_PULSES = S (Z.to_nat 21999))
    by (unfold MZF_LGAP_PULSES; lia).
  destruct (lead_in_run LGAP1 (Z.to_nat 21999) 39 a) as (t1 & P1 & S1 & En1);
    [left; split; reflexivity | exact Hs | apply Hent | | lia | ].
  { destruct Hent as (_ & _ & _ & _ & _ & Hp). rewrite Hs in Hp.
    rewrite Hp. unfold MZF_LGAP_PULSES. lia. }
  cbn [stage_succ] in P1, S1. rewrite <- E1 in P1.
  (* the header *)
  destruct (plays_frame _ _ _ P1) as [(F1a & F1b & F1c) F1d].
  destruct (header_segment t1) as (t2 & P2 & S2 & En2);
    [left; exact S1 | exact En1 | ].
  rewrite S1, F1a, Hhdr in P2. rewrite S1 in S2. cbn [stage_succ] in S2.
  pose proof (plays_app _ _ _ _ _ P1 P2) as Q2. clear P1 P2.
  (* its checksum *)
  destruct (plays_frame _ _ _ Q2) as [(F2a & F2b & F2c) F2d].
  destruct (chk_segment t2) as (t3 & P3 & S3 & En3);
    [rewrite S2; reflexivity | exact En2 | ].
  unfold chk_value in P3. rewrite S2, F2b, Hck in P3.
  rewrite S2 in S3. cbn [stage_succ] in S3.
  pose proof (plays_app _ _ _ _ _ Q2 P3) as Q3. clear Q2 P3.
  (* the second copy of the header *)
  destruct (plays_frame _ _ _ Q3) as [(F3a & F3b & F3c) F3d].
  destruct (header_segment t3) as (t4 & P4 & S4 & En4);
    [right; exact S3 | exact En3 | ].
  rewrite S3, F3a, Hhdr in P4. rewrite S3 in S4. cbn [stage_succ] in S4.
  pose proof (plays_app _ _ _ _ _ Q3 P4) as Q4. clear Q3 P4.
  (* its checksum *)
  destruct (plays_frame _ _ _ Q4) as [(F4a & F4b & F4c) F4d].
  destruct (chk_segment t4) as (t5 & P5 & S5 & En5);
    [rewrite S4; reflexivity | exact En4 | ].
  unfold chk_value in P5. rewrite S4, F4b, Hck in P5.
  rewrite S4 in S5. cbn [stage_succ] in S5.
  pose proof (plays_app _ _ _ _ _ Q4 P5) as Q5. clear Q4 P5.
  (* the short gap and the trailer tapemark *)
  assert (E2 : Z.to_nat MZF_SGAP_PULSES = S (Z.to_nat 10999))
    by (unfold MZF_SGAP_PULSES; lia).
  destruct (lead_in_run SGAP (Z.to_nat 10999) 19 t5) as (t6 & P6 & S6 & En6);
    [right; split; reflexivity | exact S5 | apply En5 | | lia | ].
  { destruct En5 as (_ & _ & _ & _ & _ & Hp). rewrite S5 in Hp.
    rewrite Hp. unfold MZF_SGAP_PULSES. lia. }
  cbn [stage_succ] in P6, S6. rewrite <- E2 in P6.
  pose proof (plays_app _ _ _ _ _ Q5 P6) as Q6. clear Q5 P6.
  (* the file body *)
  destruct (plays_frame _ _ _ Q6) as [(F6a & F6b & F6c) F6d].
  destruct (file_segment t6) as (t7 & P7 & S7 & En7 & C7 & _);
    [exact S6 | exact En6 | rewrite F6d, He; exact Hio
    | rewrite F6d, He; exact Hlen | rewrite F6c; exact Hflr | ].
  rewrite F6c, Hfl, F6d, He in P7, C7.
  pose proof (plays_app _ _ _ _ _ Q6 P7) as Q7. clear Q6 P7.
  (* its checksum *)
  destruct (chk_segment t7) as (t8 & P8 & S8 & En8);
    [rewrite S7; reflexivity | exact En7 | ].
  unfold chk_value in P8. rewrite S7, C7 in P8.
  rewrite S7 in S8. cbn [stage_succ] in S8.
  pose proof (plays_app _ _ _ _ _ Q7 P8) as Q8. clear Q7 P8.
  exists t8. split; [ | exact S8].
  unfold mzf_tape, byte_stage_wave, chk_stage_wave, body_of.
  rewrite <- !app_assoc in Q8. exact Q8.
Qed.

(** The ticks of the terminal stage. *)
Lemma done_trace n : forall s,
  mzf_stage s = DONE -> trace n s = repeat (DONE, 0) n.
Proof.
  induction n as [ | n IH]; intros s Hs; [reflexivity | ].
  cbn [trace repeat]. rewrite Hs, (tick_done _ Hs). fields.
  apply f_equal. apply IH. fields. exact Hs.
Qed.

(** Shorter traces are prefixes of longer ones. *)
Lemma trace_prefix n : forall m s,
  (n <= m)%nat -> trace n s = firstn n (trace m s).
Proof.
  induction n as [ | n IH]; intros m s Hl; [reflexivity | ].
  destruct m as [ | m]; [lia | ].
  cbn [trace firstn]. apply f_equal. apply IH. lia.
Qed.

(** The first [n] ticks of a playback, for every [n]: a prefix of the tape
    followed by ticks of the terminal stage. *)
Lemma trace_closed s0 n :
  header_ok s0 ->
  trace n (mzf_init s0) =
  firstn n (mzf_tape (entry s0) ++ repeat (DONE, 0) n).
Proof.
  intros Hok. destruct (tape_played _ Hok) as (t & [T S] & Hd).
  set (w := mzf_tape (entry s0)) in *.
  destruct (Nat.le_gt_cases n (length w)) as [Hl | Hl].
  - rewrite (trace_prefix n (length w)) by exact Hl.
    rewrite T. rewrite firstn_app.
    replace (n - length w)%nat with 0%nat by lia.
    cbn [firstn]. rewrite app_nil_r. reflexivity.
  - replace n with (length w + (n - length w))%nat at 1 by lia.
    rewrite trace_app, T, S, (done_trace _ _ Hd).
    rewrite firstn_app, firstn_all2 by lia.
    apply f_equal. symmetry. apply firstn_repeat_le. lia.
Qed.

(** X1: after a successful [mzf_init] the ticks are exactly those of
    [mzf_tape]: the long gap, the leader tapemark, the 128 header bytes with
    their checksum, the same again, the short gap, the trailer tapemark, the
    body bytes with their checksum, each byte stage closed by one tick of
    zero period; then the terminal stage, whose ticks all have period zero.
    This gives the first [n] ticks for every [n]. *)
Theorem mzf_playback_wave s0 :
  header_ok s0 ->
  trace (length (mzf_tape (entry s0))) (mzf_init s0) = mzf_tape (entry s0) /\
  mzf_stage (ticks (length (mzf_tape (entry s0))) (mzf_init s0)) = DONE /\
  (forall n,
     trace n (mzf_init s0) =
     firstn n (mzf_tape (entry s0) ++ repeat (DONE, 0) n)).
Proof.
  intros Hok. destruct (tape_played _ Hok) as (t & [T S] & Hd).
  split; [exact T | ]. split; [rewrite S; exact Hd | ].
  intros n. apply trace_closed. exact Hok.
Qed.

(** The theorem on the playback of [example_image]. *)
Lemma mzf_playback_wave_witness :
  header_ok (power_on example_image) /\
  (trace (length (mzf_tape (entry (power_on example_image))))
     (mzf_init (power_on example_image)) =
   mzf_tape (entry (power_on example_image)) /\
   mzf_stage
     (ticks (length (mzf_tape (entry (power_on example_image))))
        (mzf_init (power_on example_image))) = DONE /\
   (forall n,
      trace n (mzf_init (power_on example_image)) =
      firstn n
        (mzf_tape (entry (power_on example_image)) ++ repeat (DONE, 0) n))).
Proof.
  assert (H0 : header_ok (power_on example_image)) by (split; reflexivity).
  exact (conj H0 (mzf_playback_wave _ H0)).
Defined.

(** X3: what a playback emits depends on the image alone: after
    [mzf_init], two states with the same image give the same ticks, whatever
    an earlier playback left in the statics. *)
Theorem mzf_restart_independent s1 s2 n :
  header_ok s1 -> entry s2 = entry s1 ->
  trace n (mzf_init s2) = trace n (mzf_init s1).
Proof.
  intros Hok He. pose proof (header_ok_entry _ _ He Hok) as Hok2.
  rewrite (trace_closed _ _ Hok), (trace_closed _ _ Hok2), He. reflexivity.
Qed.

(** The theorem on [mzf_init] in the middle of a playback and at power-on. *)
Lemma mzf_restart_independent_witness :
  header_ok (power_on example_image) /\
  entry (playing 50000 example_image) = entry (power_on example_image) /\
  trace 100 (mzf_init (playing 50000 example_image)) =
  trace 100 (mzf_init (power_on example_image)).
Proof.
  assert (H0 : header_ok (power_on example_image)) by (split; reflexivity).
  assert (H1 : entry (playing 50000 example_image) =
               entry (power_on example_image))
    by (vm_compute; reflexivity).
  exact (conj H0 (conj H1 (mzf_restart_independent _ _ 100 H0 H1))).
Defined.

(** *** How long a playback takes *)

(** The lengths of the parts of the tape. *)
Lemma pulse_train_length st l n : length (pulse_train st l n) = (2 * n)%nat.
Proof.
  induction n as [ | n IH]; [reflexivity | ].
  cbn [pulse_train length]. rewrite IH. lia.
Qed.

Lemma tapemark_length l s e n :
  length (tapemark l s e n) = (2 * n + (2 * n + 2))%nat.
Proof.
  unfold tapemark. rewrite !length_app, !pulse_train_length. reflexivity.
Qed.

Lemma bytes_wave_length bs : length (bytes_wave bs) = (18 * length bs)%nat.
Proof.
  induction bs as [ | b bs IH]; [reflexivity | ].
  unfold bytes_wave in *. cbn [flat_map]. rewrite length_app, IH.
  change (length (byte_wave b)) with 18%nat. cbn [length]. lia.
Qed.

Lemma byte_stage_wave_length st bs :
  length (byte_stage_wave st bs) = (18 * length bs + 1)%nat.
Proof.
  unfold byte_stage_wave.
  rewrite length_map, length_app, bytes_wave_length. reflexivity.
Qed.

Lemma chk_stage_wave_length st v : length (chk_stage_wave st v) = 37%nat.
Proof. reflexivity. Qed.

(** The length of the tape. *)
Lemma tape_length f :
  (128 <= length (f_bytes f))%nat ->
  Z.of_nat (length (mzf_tape f)) =
  70966 + 18 * Z.of_nat (length (body_of f)).
Proof.
  intros Hl.
  assert (Hh : length (header_of f) = 128%nat)
    by (apply firstn_length_le; exact Hl).
  unfold mzf_tape.
  rewrite !length_app, !pulse_train_length, !tapemark_length,
    !byte_stage_wave_length, !chk_stage_wave_length, Hh.
  unfold MZF_LGAP_PULSES, MZF_SGAP_PULSES, MZF_LTM_LONGS, MZF_STM_LONGS.
  lia.
Qed.

(** Every tick of the tape runs in a stage other than the terminal one. *)
Lemma pulse_train_stage st l n :
  Forall (fun x => fst x = st) (pulse_train st l n).
Proof.
  induction n as [ | n IH]; [constructor | ].
  cbn [pulse_train]. repeat constructor. exact IH.
Qed.

Lemma map_pair_stage (st : MZF_STAGE) (w : list Z) :
  Forall (fun x => fst x = st) (map (pair st) w).
Proof.
  induction w as [ | p w IH]; [constructor | ].
  cbn [map]. constructor; [reflexivity | exact IH].
Qed.

Lemma tape_not_done f : Forall (fun x => fst x <> DONE) (mzf_tape f).
Proof.
  assert (W : forall st w, st <> DONE ->
            Forall (fun x : MZF_STAGE * Z => fst x = st) w ->
            Forall (fun x => fst x <> DONE) w).
  { intros st w Hn H. eapply Forall_impl; [ | exact H].
    cbn beta. intros x ->. exact Hn. }
  unfold mzf_tape, tapemark, byte_stage_wave, chk_stage_wave.
  repeat (apply Forall_app; split);
    first [ eapply W; [ | apply pulse_train_stage]; discriminate
          | eapply W; [ | apply map_pair_stage]; discriminate ].
Qed.

(** The [n]th entry of a trace. *)
Lemma trace_nth n : forall m s,
  (n < m)%nat ->
  nth_error (trace m s) n =
  Some (mzf_stage (ticks n s), currentPeriod (ticks (S n) s)).
Proof.
  induction n as [ | n IH]; intros m s Hl;
    (destruct m as [ | m]; [lia | ]); cbn [trace nth_error].
  - reflexivity.
  - rewrite IH by lia. reflexivity.
Qed.

(** The terminal stage is reached by the tick that ends the tape and by no
    earlier one. *)
Lemma playback_end s0 n :
  header_ok s0 ->
  mzf_stage (ticks n (mzf_init s0)) = DONE <->
  (length (mzf_tape (entry s0)) <= n)%nat.
Proof.
  intros Hok. destruct (tape_played _ Hok) as (t & [T S] & Hd).
  set (w := mzf_tape (entry s0)) in *.
  destruct (Nat.le_gt_cases (length w) n) as [Hl | Hl].
  - split; [intros _; exact Hl | intros _].
    replace n with (length w + (n - length w))%nat by lia.
    rewrite ticks_add, S. apply done_stays. exact Hd.
  - split; [ | lia]. intros Hs. exfalso.
    pose proof (trace_nth n (length w) (mzf_init s0) Hl) as E.
    rewrite T in E. apply nth_error_In in E.
    pose proof (tape_not_done (entry s0)) as F.
    rewrite Forall_forall in F. apply F in E. apply E. exact Hs.
Qed.

(** The length of the body. *)
Lemma body_length f :
  Z.of_nat (length (body_of f)) =
  Z.min (file_len_of (header_of f))
        (Z.of_nat (length (f_bytes f)) - 128) \/
  (length (f_bytes f) < 128)%nat.
Proof.
  destruct (Nat.le_gt_cases 128 (length (f_bytes f))) as [H | H];
    [left | right; exact H].
  unfold body_of. rewrite length_firstn, length_skipn.
  pose proof (file_len_range (header_of f)). lia.
Qed.

(** X2: a playback reaches the terminal stage after exactly
    70966 + 18 * L ticks, where L is the body length the header declares or
    the number of bytes the image holds after the header, whichever is
    less; no earlier tick is in the terminal stage and every later one is. *)
Theorem mzf_playback_duration s0 n :
  header_ok s0 ->
  mzf_stage (ticks n (mzf_init s0)) = DONE <->
  70966 +
  18 * Z.min (file_len_of (header_of (entry s0)))
         (Z.of_nat (length (f_bytes (entry s0))) - 128) <= Z.of_nat n.
Proof.
  intros Hok. rewrite (playback_end _ _ Hok).
  pose proof (header_ok_length _ Hok) as Hl.
  pose proof (tape_length _ Hl) as E.
  destruct (body_length (entry s0)) as [B | B]; [ | lia].
  rewrite <- B. lia.
Qed.

(** The theorem on [truncated_image], which declares three body bytes and
    holds one: 70984 ticks. *)
Lemma mzf_playback_duration_witness :
  header_ok (power_on truncated_image) /\
  (mzf_stage (ticks (Z.to_nat 70984) (mzf_init (power_on truncated_image))) =
   DONE <->
   70966 +
   18 * Z.min (file_len_of (header_of (entry (power_on truncated_image))))
          (Z.of_nat (length (f_bytes (entry (power_on truncated_image)))) -
           128) <= Z.of_nat (Z.to_nat 70984)).
Proof.
  assert (H0 : header_ok (power_on truncated_image)) by (split; reflexivity).
  exact (conj H0 (mzf_playback_duration _ _ H0)).
Defined.

(** Until the terminal stage runs, the hand-off globals stay as they are. *)
Lemma same_ids_trans a b c : same_ids a b -> same_ids b c -> same_ids a c.
Proof.
  intros (A1 & A2 & A3) (B1 & B2 & B3). unfold same_ids.
  rewrite B1, B2, B3. auto.
Qed.

Lemma ids_until_done n : forall s,
  (forall k, (k < n)%nat -> mzf_stage (ticks k s) <> DONE) ->
  same_ids s (ticks n s).
Proof.
  induction n as [ | n IH]; intros s H; [repeat split | ].
  rewrite ticks_S_r. apply same_ids_trans with (b := ticks n s).
  - apply IH. intros k Hk. apply H. lia.
  - apply tick_ids. apply H. lia.
Qed.

(** The terminal stage keeps the task. *)
Lemma done_task k : forall s,
  currentTask s = PROCESSID -> mzf_stage s = DONE ->
  currentTask (ticks k s) = PROCESSID.
Proof.
  induction k as [ | k IH]; intros s Ht Hs; [exact Ht | ].
  cbn [ticks]. rewrite (tick_done _ Hs).
  apply IH; fields; [reflexivity | exact Hs].
Qed.

(** The hand-off, for a playback that reaches the terminal stage at tick
    [N]. *)
Lemma handoff_at s N n :
  currentID s = ID_MZF -> currentTask s = PROCESSID ->
  (forall k, mzf_stage (ticks k s) = DONE <-> (N <= k)%nat) ->
  currentTask (ticks n s) = PROCESSID /\
  currentID (ticks n s) = (if (n <=? N)%nat then ID_MZF else IDEOF).
Proof.
  intros Hid Htask Hend.
  assert (Hbefore : forall m, (m <= N)%nat -> same_ids s (ticks m s)).
  { intros m Hm. apply ids_until_done. intros k Hk E.
    apply Hend in E. lia. }
  destruct (Nat.leb_spec n N) as [Hl | Hl].
  - destruct (Hbefore n Hl) as (E1 & E2 & _). rewrite E1, E2.
    split; assumption.
  - assert (Hd : mzf_stage (ticks N s) = DONE) by (apply Hend; lia).
    destruct (Hbefore N (Nat.le_refl N)) as (_ & E2 & _).
    replace n with (N + S (n - N - 1))%nat by lia.
    rewrite ticks_add.
    destruct (done_ticks (n - N - 1) _ Hd) as (_ & _ & E & _).
    split; [ | exact E].
    apply done_task; [rewrite E2; exact Htask | exact Hd].
Qed.

(** X7: [currentTask] is PROCESSID at every tick of a playback, and
    [currentID] is the MZF id up to and including the state the last tape
    tick leaves, and the end-of-file id from the next tick on. *)
Theorem mzf_eof_handoff s0 n :
  header_ok s0 ->
  currentTask (ticks n (mzf_init s0)) = PROCESSID /\
  currentID (ticks n (mzf_init s0)) =
  (if (n <=? length (mzf_tape (entry s0)))%nat then ID_MZF else IDEOF).
Proof.
  intros Hok. apply handoff_at.
  - rewrite (init_ok _ Hok). reflexivity.
  - rewrite (init_ok _ Hok). reflexivity.
  - intros k. apply playback_end. exact Hok.
Qed.

(** The theorem on an early tick of the playback of [example_image]. *)
Lemma mzf_eof_handoff_witness :
  header_ok (power_on example_image) /\
  (currentTask (ticks 5 (mzf_init (power_on example_image))) = PROCESSID /\
   currentID (ticks 5 (mzf_init (power_on example_image))) =
   (if (5 <=? length (mzf_tape (entry (power_on example_image))))%nat
    then ID_MZF else IDEOF)).
Proof.
  assert (H0 : header_ok (power_on example_image)) by (split; reflexivity).
  exact (conj H0 (mzf_eof_handoff _ 5 H0)).
Defined.

(** *** The read position *)

(** Emitting a half-period leaves everything [reads_inv] looks at alone. *)
Lemma emit_bits_reads s : same_reads s (mzf_emit_bits s).
Proof.
  destruct (mzf_leader_done s) eqn:Hl;
    destruct (Z.eq_dec (mzf_half s) 0) as [Hh | Hh].
  - rewrite (emit_bits_data_up _ Hl Hh). repeat split.
  - rewrite (emit_bits_data_down _ Hl Hh). cbv zeta.
    destruct (_ =? 0); repeat split.
  - rewrite (emit_bits_leader_up _ Hl Hh). repeat split.
  - rewrite (emit_bits_leader_down _ Hl Hh). repeat split.
Qed.

Lemma reads_inv_same s t : same_reads s t -> reads_inv s -> reads_inv t.
Proof.
  intros (E1 & E2 & E3 & E4 & E5 & E6).
  unfold reads_inv, image_len. rewrite E1, E2, E3, E4, E5, E6. auto.
Qed.

(** [byte_at] answers inside the image and nowhere else. *)
Lemma byte_at_some f pos b :
  byte_at f pos = Some b -> 0 <= pos < Z.of_nat (length (f_bytes f)).
Proof.
  unfold byte_at. destruct (f_io_ok f); [ | discriminate].
  destruct (0 <=? pos) eqn:Hp; [ | discriminate]. cbn [andb]. intros H.
  assert (Hs : nth_error (f_bytes f) (Z.to_nat pos) <> None)
    by (rewrite H; discriminate).
  apply nth_error_Some in Hs. lia.
Qed.

Lemma byte_at_none f pos :
  f_io_ok f = true -> 0 <= pos -> byte_at f pos = None ->
  Z.of_nat (length (f_bytes f)) <= pos.
Proof.
  unfold byte_at. intros -> Hp. replace (0 <=? pos) with true by lia.
  cbn [andb]. intros H. apply nth_error_None in H. lia.
Qed.

(** A successful load moves the read position only for source FILE, and
    then by one byte that is there. *)
Lemma load_ok_reads s s' :
  mzf_load_next_byte s = (true, s') ->
  mzf_src s <> FILE /\ same_reads s s' \/
  mzf_src s = FILE /\ mzf_file_left s <> 0 /\
  (exists b, byte_at (entry s) (bytesRead s) = Some b) /\
  mzf_stage s' = mzf_stage s /\ mzf_src s' = mzf_src s /\
  mzf_file_len s' = mzf_file_len s /\ entry s' = entry s /\
  bytesRead s' = bytesRead s + 1 /\
  mzf_file_left s' = u16 (mzf_file_left s - 1).
Proof.
  unfold mzf_load_next_byte, ReadByte.
  destruct (mzf_src s) eqn:Hsrc.
  - destruct (128 <=? mzf_hdr_idx s); [discriminate | ].
    intros E. injection E as <-. left. split; [discriminate | ].
    unfold same_reads. fields. repeat split.
  - destruct (mzf_file_left s =? 0) eqn:Hz; [discriminate | ].
    destruct (byte_at (entry s) (bytesRead s)) as [b | ] eqn:Hat;
      [ | discriminate].
    intros E. injection E as <-. right. fields.
    split; [reflexivity | ]. split; [lia | ].
    split; [exists b; reflexivity | ]. repeat split; exact Hsrc.
  - destruct (2 <=? mzf_chk_byte_idx s); [discriminate | ].
    intros E. injection E as <-. left. split; [discriminate | ].
    unfold same_reads. fields. repeat split.
Qed.

(** A load from the file fails because nothing is left to send or nothing
    is left to read. *)
Lemma load_file_fail_why s s' :
  mzf_src s = FILE -> mzf_load_next_byte s = (false, s') ->
  mzf_file_left s = 0 \/ byte_at (entry s) (bytesRead s) = None.
Proof.
  unfold mzf_load_next_byte, ReadByte. intros ->.
  destruct (mzf_file_left s =? 0) eqn:Hz; [left; lia | ].
  destruct (byte_at (entry s) (bytesRead s)); [discriminate | ].
  right. reflexivity.
Qed.

(** Every tick keeps [reads_inv]; [mzf_init] establishes it. *)
Lemma reads_inv_tick s :
  f_io_ok (entry s) = true -> reads_inv s -> reads_inv (mzf_process s).
Proof.
  intros Hio H. pose proof H as (Hr & Hi & Hfl & Hst).
  destruct (is_pulse_stage (mzf_stage s)) eqn:Hp.
  - destruct (Z.eq_dec (mzf_half s) 0) as [Hh | Hh].
    + rewrite (tick_pulse_up _ Hp Hh).
      unfold reads_inv, image_len in *. fields. auto.
    + rewrite (tick_pulse_down _ Hp Hh).
      unfold reads_inv, image_len in *.
      destruct (mzf_stage s) eqn:Hs; try discriminate Hp;
        unfold pulse_done, mzf_next_stage, mzf_reset_byte_writer_for_src;
        cbv zeta; fields;
        try (destruct (_ =? 0)); fields; rewrite ?Hs;
        repeat split; try assumption; try lia.
  - destruct (is_byte_stage (mzf_stage s)) eqn:Hb.
    + destruct (mzf_have_byte s) eqn:Hhb.
      * rewrite (tick_emit _ Hb Hhb).
        apply (reads_inv_same s); [apply emit_bits_reads | ].
        exact H.
      * destruct (mzf_load_next_byte s) as [[] s'] eqn:L.
        -- rewrite (tick_load_ok _ _ Hb Hhb L).
           eapply reads_inv_same; [apply emit_bits_reads | ].
           assert (Hs' : reads_inv s').
           { destruct (load_ok_reads _ _ L)
               as [[_ Hsame] |
                   (Hsrc & Hnz & [b Hat] & E1 & E2 & E3 & E4 & E5 & E6)].
             - apply (reads_inv_same s); assumption.
             - apply byte_at_some in Hat.
               unfold reads_inv, image_len in *.
               rewrite E1, E2, E3, E4, E5, E6.
               destruct (mzf_stage s) eqn:Hs; try discriminate Hb;
                 try contradiction; try (destruct Hst; congruence).
               unfold u16. repeat split; try lia; try assumption. }
           unfold reads_inv, image_len in *. fields. exact Hs'.
        -- pose proof (load_fail_same _ _ L) as ->.
           rewrite (tick_load_fail _ _ Hb Hhb L).
           unfold reads_inv, image_len in *.
           destruct (mzf_stage s) eqn:Hs; try discriminate Hb;
             try contradiction;
             unfold stage_exit, mzf_next_stage,
               mzf_reset_byte_writer_for_src; fields;
             repeat split; try lia; try tauto.
           destruct Hst as (Hsrc & Hl0 & Hsum).
           destruct (load_file_fail_why _ _ Hsrc L) as [Hz | Hn];
             [left; lia | right].
           apply byte_at_none in Hn; [lia | exact Hio | lia].
    + destruct (mzf_stage s) eqn:Hs; try discriminate.
      rewrite (tick_done _ Hs). unfold reads_inv, image_len in *. fields.
      rewrite Hs. auto.
Qed.

Lemma reads_inv_init s0 : header_ok s0 -> reads_inv (mzf_init s0).
Proof.
  intros Hok. pose proof (header_ok_length _ Hok) as Hl.
  rewrite (init_ok _ Hok).
  pose proof (file_len_range (snd (header_read s0))) as Hr.
  unfold reads_inv, image_len, init_state, mzf_next_stage. fields.
  repeat split; lia.
Qed.

Lemma reads_inv_ticks n : forall s,
  f_io_ok (entry s) = true -> reads_inv s -> reads_inv (ticks n s).
Proof.
  induction n as [ | n IH]; intros s Hio H; [exact H | ].
  cbn [ticks]. apply IH; [rewrite tick_entry; exact Hio | ].
  apply reads_inv_tick; assumption.
Qed.

(** X6: during a playback [bytesRead] never leaves the body: it is at
    least 128, at most 128 plus the declared length and at most the length
    of the image; it stays at 128 through the gaps, tapemarks, header copies
    and header checksums; in the terminal stage it stands at the end of the
    declared body or at the end of the image, whichever comes first. *)
Theorem mzf_reads_bounded s0 n :
  header_ok s0 ->
  128 <= bytesRead (ticks n (mzf_init s0)) /\
  bytesRead (ticks n (mzf_init s0)) <=
  128 + file_len_of (header_of (entry s0)) /\
  bytesRead (ticks n (mzf_init s0)) <=
  Z.of_nat (length (f_bytes (entry s0))) /\
  (is_pulse_stage (mzf_stage (ticks n (mzf_init s0))) = true \/
   In (mzf_stage (ticks n (mzf_init s0))) [HDR1; CHKH1; HDR2; CHKH2] ->
   bytesRead (ticks n (mzf_init s0)) = 128) /\
  (mzf_stage (ticks n (mzf_init s0)) = DONE ->
   bytesRead (ticks n (mzf_init s0)) =
   Z.min (128 + file_len_of (header_of (entry s0)))
         (Z.of_nat (length (f_bytes (entry s0))))).
Proof.
  intros Hok.
  destruct (init_facts _ Hok)
    as (_ & _ & He & Hio & _ & _ & _ & Hfl & _).
  pose proof (reads_inv_ticks n (mzf_init s0)
                ltac:(rewrite He; exact Hio) (reads_inv_init _ Hok)) as H.
  destruct H as (Hr & Hi & _ & Hst). unfold image_len in *.
  destruct (ticks_header n (mzf_init s0)) as (_ & _ & Hlen).
  rewrite ticks_entry, He in *. rewrite Hlen, Hfl in *.
  split; [lia | ]. split; [lia | ]. split; [lia | ]. split.
  - intros [Hp | Hin].
    + destruct (mzf_stage (ticks n (mzf_init s0)));
        try discriminate Hp; exact Hst.
    + cbn [In] in Hin.
      destruct Hin as [E | [E | [E | [E | []]]]]; rewrite <- E in Hst;
        apply Hst.
  - intros E. rewrite E in Hst. lia.
Qed.

(** The theorem on an early tick of the playback of [truncated_image]. *)
Lemma mzf_reads_bounded_witness :
  header_ok (power_on truncated_image) /\
  (128 <= bytesRead (ticks 7 (mzf_init (power_on truncated_image))) /\
   bytesRead (ticks 7 (mzf_init (power_on truncated_image))) <=
   128 + file_len_of (header_of (entry (power_on truncated_image))) /\
   bytesRead (ticks 7 (mzf_init (power_on truncated_image))) <=
   Z.of_nat (length (f_bytes (entry (power_on truncated_image)))) /\
   (is_pulse_stage
      (mzf_stage (ticks 7 (mzf_init (power_on truncated_image)))) = true \/
    In (mzf_stage (ticks 7 (mzf_init (power_on truncated_image))))
      [HDR1; CHKH1; HDR2; CHKH2] ->
    bytesRead (ticks 7 (mzf_init (power_on truncated_image))) = 128) /\
   (mzf_stage (ticks 7 (mzf_init (power_on truncated_image))) = DONE ->
    bytesRead (ticks 7 (mzf_init (power_on truncated_image))) =
    Z.min (128 + file_len_of (header_of (entry (power_on truncated_image))))
          (Z.of_nat (length (f_bytes (entry (power_on truncated_image))))))).
Proof.
  assert (H0 : header_ok (power_on truncated_image)) by (split; reflexivity).
  exact (conj H0 (mzf_reads_bounded _ 7 H0)).
Defined.

(** *** What [mzf_init] takes from the header *)

(** Two bytes joined by [|] and [<< 8] are the little-endian number. *)
Lemma lor_bytes a b :
  0 <= a < 256 -> 0 <= b < 256 ->
  Z.lor a (u16 (Z.shiftl b 8)) = a + 256 * b.
Proof.
  intros Ha Hb. rewrite Z.shiftl_mul_pow2 by lia.
  change (2 ^ 8) with 256. unfold u16. rewrite Z.mod_small by lia.
  assert (Hland : Z.land a (b * 256) = 0).
  { apply Z.bits_inj'. intros n Hn. rewrite Z.land_spec, Z.bits_0.
    destruct (Z.lt_ge_cases n 8) as [Hlt | Hge].
    - change 256 with (2 ^ 8). rewrite Z.mul_pow2_bits_low by lia.
      apply andb_false_r.
    - rewrite <- (Z.mod_small a (2 ^ 8)) by (change (2 ^ 8) with 256; lia).
      rewrite Z.mod_pow2_bits_high by lia. reflexivity. }
  rewrite <- Z.lxor_lor by exact Hland.
  rewrite <- Z.add_nocarry_lxor by exact Hland. lia.
Qed.

Lemma file_len_le h :
  file_len_of h = byte_val (hdr_at h 18) + 256 * byte_val (hdr_at h 19).
Proof.
  unfold file_len_of. apply lor_bytes.
  - pose proof (byte_val_range (hdr_at h 18)). lia.
  - pose proof (byte_val_range (hdr_at h 19)). lia.
Qed.

(** A checksum is at most eight times the number of bytes. *)
Lemma checksum_spec_bound l :
  0 <= checksum_spec l <= 8 * Z.of_nat (length l).
Proof.
  unfold checksum_spec.
  assert (H : 0 <= fold_right Z.add 0 (map popcount_spec l)
              <= 8 * Z.of_nat (length l)).
  { induction l as [ | b l IH]; cbn [map fold_right length]; [lia | ].
    pose proof (popcount_spec_range b). lia. }
  lia.
Qed.

(** X8: a successful [mzf_init] takes the body length from bytes 18
    (low) and 19 (high) of the image, leaves a header checksum of at most
    1024, whose high byte is therefore at most 4, and puts the read position
    at 128; no tick changes the length or the header checksum. *)
Theorem mzf_init_header_fields s0 :
  header_ok s0 ->
  mzf_file_len (mzf_init s0) =
  byte_val (nth 18 (f_bytes (entry s0)) x00) +
  256 * byte_val (nth 19 (f_bytes (entry s0)) x00) /\
  0 <= mzf_hdr_cksum (mzf_init s0) <= 1024 /\
  byte_val (to_byte (Z.shiftr (mzf_hdr_cksum (mzf_init s0)) 8)) <= 4 /\
  bytesRead (mzf_init s0) = 128 /\
  (forall n, mzf_file_len (ticks n (mzf_init s0)) = mzf_file_len (mzf_init s0)
             /\ mzf_hdr_cksum (ticks n (mzf_init s0)) =
                mzf_hdr_cksum (mzf_init s0)).
Proof.
  intros Hok.
  destruct (init_facts _ Hok)
    as (_ & _ & _ & _ & Hl & _ & Hck & Hfl & _).
  assert (Hh : length (header_of (entry s0)) = 128%nat)
    by (apply firstn_length_le; exact Hl).
  pose proof (checksum_spec_bound (header_of (entry s0))) as Hb.
  rewrite Hh in Hb. rewrite <- Hck in Hb.
  split.
  { rewrite Hfl, file_len_le. unfold hdr_at, header_of.
    change (Z.to_nat 18) with 18%nat. change (Z.to_nat 19) with 19%nat.
    rewrite !nth_firstn. reflexivity. }
  split; [lia | ]. split.
  { assert (Hs : 0 <= Z.shiftr (mzf_hdr_cksum (mzf_init s0)) 8 <= 4).
    { rewrite Z.shiftr_div_pow2 by lia. change (2 ^ 8) with 256. lia. }
    revert Hs. generalize (Z.shiftr (mzf_hdr_cksum (mzf_init s0)) 8).
    intros z Hz.
    assert (Hc : z = 0 \/ z = 1 \/ z = 2 \/ z = 3 \/ z = 4) by lia.
    destruct Hc as [-> | [-> | [-> | [-> | ->]]]]; vm_compute;
      discriminate. }
  split; [rewrite (init_ok _ Hok); reflexivity | ].
  intros n. destruct (ticks_header n (mzf_init s0)) as (_ & E1 & E2).
  split; assumption.
Qed.

(** The theorem on [example_image]. *)
Lemma mzf_init_header_fields_witness :
  header_ok (power_on example_image) /\
  (mzf_file_len (mzf_init (power_on example_image)) =
   byte_val (nth 18 (f_bytes (entry (power_on example_image))) x00) +
   256 * byte_val (nth 19 (f_bytes (entry (power_on example_image))) x00) /\
   0 <= mzf_hdr_cksum (mzf_init (power_on example_image)) <= 1024 /\
   byte_val
     (to_byte (Z.shiftr (mzf_hdr_cksum (mzf_init (power_on example_image)))
                 8)) <= 4 /\
   bytesRead (mzf_init (power_on example_image)) = 128 /\
   (forall n,
      mzf_file_len (ticks n (mzf_init (power_on example_image))) =
      mzf_file_len (mzf_init (power_on example_image)) /\
      mzf_hdr_cksum (ticks n (mzf_init (power_on example_image))) =
      mzf_hdr_cksum (mzf_init (power_on example_image)))).
Proof.
  assert (H0 : header_ok (power_on example_image)) by (split; reflexivity).
  exact (conj H0 (mzf_init_header_fields _ H0)).
Defined.

(** *** The tape determines the image *)

(** Different bytes have different waves. *)
Lemma byte_wave_inj x y : byte_wave x = byte_wave y -> x = y.
Proof.
  intros E. pose proof (decode_byte_wave x) as Hx.
  rewrite E, decode_byte_wave in Hx. injection Hx as ->. reflexivity.
Qed.

(** The wave of a byte sequence followed by the zero period delimits
    itself. *)
Lemma bytes_wave_inj l1 : forall l2 X Y,
  bytes_wave l1 ++ 0 :: X = bytes_wave l2 ++ 0 :: Y -> l1 = l2 /\ X = Y.
Proof.
  induction l1 as [ | x l1 IH]; intros [ | y l2] X Y E.
  - injection E as ->. split; reflexivity.
  - exfalso. discriminate E.
  - exfalso. discriminate E.
  - unfold bytes_wave in E. cbn [flat_map] in E.
    rewrite <- !app_assoc in E.
    apply app_inj_length in E; [ | reflexivity].
    destruct E as [E1 E2]. apply byte_wave_inj in E1. subst y.
    destruct (IH l2 X Y E2) as [-> ->]. split; reflexivity.
Qed.

(** The half-periods of the tape, with room for what follows it. *)
Lemma map_snd_pair (st : MZF_STAGE) (w : list Z) :
  map snd (map (pair st) w) = w.
Proof.
  rewrite map_map. cbn [snd]. apply map_id.
Qed.

Lemma tape_periods f :
  map snd (mzf_tape f) =
  (map snd (pulse_train LGAP1 false (Z.to_nat MZF_LGAP_PULSES)) ++
   map snd (tapemark LTM_LONG LTM_SHORT LTM_ENDLONG (Z.to_nat MZF_LTM_LONGS)))
  ++ bytes_wave (header_of f) ++ 0 ::
     (chk_wave (checksum_spec (header_of f)) ++
      bytes_wave (header_of f) ++ [0] ++
      chk_wave (checksum_spec (header_of f)) ++
      map snd (pulse_train SGAP false (Z.to_nat MZF_SGAP_PULSES)) ++
      map snd
        (tapemark STM_LONG STM_SHORT STM_ENDLONG (Z.to_nat MZF_STM_LONGS)))
     ++ bytes_wave (body_of f) ++ 0 :: chk_wave (checksum_spec (body_of f)).
Proof.
  unfold mzf_tape, byte_stage_wave, chk_stage_wave.
  rewrite !map_app, !map_snd_pair, <- !app_assoc. reflexivity.
Qed.

Lemma tape_periods_pad f pad :
  map snd (mzf_tape f) ++ pad =
  (map snd (pulse_train LGAP1 false (Z.to_nat MZF_LGAP_PULSES)) ++
   map snd (tapemark LTM_LONG LTM_SHORT LTM_ENDLONG (Z.to_nat MZF_LTM_LONGS)))
  ++ bytes_wave (header_of f) ++ 0 ::
     (chk_wave (checksum_spec (header_of f)) ++
      bytes_wave (header_of f) ++ [0] ++
      chk_wave (checksum_spec (header_of f)) ++
      map snd (pulse_train SGAP false (Z.to_nat MZF_SGAP_PULSES)) ++
      map snd
        (tapemark STM_LONG STM_SHORT STM_ENDLONG (Z.to_nat MZF_STM_LONGS)))
     ++ bytes_wave (body_of f) ++ 0 ::
        (chk_wave (checksum_spec (body_of f)) ++ pad).
Proof.
  rewrite tape_periods.
  repeat (rewrite <- app_assoc; rewrite <- ?app_comm_cons).
  reflexivity.
Qed.

(** A tape followed by [k] ticks of the terminal stage. *)
Lemma padded_trace (W : list (MZF_STAGE * Z)) k :
  firstn (length W + k) (W ++ repeat (DONE, 0) (length W + k)) =
  W ++ repeat (DONE, 0) k.
Proof.
  rewrite firstn_app, firstn_all2 by lia. apply f_equal.
  replace (length W + k - length W)%nat with k by lia.
  apply firstn_repeat_le. lia.
Qed.

(** X4: two playbacks that emit the same half-periods at every tick
    sent the same header and the same body. *)
Theorem mzf_playback_lossless s1 s2 :
  header_ok s1 -> header_ok s2 ->
  (forall n, map snd (trace n (mzf_init s1)) =
             map snd (trace n (mzf_init s2))) ->
  header_of (entry s1) = header_of (entry s2) /\
  body_of (entry s1) = body_of (entry s2).
Proof.
  intros H1 H2 Hsame.
  pose proof (trace_closed s1) as C1. pose proof (trace_closed s2) as C2.
  revert C1 C2 Hsame.
  generalize (mzf_init s1), (mzf_init s2), (entry s1), (entry s2).
  intros a1 a2 f1 f2 C1 C2 Hsame.
  assert (E : map snd (mzf_tape f1) ++ repeat 0 (length (mzf_tape f2)) =
              map snd (mzf_tape f2) ++ repeat 0 (length (mzf_tape f1))).
  { specialize (Hsame (length (mzf_tape f1) + length (mzf_tape f2))%nat).
    rewrite (C1 _ H1) in Hsame. rewrite (C2 _ H2) in Hsame.
    rewrite padded_trace in Hsame.
    rewrite (Nat.add_comm (length (mzf_tape f1))) in Hsame.
    rewrite padded_trace in Hsame.
    rewrite !map_app, !map_repeat in Hsame. exact Hsame. }
  rewrite !tape_periods_pad in E.
  apply app_inv_head in E.
  apply bytes_wave_inj in E. destruct E as [Eh E].
  rewrite Eh in E. apply app_inv_head in E.
  apply bytes_wave_inj in E. destruct E as [Eb _].
  split; assumption.
Qed.

(** The theorem on two playbacks of [example_image]. *)
Lemma mzf_playback_lossless_witness :
  header_ok (power_on example_image) /\
  (forall n, map snd (trace n (mzf_init (power_on example_image))) =
             map snd (trace n (mzf_init (power_on example_image)))) /\
  header_of (entry (power_on example_image)) =
  header_of (entry (power_on example_image)) /\
  body_of (entry (power_on example_image)) =
  body_of (entry (power_on example_image)).
Proof.
  assert (H0 : header_ok (power_on example_image)) by (split; reflexivity).
  assert (H1 : forall n,
             map snd (trace n (mzf_init (power_on example_image))) =
             map snd (trace n (mzf_init (power_on example_image))))
    by reflexivity.
  exact (conj H0 (conj H1 (mzf_playback_lossless _ _ H0 H0 H1))).
Defined.

(** *** Pulses are never cut short *)

(** A half-period that starts a pulse, and the half-period that has to
    follow it. *)
Lemma pulse_completed s :
  mzf_half s = 0 -> currentPeriod (mzf_process s) <> 0 ->
  mzf_half (mzf_process s) = 1 /\
  mzf_stage (mzf_process s) = mzf_stage s /\
  mzf_half (mzf_process (mzf_process s)) = 0 /\
  exists l,
    currentPeriod (mzf_process s) = up_us l /\
    currentPeriod (mzf_process (mzf_process s)) = down_us l.
Proof.
  intros Hh Hnz.
  destruct (is_pulse_stage (mzf_stage s)) eqn:Hp.
  - pose proof (tick_pulse_up _ Hp Hh) as E1.
    assert (Hx : exists a, mzf_process s = a /\ mzf_half a = 1 /\
                   mzf_stage a = mzf_stage s /\
                   currentPeriod a = up_us (stage_long (mzf_stage s))).
    { rewrite E1. eexists. split; [reflexivity | ]. fields.
      repeat split. }
    destruct Hx as (a & -> & Ha1 & Ha2 & Ha3).
    assert (Hpa : is_pulse_stage (mzf_stage a) = true)
      by (rewrite Ha2; exact Hp).
    rewrite (tick_pulse_down a Hpa) by (rewrite Ha1; discriminate).
    split; [exact Ha1 | ]. split; [exact Ha2 | ]. split.
    + rewrite Ha2.
      destruct (mzf_stage s); try discriminate Hp;
        unfold pulse_done, mzf_next_stage, mzf_reset_byte_writer_for_src;
        cbv zeta; fields; try (destruct (_ =? 0)); fields; reflexivity.
    + exists (stage_long (mzf_stage s)). split; [exact Ha3 | ].
      rewrite pulse_done_period. fields. rewrite Ha2. reflexivity.
  - destruct (is_byte_stage (mzf_stage s)) eqn:Hb.
    + assert (Hx : exists a l,
                mzf_process s = a /\ mzf_half a = 1 /\
                mzf_stage a = mzf_stage s /\ mzf_have_byte a = true /\
                currentPeriod a = up_us l /\
                (mzf_leader_done a = false /\ l = true \/
                 mzf_leader_done a = true /\ l = cur_bit a)).
      { destruct (mzf_have_byte s) eqn:Hhb.
        - rewrite (tick_emit _ Hb Hhb).
          destruct (mzf_leader_done s) eqn:Hl.
          + rewrite (emit_bits_data_up _ Hl Hh).
            eexists. exists (cur_bit s). split; [reflexivity | ].
            unfold cur_bit. fields. repeat split; try assumption.
            right. split; [exact Hl | reflexivity].
          + rewrite (emit_bits_leader_up _ Hl Hh).
            eexists. exists true. split; [reflexivity | ]. fields.
            repeat split; try assumption. left. split; [exact Hl | reflexivity].
        - destruct (mzf_load_next_byte s) as [[] s'] eqn:L.
          + destruct (load_ok_frame _ _ L) as (F1 & F2 & F3).
            rewrite (tick_first_half _ _ Hb Hhb L) by (rewrite F2; exact Hh).
            eexists. exists true. split; [reflexivity | ]. fields.
            repeat split; try assumption. left. split; reflexivity.
          + exfalso. apply Hnz.
            rewrite (tick_load_fail _ _ Hb Hhb L), stage_exit_period.
            reflexivity. }
      destruct Hx as (a & l & -> & Ha1 & Ha2 & Ha3 & Ha4 & Ha5).
      assert (Hba : is_byte_stage (mzf_stage a) = true)
        by (rewrite Ha2; exact Hb).
      assert (Hne : mzf_half a <> 0) by (rewrite Ha1; discriminate).
      rewrite (tick_emit a Hba Ha3).
      split; [exact Ha1 | ]. split; [exact Ha2 | ].
      destruct Ha5 as [[Hl ->] | [Hl ->]].
      * rewrite (emit_bits_leader_down _ Hl Hne). fields.
        split; [reflexivity | ]. exists true. split; [exact Ha4 | reflexivity].
      * rewrite (emit_bits_data_down _ Hl Hne). cbv zeta.
        destruct (_ =? 0); fields;
          (split; [reflexivity | ]); exists (cur_bit a);
          (split; [exact Ha4 | reflexivity]).
    + exfalso. apply Hnz. destruct (mzf_stage s) eqn:Hs; try discriminate.
      rewrite (tick_done _ Hs). reflexivity.
Qed.

(** X15: a half-period that starts a pulse is always followed by the
    matching second half: from any state with no pulse in progress, a tick
    that emits a non-zero period emits the up half of a long or of a short
    pulse and keeps the stage, and the next tick emits the down half of the
    same kind and leaves no pulse in progress. *)
Theorem mzf_pulse_integrity s :
  mzf_half s = 0 -> currentPeriod (mzf_process s) <> 0 ->
  mzf_half (mzf_process s) = 1 /\
  mzf_stage (mzf_process s) = mzf_stage s /\
  mzf_half (mzf_process (mzf_process s)) = 0 /\
  (currentPeriod (mzf_process s) = MZF_LONG_UP_US /\
   currentPeriod (mzf_process (mzf_process s)) = MZF_LONG_DOWN_US \/
   currentPeriod (mzf_process s) = MZF_SHORT_UP_US /\
   currentPeriod (mzf_process (mzf_process s)) = MZF_SHORT_DOWN_US).
Proof.
  intros Hh Hnz.
  destruct (pulse_completed s Hh Hnz) as (H1 & H2 & H3 & l & E1 & E2).
  split; [exact H1 | ]. split; [exact H2 | ]. split; [exact H3 | ].
  destruct l; [left | right]; split; assumption.
Qed.

(** The theorem on the first tick of the header stage. *)
Lemma mzf_pulse_integrity_witness :
  mzf_half (playing 44162 example_image) = 0 /\
  currentPeriod (mzf_process (playing 44162 example_image)) <> 0 /\
  (mzf_half (mzf_process (playing 44162 example_image)) = 1 /\
   mzf_stage (mzf_process (playing 44162 example_image)) =
   mzf_stage (playing 44162 example_image) /\
   mzf_half (mzf_process (mzf_process (playing 44162 example_image))) = 0 /\
   (currentPeriod (mzf_process (playing 44162 example_image)) =
    MZF_LONG_UP_US /\
    currentPeriod (mzf_process (mzf_process (playing 44162 example_image)))
    = MZF_LONG_DOWN_US \/
    currentPeriod (mzf_process (playing 44162 example_image)) =
    MZF_SHORT_UP_US /\
    currentPeriod (mzf_process (mzf_process (playing 44162 example_image)))
    = MZF_SHORT_DOWN_US)).
Proof.
  assert (H0 : mzf_half (playing 44162 example_image) = 0)
    by (vm_compute; reflexivity).
  assert (H1 : currentPeriod (mzf_process (playing 44162 example_image)) <> 0)
    by (vm_compute; discriminate).
  exact (conj H0 (conj H1 (mzf_pulse_integrity _ H0 H1))).
Defined.

(** *** The checksum function *)

(** The range of [popcount8], for all 256 bytes. *)
Lemma popcount8_ends b :
  0 <= popcount8 b <= 8 /\ (popcount8 b = 0 <-> b = x00) /\
  (popcount8 b = 8 <-> b = xff).
Proof.
  destruct b; vm_compute; (split; [split; discriminate | ]);
    split; split; intros H; try discriminate H; reflexivity.
Qed.

(** X14: [popcount8] is between 0 and 8, 0 only for 0x00 and 8 only for
    0xFF; [mzf_cksum_add] adds it modulo 65536, so it stays within 16 bits
    and wraps from 65535 to 0; the checksum of a concatenation is the sum of
    the checksums modulo 65536 and does not depend on the order of the
    parts. *)
Theorem mzf_cksum_add_algebra :
  (forall b, 0 <= popcount8 b <= 8 /\ (popcount8 b = 0 <-> b = x00) /\
             (popcount8 b = 8 <-> b = xff)) /\
  (forall acc b, 0 <= mzf_cksum_add acc b < 65536 /\
                 mzf_cksum_add acc b = (acc + popcount8 b) mod 65536) /\
  mzf_cksum_add 65535 x01 = 0 /\
  (forall l1 l2,
     fold_left mzf_cksum_add (l1 ++ l2) 0 =
     (fold_left mzf_cksum_add l1 0 + fold_left mzf_cksum_add l2 0)
       mod 65536 /\
     fold_left mzf_cksum_add (l1 ++ l2) 0 =
     fold_left mzf_cksum_add (l2 ++ l1) 0).
Proof.
  split; [exact popcount8_ends | ]. split.
  { intros acc b. unfold mzf_cksum_add, u16. split; [lia | reflexivity]. }
  split; [reflexivity | ].
  intros l1 l2. rewrite !fold_cksum by lia. rewrite !map_app.
  assert (F : forall l l' : list Z,
            fold_right Z.add 0 (l ++ l') =
            fold_right Z.add 0 l + fold_right Z.add 0 l').
  { induction l as [ | x l IH]; intros l'; cbn [app fold_right]; [lia | ].
    rewrite IH. lia. }
  rewrite !F.
  generalize (fold_right Z.add 0 (map popcount_spec l1)),
             (fold_right Z.add 0 (map popcount_spec l2)).
  intros a b. split; [lia | ]. f_equal. lia.
Qed.

End MzfProofs.

(** ** The CAQ encoder *)

Module CaqProofs.
Import Caq.

Ltac fields :=
  cbn [caq_stage caq_saved_baudrate caq_baudrate_overridden caq_cur_byte
       caq_have_byte caq_bit_idx caq_halves_left caq_half_period currentPeriod
       currentID currentTask count_r bytesRead outByte BAUDRATE entry
       set_caq_stage set_caq_saved_baudrate set_caq_baudrate_overridden
       set_caq_cur_byte set_caq_have_byte set_caq_bit_idx
       set_caq_halves_left set_caq_half_period set_currentPeriod
       set_currentID set_currentTask set_count_r set_bytesRead set_outByte
       set_BAUDRATE set_entry].
Ltac fields_in H :=
  cbn [caq_stage caq_saved_baudrate caq_baudrate_overridden caq_cur_byte
       caq_have_byte caq_bit_idx caq_halves_left caq_half_period currentPeriod
       currentID currentTask count_r bytesRead outByte BAUDRATE entry
       set_caq_stage set_caq_saved_baudrate set_caq_baudrate_overridden
       set_caq_cur_byte set_caq_have_byte set_caq_bit_idx
       set_caq_halves_left set_caq_half_period set_currentPeriod
       set_currentID set_currentTask set_count_r set_bytesRead set_outByte
       set_BAUDRATE set_entry] in H.
Ltac flat :=
  cbv [caq_stage caq_saved_baudrate caq_baudrate_overridden caq_cur_byte
       caq_have_byte caq_bit_idx caq_halves_left caq_half_period currentPeriod
       currentID currentTask count_r bytesRead outByte BAUDRATE entry
       set_caq_stage set_caq_saved_baudrate set_caq_baudrate_overridden
       set_caq_cur_byte set_caq_have_byte set_caq_bit_idx
       set_caq_halves_left set_caq_half_period set_currentPeriod
       set_currentID set_currentTask set_count_r set_bytesRead set_outByte
       set_BAUDRATE set_entry].

(** *** [caq_process], as equations *)

(** [caq_process] in the pieces of its body. *)
Lemma caq_process_eq s :
  caq_process s =
  let s := set_currentPeriod 0 s in
  if negb (caq_halves_left s =? 0) then
    let s := set_currentPeriod (caq_half_period s) s in
    set_caq_halves_left (u8 (caq_halves_left s - 1)) s
  else caq_switch (caq_fetch s).
Proof. reflexivity. Qed.

(** Inside a bit the tick replays the half-period; between bits it fetches
    and switches. *)
Lemma tick_mid s :
  caq_halves_left s <> 0 ->
  caq_process s =
  set_caq_halves_left (u8 (caq_halves_left s - 1))
    (set_currentPeriod (caq_half_period s) (set_currentPeriod 0 s)).
Proof.
  intros H. rewrite caq_process_eq. cbv zeta. fields.
  apply Z.eqb_neq in H. rewrite H. reflexivity.
Qed.

Lemma tick_new s :
  caq_halves_left s = 0 ->
  caq_process s = caq_switch (caq_fetch (set_currentPeriod 0 s)).
Proof.
  intros H. rewrite caq_process_eq. cbv zeta. fields.
  rewrite H. reflexivity.
Qed.

(** The three outcomes of the fetch. *)
Lemma fetch_have s : caq_have_byte s = true -> caq_fetch s = s.
Proof. intros H. unfold caq_fetch. rewrite H. reflexivity. Qed.

Lemma fetch_some s b :
  caq_have_byte s = false -> byte_at (entry s) (bytesRead s) = Some b ->
  caq_fetch s =
  set_caq_bit_idx 7
    (set_caq_stage START_BIT
       (set_caq_have_byte true
          (set_caq_cur_byte b
             (set_outByte b (set_bytesRead (bytesRead s + 1) s))))).
Proof.
  intros H Hb. unfold caq_fetch, caq_get_next_byte, ReadByte.
  rewrite H, Hb. reflexivity.
Qed.

Lemma fetch_none s :
  caq_have_byte s = false -> byte_at (entry s) (bytesRead s) = None ->
  caq_fetch s = set_caq_stage DONE s.
Proof.
  intros H Hb. unfold caq_fetch, caq_get_next_byte, ReadByte.
  rewrite H, Hb. reflexivity.
Qed.

(** Evaluates the arithmetic on literals left in the goal. *)
Ltac lit_arith :=
  repeat match goal with
  | |- context [Z.sub ?x ?y] =>
      is_Z_lit x; is_Z_lit y;
      let v := eval cbv in (Z.sub x y) in change (Z.sub x y) with v
  | |- context [u8 ?x] =>
      is_Z_lit x; let v := eval cbv in (u8 x) in change (u8 x) with v
  | |- context [i8 ?x] =>
      is_Z_lit x; let v := eval cbv in (i8 x) in change (i8 x) with v
  | |- context [Z.ltb ?x ?y] =>
      is_Z_lit x; is_Z_lit y;
      let v := eval cbv in (Z.ltb x y) in change (Z.ltb x y) with v
  | |- context [Z.eqb ?x ?y] =>
      is_Z_lit x; is_Z_lit y;
      let v := eval cbv in (Z.eqb x y) in change (Z.eqb x y) with v
  end; cbv iota.

(** One more tick in front of a run. *)
Lemma run_cons n s s' p ps sf :
  caq_process s = s' -> currentPeriod s' = p -> run n s' = (ps, sf) ->
  run (S n) s = (p :: ps, sf).
Proof. intros <- <- H. cbn [run]. rewrite H. reflexivity. Qed.

Ltac side := fields; first [reflexivity | discriminate].

(** One tick on a state given as a record, with a byte in flight. *)
Ltac caq_step :=
  eapply run_cons;
  [ first
      [ rewrite tick_mid by side
      | rewrite tick_new by side; rewrite fetch_have by side ];
    unfold caq_switch, caq_first_half, caq_begin_bit; cbv zeta; fields;
    lit_arith; fields; lit_arith; flat; reflexivity
  | reflexivity
  | ].

(** The bit test of the code is [Z.testbit], for all 256 bytes. *)
Lemma caq_code_frame_eq b : caq_code_frame b = caq_frame b.
Proof. destruct b; vm_compute; reflexivity. Qed.

(** The 44 ticks that send byte [b], from the tick that fetches it. *)
Lemma byte_run s b :
  caq_halves_left s = 0 -> caq_have_byte s = false ->
  byte_at (entry s) (bytesRead s) = Some b ->
  run 44 s = (caq_wave (caq_code_frame b), caq_byte_sent b s).
Proof.
  destruct s. fields. intros -> -> Hb.
  unfold caq_wave, caq_code_frame, caq_byte_sent.
  cbv [flat_map map app repeat bit_half]. flat.
  (* the tick that fetches the byte and starts the start bit *)
  eapply run_cons;
    [ rewrite tick_new by side; rewrite (fetch_some _ b) by (fields; first [reflexivity | exact Hb]);
      unfold caq_switch, caq_first_half, caq_begin_bit; cbv zeta; fields;
      lit_arith; fields; lit_arith; flat; reflexivity
    | reflexivity | ].
  do 43 caq_step.
  reflexivity.
Qed.

(** After 43 of them one half-period of the second stop bit is left. *)
Lemma byte_run_43 s b :
  caq_halves_left s = 0 -> caq_have_byte s = false ->
  byte_at (entry s) (bytesRead s) = Some b ->
  caq_halves_left (snd (run 43 s)) = 1.
Proof.
  destruct s. fields. intros -> -> Hb.
  match goal with
  | |- context [run 43 ?t] =>
      assert (H : exists ps sf, run 43 t = (ps, sf) /\ caq_halves_left sf = 1)
  end.
  { eexists. eexists. split.
    - eapply run_cons;
        [ rewrite tick_new by side;
          rewrite (fetch_some _ b)
            by (fields; first [reflexivity | exact Hb]);
          unfold caq_switch, caq_first_half, caq_begin_bit; cbv zeta; fields;
          lit_arith; fields; lit_arith; flat; reflexivity
        | reflexivity | ].
      do 42 caq_step. reflexivity.
    - reflexivity. }
  destruct H as (ps & sf & -> & H). exact H.
Qed.

(** No half-period of a frame is the zero period. *)
Lemma caq_wave_nonzero bits : Forall (fun p => p <> 0) (caq_wave bits).
Proof.
  induction bits as [ | bit bits IH]; [constructor | ].
  unfold caq_wave in *. cbn [flat_map repeat app].
  destruct bit; repeat (constructor; [discriminate | ]); exact IH.
Qed.

(** C3: from the tick that fetches a byte, 44 ticks emit its frame: the
    start bit (4 space half-periods), the 8 data bits from bit 7 down to
    bit 0, the two stop bits (8 mark half-periods), 4 half-periods per bit
    and none of them zero; the next byte is not asked for before the 45th
    tick. *)
Theorem caq_byte_framing s b :
  caq_halves_left s = 0 -> caq_have_byte s = false ->
  byte_at (entry s) (bytesRead s) = Some b ->
  fst (run 44 s) = caq_wave (caq_frame b) /\
  length (fst (run 44 s)) = 44%nat /\
  Forall (fun p => p <> 0) (fst (run 44 s)) /\
  firstn 4 (fst (run 44 s)) = repeat CAQ_SPACE_HALF_US 4 /\
  skipn 36 (fst (run 44 s)) = repeat CAQ_MARK_HALF_US 8 /\
  caq_halves_left (snd (run 43 s)) = 1 /\
  caq_halves_left (snd (run 44 s)) = 0 /\
  caq_have_byte (snd (run 44 s)) = false /\
  bytesRead (snd (run 44 s)) = bytesRead s + 1.
Proof.
  intros Hh Hb Hrd. rewrite (byte_run s b Hh Hb Hrd), caq_code_frame_eq.
  cbn [fst snd].
  repeat split.
  - apply caq_wave_nonzero.
  - apply (byte_run_43 s b Hh Hb Hrd).
Qed.

(** The theorem on the first byte of [example_image]. *)
Lemma caq_byte_framing_witness :
  caq_halves_left (caq_init (power_on example_image 1200)) = 0 /\
  caq_have_byte (caq_init (power_on example_image 1200)) = false /\
  byte_at (entry (caq_init (power_on example_image 1200)))
    (bytesRead (caq_init (power_on example_image 1200))) = Some xa5 /\
  (fst (run 44 (caq_init (power_on example_image 1200))) =
   caq_wave (caq_frame xa5) /\
   length (fst (run 44 (caq_init (power_on example_image 1200)))) = 44%nat /\
   Forall (fun p => p <> 0)
     (fst (run 44 (caq_init (power_on example_image 1200)))) /\
   firstn 4 (fst (run 44 (caq_init (power_on example_image 1200)))) =
   repeat CAQ_SPACE_HALF_US 4 /\
   skipn 36 (fst (run 44 (caq_init (power_on example_image 1200)))) =
   repeat CAQ_MARK_HALF_US 8 /\
   caq_halves_left (snd (run 43 (caq_init (power_on example_image 1200)))) =
   1 /\
   caq_halves_left (snd (run 44 (caq_init (power_on example_image 1200)))) =
   0 /\
   caq_have_byte (snd (run 44 (caq_init (power_on example_image 1200)))) =
   false /\
   bytesRead (snd (run 44 (caq_init (power_on example_image 1200)))) =
   bytesRead (caq_init (power_on example_image 1200)) + 1).
Proof.
  assert (H0 : caq_halves_left (caq_init (power_on example_image 1200)) = 0)
    by reflexivity.
  assert (H1 : caq_have_byte (caq_init (power_on example_image 1200)) = false)
    by reflexivity.
  assert (H2 : byte_at (entry (caq_init (power_on example_image 1200)))
                 (bytesRead (caq_init (power_on example_image 1200))) =
               Some xa5)
    by reflexivity.
  exact (conj H0 (conj H1 (conj H2 (caq_byte_framing _ _ H0 H1 H2)))).
Defined.

(** *** What a tick does to the baud override and to the half-period *)

(** The fetch leaves the override, the rate and the bit in progress alone. *)
Lemma caq_fetch_frame s : fetch_frame s (caq_fetch s).
Proof.
  destruct (caq_have_byte s) eqn:Hb.
  - rewrite (fetch_have _ Hb). repeat split.
  - destruct (byte_at (entry s) (bytesRead s)) as [b | ] eqn:Hrd.
    + rewrite (fetch_some _ _ Hb Hrd). repeat split.
    + rewrite (fetch_none _ Hb Hrd). repeat split.
Qed.

(** The outcome of the [switch]: a new bit begins, or the session is
    done. *)
Lemma caq_switch_cases t :
  (caq_stage t <> DONE /\
   caq_stage (caq_switch t) <> DONE /\
   In (caq_half_period (caq_switch t)) [CAQ_MARK_HALF_US; CAQ_SPACE_HALF_US]
   /\ currentPeriod (caq_switch t) = caq_half_period (caq_switch t) /\
   caq_saved_baudrate (caq_switch t) = caq_saved_baudrate t /\
   caq_baudrate_overridden (caq_switch t) = caq_baudrate_overridden t /\
   BAUDRATE (caq_switch t) = BAUDRATE t) \/
  (caq_stage t = DONE /\ caq_switch t = caq_done t).
Proof.
  unfold caq_switch.
  destruct (caq_stage t) eqn:Ht; [left | left | left | left | right].
  - repeat split; try discriminate. right. left. reflexivity.
  - cbv zeta. unfold caq_first_half, caq_begin_bit. cbv zeta. fields.
    destruct (_ <? 0); fields; rewrite ?Ht;
      (repeat split; try discriminate);
      destruct (caq_bit _ _); cbn; auto.
  - repeat split; try discriminate. left. reflexivity.
  - repeat split; try discriminate. left. reflexivity.
  - split; reflexivity.
Qed.

(** The [case DONE] restores the rate when the override is set. *)
Lemma caq_done_effect t :
  caq_stage (caq_done t) = caq_stage t /\
  caq_halves_left (caq_done t) = caq_halves_left t /\
  caq_half_period (caq_done t) = caq_half_period t /\
  currentPeriod (caq_done t) = 0 /\
  caq_baudrate_overridden (caq_done t) = false /\
  BAUDRATE (caq_done t) =
  (if caq_baudrate_overridden t then caq_saved_baudrate t else BAUDRATE t).
Proof.
  unfold caq_done. cbv zeta.
  destruct (caq_baudrate_overridden t) eqn:Ho; fields; rewrite ?Ho;
    repeat split.
Qed.

(** [caq_init], a tick and a change of image keep [baud_inv]. *)
Lemma tick_baud V s :
  baud_inv V s ->
  baud_inv V (caq_process s) /\
  (caq_stage (caq_process s) = DONE ->
   BAUDRATE (caq_process s) = V /\
   caq_baudrate_overridden (caq_process s) = false).
Proof.
  intros [Hd Hb]. destruct (Z.eq_dec (caq_halves_left s) 0) as [Hh | Hh].
  - rewrite (tick_new _ Hh).
    destruct (caq_fetch_frame (set_currentPeriod 0 s))
      as (F1 & F2 & F3 & F4 & _).
    fields_in F1. fields_in F2. fields_in F3. fields_in F4.
    revert F1 F2 F3 F4. generalize (caq_fetch (set_currentPeriod 0 s)).
    intros t F1 F2 F3 F4.
    destruct (caq_switch_cases t)
      as [(_ & Hn & _ & _ & G1 & G2 & G3) | (Ht & ->)].
    + split; [ | intros E; contradiction ].
      split; [intros E; contradiction | ].
      rewrite G1, G2, G3, F1, F2, F3. exact Hb.
    + destruct (caq_done_effect t) as (D1 & D2 & _ & _ & D5 & D6).
      assert (HV : BAUDRATE (caq_done t) = V).
      { rewrite D6, F1, F2, F3.
        destruct Hb as [(-> & Hs & _) | (-> & HB)]; assumption. }
      split; [ | intros _; split; assumption ].
      split; [intros _; rewrite D2, F4; exact Hh | ].
      right. split; assumption.
  - rewrite (tick_mid _ Hh). fields.
    assert (Hs : caq_stage s <> DONE) by (intros E; apply Hh, Hd, E).
    split; [ | intros E; contradiction ].
    split; [intros E; contradiction | exact Hb].
Qed.

Lemma init_baud V s :
  baud_inv V s -> baud_inv V (caq_init s).
Proof.
  intros [_ Hb]. unfold caq_init. cbv zeta. fields.
  destruct Hb as [(Ho & Hs & HB) | (Ho & HB)]; rewrite Ho; cbn [negb];
    fields; (split; [discriminate | ]).
  - left. repeat split; assumption.
  - left. repeat split. exact HB.
Qed.

(** After [caq_init] the override is set. *)
Lemma init_overrides s : caq_baudrate_overridden (caq_init s) = true.
Proof.
  unfold caq_init. cbv zeta. fields.
  destruct (caq_baudrate_overridden s) eqn:Ho; cbn [negb]; fields;
    [exact Ho | reflexivity].
Qed.

Lemma calls_baud V cs : forall s,
  baud_inv V s -> baud_inv V (do_calls cs s).
Proof.
  induction cs as [ | c cs IH]; intros s H; [exact H | ].
  cbn [do_calls fold_left]. apply IH. destruct c; cbn [do_call].
  - apply init_baud, H.
  - apply (tick_baud V s H).
  - exact H.
Qed.

(** The half-period replayed between bits is always a protocol constant. *)
Lemma tick_half_period s :
  In (caq_half_period s) caq_periods ->
  In (currentPeriod (caq_process s)) caq_periods /\
  In (caq_half_period (caq_process s)) caq_periods.
Proof.
  intros H. destruct (Z.eq_dec (caq_halves_left s) 0) as [Hh | Hh].
  - rewrite (tick_new _ Hh).
    destruct (caq_fetch_frame (set_currentPeriod 0 s))
      as (_ & _ & _ & _ & F5 & _).
    fields_in F5. revert F5. generalize (caq_fetch (set_currentPeriod 0 s)).
    intros t F5.
    destruct (caq_switch_cases t)
      as [(_ & _ & Hp & Hc & _) | (Ht & ->)].
    + rewrite Hc. split; right; exact Hp.
    + destruct (caq_done_effect t) as (_ & _ & D3 & D4 & _).
      rewrite D3, D4, F5. split; [left; reflexivity | exact H].
  - rewrite (tick_mid _ Hh). fields. split; exact H.
Qed.

Lemma reachable_half_period s :
  reachable s -> In (caq_half_period s) caq_periods.
Proof.
  induction 1 as [f baud | s _ IH | s _ IH | s s' _ IH Hs].
  - left. reflexivity.
  - unfold caq_init. cbv zeta. fields.
    destruct (negb _); fields; right; right; left; reflexivity.
  - apply (tick_half_period s IH).
  - destruct Hs as (_ & _ & _ & _ & _ & _ & _ & ->). exact IH.
Qed.

(** The half-period a tick stores is one of the three values of
    [caq_periods], from every reachable state. *)
Lemma caq_tick_period s :
  reachable s -> In (currentPeriod (caq_process s)) caq_periods.
Proof.
  intros H. apply tick_half_period, reachable_half_period, H.
Qed.

(** *** Whole playbacks *)

(** Runs compose. *)
Lemma run_app a : forall b s,
  run (a + b) s =
  (fst (run a s) ++ fst (run b (snd (run a s))),
   snd (run b (snd (run a s)))).
Proof.
  induction a as [ | a IH]; intros b s.
  - cbn [run fst snd app Nat.add]. destruct (run b s); reflexivity.
  - cbn [Nat.add run fst snd]. rewrite IH. reflexivity.
Qed.

(** The bytes [bs] of the image from the read position on: 44 ticks each. *)
Lemma stream_run bs : forall s pre post,
  caq_halves_left s = 0 -> caq_have_byte s = false ->
  f_io_ok (entry s) = true ->
  f_bytes (entry s) = pre ++ bs ++ post ->
  bytesRead s = Z.of_nat (length pre) ->
  exists t,
    run (44 * length bs) s = (caq_tape bs, t) /\
    caq_halves_left t = 0 /\ caq_have_byte t = false /\
    bytesRead t = bytesRead s + Z.of_nat (length bs) /\
    same_session s t.
Proof.
  induction bs as [ | x bs IH]; intros s pre post Hh Hb Hio Hf Hr.
  - exists s. cbn [length Nat.mul run caq_tape flat_map].
    repeat split; try assumption. lia.
  - assert (Hat : byte_at (entry s) (bytesRead s) = Some x).
    { unfold byte_at. rewrite Hio, Hr, Hf, Nat2Z.id.
      replace (0 <=? Z.of_nat (length pre)) with true by lia.
      cbn [andb]. rewrite nth_error_app2 by lia.
      rewrite Nat.sub_diag. reflexivity. }
    pose proof (byte_run s x Hh Hb Hat) as R.
    rewrite caq_code_frame_eq in R.
    assert (Hx : exists b, caq_byte_sent x s = b /\
                 caq_halves_left b = 0 /\ caq_have_byte b = false /\
                 bytesRead b = bytesRead s + 1 /\ same_session s b).
    { eexists. split; [reflexivity | ]. unfold caq_byte_sent, same_session.
      fields. repeat split. }
    destruct Hx as (b & Eb & Hhb & Hbb & Hrb & Hsame).
    rewrite Eb in R. clear Eb.
    destruct Hsame as (E1 & E2 & E3 & E4 & E5 & E6 & E7).
    destruct (IH b (pre ++ [x]) post) as (t & Rt & Ht1 & Ht2 & Ht3 & Ht4);
      try assumption.
    { rewrite E1. exact Hio. }
    { rewrite E1, Hf, <- app_assoc. reflexivity. }
    { rewrite Hrb, Hr, length_app. cbn [length]. lia. }
    exists t.
    replace (44 * length (x :: bs))%nat with (44 + 44 * length bs)%nat
      by (cbn [length]; lia).
    rewrite run_app, R. cbn [fst snd]. rewrite Rt. cbn [fst snd].
    split; [reflexivity | ]. split; [exact Ht1 | ]. split; [exact Ht2 | ].
    split; [rewrite Ht3, Hrb; cbn [length]; lia | ].
    destruct Ht4 as (F1 & F2 & F3 & F4 & F5 & F6 & F7).
    unfold same_session. rewrite F1, F2, F3, F4, F5, F6, F7.
    repeat split; assumption.
Qed.

(** The tick that finds no byte, and the ticks after it. *)
Lemma end_tick t :
  caq_halves_left t = 0 -> caq_have_byte t = false ->
  byte_at (entry t) (bytesRead t) = None ->
  caq_process t = caq_done (set_caq_stage DONE (set_currentPeriod 0 t)).
Proof.
  intros Hh Hb Hn. rewrite (tick_new _ Hh).
  rewrite fetch_none by (fields; assumption).
  unfold caq_switch. fields. reflexivity.
Qed.

Lemma done_fix t :
  caq_halves_left t = 0 -> caq_have_byte t = false ->
  byte_at (entry t) (bytesRead t) = None ->
  caq_process (caq_process t) = caq_process t.
Proof.
  intros Hh Hb Hn. rewrite (end_tick _ Hh Hb Hn).
  rewrite end_tick.
  - destruct t as [? ? ov ? ? ? ? ? ? ? ? ? ? ? ? ?].
    unfold caq_done. cbv zeta. fields.
    destruct ov; flat; reflexivity.
  - unfold caq_done. cbv zeta. fields.
    destruct (caq_baudrate_overridden t); fields; exact Hh.
  - unfold caq_done. cbv zeta. fields.
    destruct (caq_baudrate_overridden t); fields; exact Hb.
  - unfold caq_done. cbv zeta. fields.
    destruct (caq_baudrate_overridden t); fields; exact Hn.
Qed.

Lemma end_period t :
  caq_halves_left t = 0 -> caq_have_byte t = false ->
  byte_at (entry t) (bytesRead t) = None ->
  currentPeriod (caq_process t) = 0.
Proof.
  intros Hh Hb Hn. rewrite (end_tick _ Hh Hb Hn). reflexivity.
Qed.

(** A state that a tick leaves as it is. *)
Lemma run_fix k u :
  caq_process u = u -> currentPeriod u = 0 -> run k u = (repeat 0 k, u).
Proof.
  intros Hf Hp. induction k as [ | k IH]; [reflexivity | ].
  cbn [run repeat]. rewrite Hf, Hp, IH. reflexivity.
Qed.

Lemma run_end k t :
  caq_halves_left t = 0 -> caq_have_byte t = false ->
  byte_at (entry t) (bytesRead t) = None ->
  run (S k) t = (repeat 0 (S k), caq_process t).
Proof.
  intros Hh Hb Hn. cbn [run repeat].
  rewrite (run_fix k (caq_process t));
    [ | apply done_fix; assumption | apply end_period; assumption].
  cbn [fst snd]. rewrite end_period by assumption. reflexivity.
Qed.

(** All the bytes from the read position on, and nothing left to read. *)
Lemma stream_played s :
  caq_halves_left s = 0 -> caq_have_byte s = false ->
  f_io_ok (entry s) = true -> 0 <= bytesRead s ->
  exists t,
    run (44 * length (unread s)) s = (caq_tape (unread s), t) /\
    caq_halves_left t = 0 /\ caq_have_byte t = false /\
    byte_at (entry t) (bytesRead t) = None /\
    bytesRead t = bytesRead s + Z.of_nat (length (unread s)) /\
    same_session s t.
Proof.
  intros Hh Hb Hio H0. unfold unread.
  set (k := Z.to_nat (bytesRead s)).
  destruct (Nat.le_gt_cases k (length (f_bytes (entry s)))) as [Hk | Hk].
  - destruct (stream_run (skipn k (f_bytes (entry s))) s
                (firstn k (f_bytes (entry s))) [])
      as (t & R & Ht1 & Ht2 & Ht3 & Ht4); try assumption.
    { rewrite app_nil_r, firstn_skipn. reflexivity. }
    { rewrite length_firstn. lia. }
    exists t. repeat split; try assumption; try apply Ht4.
    destruct Ht4 as (E1 & _). unfold byte_at. rewrite E1, Hio.
    replace (0 <=? bytesRead t) with true by lia. cbn [andb].
    apply nth_error_None. rewrite Ht3, length_skipn. lia.
  - rewrite skipn_all2 by lia. exists s.
    cbn [length Nat.mul run caq_tape flat_map].
    repeat split; try assumption; try lia.
    unfold byte_at. rewrite Hio.
    replace (0 <=? bytesRead s) with true by lia. cbn [andb].
    apply nth_error_None. lia.
Qed.

(** Shorter runs are prefixes of longer ones. *)
Lemma run_prefix n : forall m s,
  (n <= m)%nat -> fst (run n s) = firstn n (fst (run m s)).
Proof.
  induction n as [ | n IH]; intros m s Hl; [reflexivity | ].
  destruct m as [ | m]; [lia | ].
  cbn [run fst firstn]. apply f_equal. apply IH. lia.
Qed.

(** 44 half-periods per byte. *)
Lemma caq_tape_length bs : length (caq_tape bs) = (44 * length bs)%nat.
Proof.
  induction bs as [ | b bs IH]; [reflexivity | ].
  unfold caq_tape in *. cbn [flat_map]. rewrite length_app, IH.
  change (length (caq_wave (caq_frame b))) with 44%nat.
  cbn [length]. lia.
Qed.

(** The first [n] half-periods of a playback, for every [n]. *)
Lemma run_closed s n :
  caq_halves_left s = 0 -> caq_have_byte s = false ->
  f_io_ok (entry s) = true -> 0 <= bytesRead s ->
  fst (run n s) = firstn n (caq_tape (unread s) ++ repeat 0 n).
Proof.
  intros Hh Hb Hio H0.
  destruct (stream_played s Hh Hb Hio H0)
    as (t & R & Ht1 & Ht2 & Ht3 & _).
  pose proof (caq_tape_length (unread s)) as HL.
  revert R HL. generalize (caq_tape (unread s)) (44 * length (unread s))%nat.
  intros w L R HL.
  destruct (Nat.le_gt_cases n L) as [Hl | Hl].
  - rewrite (run_prefix n L) by exact Hl. rewrite R. cbn [fst].
    rewrite firstn_app. replace (n - length w)%nat with 0%nat by lia.
    cbn [firstn]. rewrite app_nil_r. reflexivity.
  - replace n with (L + S (n - L - 1))%nat at 1 by lia.
    rewrite run_app, R. cbn [fst snd].
    rewrite (run_end _ t Ht1 Ht2 Ht3). cbn [fst].
    rewrite firstn_app, firstn_all2 by lia. apply f_equal.
    symmetry. replace (n - length w)%nat with (S (n - L - 1)) by lia.
    apply firstn_repeat_le. lia.
Qed.

(** [caq_init] leaves the encoder between bits, without a byte, and the
    image and the read position as they are. *)
Lemma init_ready s :
  caq_halves_left (caq_init s) = 0 /\ caq_have_byte (caq_init s) = false /\
  entry (caq_init s) = entry s /\ bytesRead (caq_init s) = bytesRead s /\
  unread (caq_init s) = unread s.
Proof.
  unfold unread, caq_init. cbv zeta. fields.
  destruct (caq_baudrate_overridden s); fields; repeat split.
Qed.

(** The same after [caq_init]. *)
Lemma init_run_closed s n :
  f_io_ok (entry s) = true -> 0 <= bytesRead s ->
  fst (run n (caq_init s)) = firstn n (caq_tape (unread s) ++ repeat 0 n).
Proof.
  intros Hio H0. destruct (init_ready s) as (Hh & Hb & He & Hr & Hu).
  rewrite <- Hu. apply run_closed; try assumption.
  - rewrite He. exact Hio.
  - rewrite Hr. exact H0.
Qed.

(** X9: after [caq_init] on an image that answers reads, the half-periods
    are the frames of the bytes from the read position on, 44 non-zero
    half-periods per byte, and zero periods from then on.  This gives the
    first [n] half-periods for every [n]. *)
Theorem caq_playback_wave s n :
  f_io_ok (entry s) = true -> 0 <= bytesRead s ->
  fst (run n (caq_init s)) = firstn n (caq_tape (unread s) ++ repeat 0 n) /\
  length (caq_tape (unread s)) = (44 * length (unread s))%nat /\
  Forall (fun p => p <> 0) (caq_tape (unread s)).
Proof.
  intros Hio H0. split; [apply init_run_closed; assumption | ].
  split; [apply caq_tape_length | ].
  unfold caq_tape. induction (unread s) as [ | b l IH]; [constructor | ].
  cbn [flat_map]. apply Forall_app. split; [ | exact IH].
  apply caq_wave_nonzero.
Qed.

(** The theorem on [example_image] at 1200 baud. *)
Lemma caq_playback_wave_witness :
  f_io_ok (entry (power_on example_image 1200)) = true /\
  0 <= bytesRead (power_on example_image 1200) /\
  (fst (run 200 (caq_init (power_on example_image 1200))) =
   firstn 200
     (caq_tape (unread (power_on example_image 1200)) ++ repeat 0 200) /\
   length (caq_tape (unread (power_on example_image 1200))) =
   (44 * length (unread (power_on example_image 1200)))%nat /\
   Forall (fun p => p <> 0)
     (caq_tape (unread (power_on example_image 1200)))).
Proof.
  assert (H0 : f_io_ok (entry (power_on example_image 1200)) = true)
    by reflexivity.
  assert (H1 : 0 <= bytesRead (power_on example_image 1200))
    by (vm_compute; discriminate).
  exact (conj H0 (conj H1 (caq_playback_wave _ 200 H0 H1))).
Defined.

(** X10: the tick after the last frame, and every tick after it, leaves
    the same state: stage DONE, period 0, the end-of-file id, task
    PROCESSID, [count_r] 255, the override cleared, the rate back at the
    value [caq_init] saved (or had found saved), the read position at the
    end of the image. *)
Theorem caq_playback_end s k :
  f_io_ok (entry s) = true -> 0 <= bytesRead s ->
  exists t,
    run (44 * length (unread s) + S k) (caq_init s) =
    (caq_tape (unread s) ++ repeat 0 (S k), t) /\
    caq_stage t = DONE /\ currentPeriod t = 0 /\
    currentID t = IDEOF /\ currentTask t = PROCESSID /\ count_r t = 255 /\
    caq_baudrate_overridden t = false /\
    BAUDRATE t =
    (if caq_baudrate_overridden s then caq_saved_baudrate s
     else BAUDRATE s) /\
    bytesRead t = bytesRead s + Z.of_nat (length (unread s)) /\
    caq_process t = t.
Proof.
  intros Hio H0. destruct (init_ready s) as (Hh & Hb & He & Hr & Hu).
  destruct (stream_played (caq_init s) Hh Hb)
    as (t & R & Ht1 & Ht2 & Ht3 & Ht4 & Hsame);
    [rewrite He; exact Hio | rewrite Hr; exact H0 | ].
  rewrite Hu in R, Ht4. rewrite Hr in Ht4.
  exists (caq_process t). rewrite run_app, R. cbn [fst snd].
  rewrite (run_end _ t Ht1 Ht2 Ht3). cbn [fst snd].
  split; [reflexivity | ].
  assert (Hinit : caq_baudrate_overridden (caq_init s) = true /\
                  caq_saved_baudrate (caq_init s) =
                  (if caq_baudrate_overridden s then caq_saved_baudrate s
                   else BAUDRATE s)).
  { unfold caq_init. cbv zeta. fields.
    destruct (caq_baudrate_overridden s) eqn:Hov0; cbn [negb]; fields;
      rewrite ?Hov0; split; reflexivity. }
  destruct Hinit as [Hov Hsaved].
  destruct Hsame as (_ & _ & E3 & E4 & _).
  rewrite Hov in E4. rewrite Hsaved in E3.
  rewrite (end_tick _ Ht1 Ht2 Ht3) at 1 2 3 4 5 6 7 8.
  unfold caq_done. cbv zeta. fields. rewrite E4. fields.
  repeat split; try assumption.
  apply done_fix; assumption.
Qed.

(** The theorem on [example_image] at 1200 baud. *)
Lemma caq_playback_end_witness :
  f_io_ok (entry (power_on example_image 1200)) = true /\
  0 <= bytesRead (power_on example_image 1200) /\
  exists t,
    run (44 * length (unread (power_on example_image 1200)) + 1)
      (caq_init (power_on example_image 1200)) =
    (caq_tape (unread (power_on example_image 1200)) ++ repeat 0 1, t) /\
    caq_stage t = DONE /\ currentPeriod t = 0 /\
    currentID t = IDEOF /\ currentTask t = PROCESSID /\ count_r t = 255 /\
    caq_baudrate_overridden t = false /\
    BAUDRATE t =
    (if caq_baudrate_overridden (power_on example_image 1200)
     then caq_saved_baudrate (power_on example_image 1200)
     else BAUDRATE (power_on example_image 1200)) /\
    bytesRead t =
    bytesRead (power_on example_image 1200) +
    Z.of_nat (length (unread (power_on example_image 1200))) /\
    caq_process t = t.
Proof.
  assert (H0 : f_io_ok (entry (power_on example_image 1200)) = true)
    by reflexivity.
  assert (H1 : 0 <= bytesRead (power_on example_image 1200))
    by (vm_compute; discriminate).
  exact (conj H0 (conj H1 (caq_playback_end _ 0 H0 H1))).
Defined.

(** *** The counters stay in range *)

(** The [switch] keeps [caq_inv], and so do a tick and [caq_init]. *)
Lemma caq_inv_switch t :
  -1 <= caq_bit_idx t <= 7 ->
  (caq_stage t = START_BIT -> caq_bit_idx t = 7) ->
  (caq_stage t = DATA_BITS -> 0 <= caq_bit_idx t) ->
  (caq_stage t = DONE -> caq_have_byte t = false) ->
  caq_halves_left t = 0 ->
  caq_inv (caq_switch t).
Proof.
  intros Hi Hs Hd Hdn Hh. unfold caq_inv, caq_switch.
  destruct (caq_stage t) eqn:St.
  - specialize (Hs eq_refl).
    unfold caq_first_half, caq_begin_bit. cbv zeta. fields.
    unfold u8. repeat split; try lia; try discriminate.
  - specialize (Hd eq_refl).
    unfold caq_first_half, caq_begin_bit. cbv zeta. fields.
    assert (Ei : i8 (caq_bit_idx t - 1) = caq_bit_idx t - 1)
      by (unfold i8; lia).
    rewrite Ei.
    destruct (caq_bit_idx t - 1 <? 0) eqn:Hlt; fields; rewrite ?St;
      unfold u8; repeat split; try lia; try discriminate.
  - unfold caq_first_half, caq_begin_bit. cbv zeta. fields.
    unfold u8. repeat split; try lia; try discriminate.
  - unfold caq_first_half, caq_begin_bit. cbv zeta. fields.
    unfold u8. repeat split; try lia; try discriminate; reflexivity.
  - specialize (Hdn eq_refl). unfold caq_done. cbv zeta.
    destruct (caq_baudrate_overridden t); fields; rewrite ?St;
      repeat split; try lia; try discriminate; assumption.
Qed.

Lemma caq_inv_tick s : caq_inv s -> caq_inv (caq_process s).
Proof.
  intros (Hi & Hh & Hs & Hd & Hdn).
  destruct (Z.eq_dec (caq_halves_left s) 0) as [Hz | Hz].
  - rewrite (tick_new _ Hz).
    destruct (caq_have_byte s) eqn:Hb.
    + rewrite fetch_have by (fields; exact Hb).
      apply caq_inv_switch; fields; try assumption.
      * intros E. specialize (Hs E). congruence.
      * intros E. destruct (Hdn E). congruence.
    + destruct (byte_at (entry s) (bytesRead s)) as [b | ] eqn:Hat.
      * rewrite (fetch_some _ b) by (fields; assumption).
        apply caq_inv_switch; fields; try lia; try reflexivity;
          discriminate.
      * rewrite fetch_none by (fields; assumption).
        apply caq_inv_switch; fields; try assumption; try discriminate.
        intros _. exact Hb.
  - rewrite (tick_mid _ Hz). unfold caq_inv. fields. unfold u8.
    repeat split; try lia; try assumption; try (apply Hdn; assumption).
Qed.

Lemma caq_inv_init s : -1 <= caq_bit_idx s <= 7 -> caq_inv (caq_init s).
Proof.
  intros _. unfold caq_inv, caq_init. cbv zeta. fields.
  destruct (caq_baudrate_overridden s); fields;
    repeat split; try lia; try discriminate.
Qed.

(** Every reachable state satisfies [caq_inv]. *)
Lemma reachable_inv s : reachable s -> caq_inv s.
Proof.
  induction 1 as [f baud | s _ IH | s _ IH | s s' _ IH Hsame].
  - unfold caq_inv, power_on. fields. repeat split; try lia; discriminate.
  - apply caq_inv_init, IH.
  - apply caq_inv_tick, IH.
  - destruct Hsame as (E1 & _ & _ & _ & E5 & E6 & E7 & _).
    unfold caq_inv. rewrite E1, E5, E6, E7. exact IH.
Qed.

(** X11: in every reachable state the bit index is between -1 and 7 and
    the half-period counter between 0 and 3; DATA_BITS is only seen with a
    bit index of 0 to 7, so the shift by it is never negative and its
    decrement never wraps; START_BIT is only seen without a byte loaded, and
    DONE only between bits and without a byte. *)
Theorem caq_counters_in_range s :
  reachable s ->
  -1 <= caq_bit_idx s <= 7 /\ 0 <= caq_halves_left s <= 3 /\
  (caq_stage s = DATA_BITS -> 0 <= caq_bit_idx s) /\
  (caq_stage s = START_BIT -> caq_have_byte s = false) /\
  (caq_stage s = DONE -> caq_halves_left s = 0 /\ caq_have_byte s = false) /\
  i8 (caq_bit_idx s - 1) = caq_bit_idx s - 1.
Proof.
  intros H. destruct (reachable_inv _ H) as (Hi & Hh & Hs & Hd & Hdn).
  repeat split; try lia; try (apply Hs; assumption);
    try (apply Hd; assumption); try (apply Hdn; assumption).
  unfold i8. lia.
Qed.

(** The theorem on the first tick of a session. *)
Lemma caq_counters_in_range_witness :
  reachable (caq_process (caq_init (power_on example_image 1200))) /\
  (-1 <= caq_bit_idx (caq_process (caq_init (power_on example_image 1200)))
   <= 7 /\
   0 <= caq_halves_left
          (caq_process (caq_init (power_on example_image 1200))) <= 3 /\
   (caq_stage (caq_process (caq_init (power_on example_image 1200))) =
    DATA_BITS ->
    0 <= caq_bit_idx (caq_process (caq_init (power_on example_image 1200))))
   /\
   (caq_stage (caq_process (caq_init (power_on example_image 1200))) =
    START_BIT ->
    caq_have_byte (caq_process (caq_init (power_on example_image 1200))) =
    false) /\
   (caq_stage (caq_process (caq_init (power_on example_image 1200))) =
    DONE ->
    caq_halves_left (caq_process (caq_init (power_on example_image 1200))) =
    0 /\
    caq_have_byte (caq_process (caq_init (power_on example_image 1200))) =
    false) /\
   i8 (caq_bit_idx (caq_process (caq_init (power_on example_image 1200)))
       - 1) =
   caq_bit_idx (caq_process (caq_init (power_on example_image 1200))) - 1).
Proof.
  assert (H0 : reachable
                 (caq_process (caq_init (power_on example_image 1200))))
    by (apply reach_process, reach_init, reach_power_on).
  exact (conj H0 (caq_counters_in_range _ H0)).
Defined.

(** X12: DONE does not hold the encoder back: a tick in DONE that finds
    a byte at the read position sends its frame like any other; the rate,
    the override flag and [currentID] are left as they are, since only
    [caq_init] installs the override and sets the id. *)
Theorem caq_resumes_after_done s b :
  reachable s -> caq_stage s = DONE ->
  byte_at (entry s) (bytesRead s) = Some b ->
  fst (run 44 s) = caq_wave (caq_frame b) /\
  caq_stage (caq_process s) = DATA_BITS /\
  BAUDRATE (snd (run 44 s)) = BAUDRATE s /\
  caq_baudrate_overridden (snd (run 44 s)) = caq_baudrate_overridden s /\
  currentID (snd (run 44 s)) = currentID s.
Proof.
  intros Hr Hs Hat.
  destruct (reachable_inv _ Hr) as (_ & _ & _ & _ & Hdn).
  destruct (Hdn Hs) as [Hh Hb].
  pose proof (byte_run s b Hh Hb Hat) as R.
  rewrite caq_code_frame_eq in R. rewrite R. cbn [fst snd].
  split; [reflexivity | ]. split.
  - rewrite (tick_new _ Hh).
    rewrite (fetch_some _ b) by (fields; assumption).
    unfold caq_switch, caq_first_half, caq_begin_bit. fields. reflexivity.
  - unfold caq_byte_sent. fields. repeat split.
Qed.

(** The theorem on a tick at power-on, with the image open and no
    [caq_init]. *)
Lemma caq_resumes_after_done_witness :
  reachable (power_on example_image 1200) /\
  caq_stage (power_on example_image 1200) = DONE /\
  byte_at (entry (power_on example_image 1200))
    (bytesRead (power_on example_image 1200)) = Some xa5 /\
  (fst (run 44 (power_on example_image 1200)) = caq_wave (caq_frame xa5) /\
   caq_stage (caq_process (power_on example_image 1200)) = DATA_BITS /\
   BAUDRATE (snd (run 44 (power_on example_image 1200))) =
   BAUDRATE (power_on example_image 1200) /\
   caq_baudrate_overridden (snd (run 44 (power_on example_image 1200))) =
   caq_baudrate_overridden (power_on example_image 1200) /\
   currentID (snd (run 44 (power_on example_image 1200))) =
   currentID (power_on example_image 1200)).
Proof.
  assert (H0 : reachable (power_on example_image 1200))
    by apply reach_power_on.
  assert (H1 : caq_stage (power_on example_image 1200) = DONE)
    by reflexivity.
  assert (H2 : byte_at (entry (power_on example_image 1200))
                 (bytesRead (power_on example_image 1200)) = Some xa5)
    by reflexivity.
  exact (conj H0 (conj H1 (conj H2 (caq_resumes_after_done _ _ H0 H1 H2)))).
Defined.

(** *** The wave determines the bytes *)

(** Reading a frame back gives the byte, for all 256 bytes. *)
Lemma frame_byte_wave b : frame_byte (caq_wave (caq_frame b)) = b.
Proof. destruct b; vm_compute; reflexivity. Qed.

Lemma frame_inj x y :
  caq_wave (caq_frame x) = caq_wave (caq_frame y) -> x = y.
Proof.
  intros E. rewrite <- (frame_byte_wave x), E. apply frame_byte_wave.
Qed.

(** The wave of a byte sequence followed by the zero period delimits
    itself. *)
Lemma caq_tape_inj l1 : forall l2 X Y,
  caq_tape l1 ++ 0 :: X = caq_tape l2 ++ 0 :: Y -> l1 = l2.
Proof.
  induction l1 as [ | x l1 IH]; intros [ | y l2] X Y E.
  - reflexivity.
  - exfalso. discriminate E.
  - exfalso. discriminate E.
  - unfold caq_tape in E. cbn [flat_map] in E.
    rewrite <- !app_assoc in E.
    apply app_inj_length in E; [ | reflexivity].
    destruct E as [E1 E2]. apply frame_inj in E1. subst y.
    rewrite (IH l2 X Y E2). reflexivity.
Qed.

(** A wave followed by [k] zero periods. *)
Lemma padded_run (w : list Z) k :
  firstn (length w + k) (w ++ repeat 0 (length w + k)) = w ++ repeat 0 k.
Proof.
  rewrite firstn_app, firstn_all2 by lia. apply f_equal.
  replace (length w + k - length w)%nat with k by lia.
  apply firstn_repeat_le. lia.
Qed.

(** X13: two playbacks that emit the same half-periods at every
    tick sent the same bytes. *)
Theorem caq_playback_lossless s1 s2 :
  f_io_ok (entry s1) = true -> 0 <= bytesRead s1 ->
  f_io_ok (entry s2) = true -> 0 <= bytesRead s2 ->
  (forall n, fst (run n (caq_init s1)) = fst (run n (caq_init s2))) ->
  unread s1 = unread s2.
Proof.
  intros Hio1 H1 Hio2 H2 Hsame.
  pose proof (fun n => init_run_closed s1 n Hio1 H1) as C1.
  pose proof (fun n => init_run_closed s2 n Hio2 H2) as C2.
  revert C1 C2 Hsame.
  generalize (caq_init s1), (caq_init s2), (unread s1), (unread s2).
  intros a1 a2 l1 l2 C1 C2 Hsame.
  assert (E1 : fst (run (length (caq_tape l1) + S (length (caq_tape l2))) a1)
               = caq_tape l1 ++ repeat 0 (S (length (caq_tape l2))))
    by (rewrite C1; apply padded_run).
  assert (E2 : fst (run (length (caq_tape l1) + S (length (caq_tape l2))) a2)
               = caq_tape l2 ++ repeat 0 (S (length (caq_tape l1)))).
  { replace (length (caq_tape l1) + S (length (caq_tape l2)))%nat
      with (length (caq_tape l2) + S (length (caq_tape l1)))%nat by lia.
    rewrite C2. apply padded_run. }
  rewrite Hsame, E2 in E1. cbn [repeat] in E1.
  apply caq_tape_inj in E1. symmetry. exact E1.
Qed.

(** The theorem on two playbacks of [example_image]. *)
Lemma caq_playback_lossless_witness :
  f_io_ok (entry (power_on example_image 1200)) = true /\
  0 <= bytesRead (power_on example_image 1200) /\
  (forall n, fst (run n (caq_init (power_on example_image 1200))) =
             fst (run n (caq_init (power_on example_image 1200)))) /\
  unread (power_on example_image 1200) =
  unread (power_on example_image 1200).
Proof.
  assert (H0 : f_io_ok (entry (power_on example_image 1200)) = true)
    by reflexivity.
  assert (H1 : 0 <= bytesRead (power_on example_image 1200))
    by (vm_compute; discriminate).
  assert (H2 : forall n,
             fst (run n (caq_init (power_on example_image 1200))) =
             fst (run n (caq_init (power_on example_image 1200))))
    by reflexivity.
  exact (conj H0 (conj H1 (conj H2
           (caq_playback_lossless _ _ H0 H1 H0 H1 H2)))).
Defined.

(** *** The baud override, from [caq_init] to DONE *)

(** Between bytes, the ticks that send what is left to read end where
    nothing is left, with the rate and the override as they were. *)
Lemma drained t :
  caq_halves_left t = 0 -> caq_have_byte t = false ->
  exists m t',
    snd (run m t) = t' /\
    caq_halves_left t' = 0 /\ caq_have_byte t' = false /\
    byte_at (entry t') (bytesRead t') = None /\
    BAUDRATE t' = BAUDRATE t /\
    caq_saved_baudrate t' = caq_saved_baudrate t /\
    caq_baudrate_overridden t' = caq_baudrate_overridden t.
Proof.
  intros Hh Hb.
  destruct (byte_at (entry t) (bytesRead t)) as [b | ] eqn:Hat.
  - assert (Hio : f_io_ok (entry t) = true /\ 0 <= bytesRead t).
    { unfold byte_at in Hat. destruct (f_io_ok (entry t)); [ | discriminate].
      destruct (0 <=? bytesRead t) eqn:Hp; [ | discriminate].
      split; [reflexivity | lia]. }
    destruct Hio as [Hio H0].
    destruct (stream_played t Hh Hb Hio H0)
      as (t' & R & H1 & H2 & H3 & _ & (_ & E2 & E3 & E4 & _)).
    exists (44 * length (unread t))%nat, t'. rewrite R.
    repeat split; assumption.
  - exists 0%nat, t. repeat split; assumption.
Qed.

(** From between bytes, the session ends: some tick reaches DONE, clears the
    override and leaves the saved rate in BAUDRATE when there was one. *)
Lemma session_ends t :
  caq_halves_left t = 0 -> caq_have_byte t = false ->
  exists n,
    caq_stage (snd (run n t)) = DONE /\
    caq_baudrate_overridden (snd (run n t)) = false /\
    BAUDRATE (snd (run n t)) =
    (if caq_baudrate_overridden t then caq_saved_baudrate t
     else BAUDRATE t).
Proof.
  intros Hh Hb.
  destruct (drained t Hh Hb) as (m & t' & R & H1 & H2 & H3 & E1 & E2 & E3).
  exists (m + 1)%nat. rewrite run_app. cbn [snd]. rewrite R.
  cbn [run snd]. rewrite (end_tick _ H1 H2 H3).
  destruct (caq_done_effect (set_caq_stage DONE (set_currentPeriod 0 t')))
    as (D1 & _ & _ & _ & D5 & D6).
  fields_in D1. fields_in D6. rewrite D1, D5, D6, E1, E2, E3.
  repeat split.
Qed.

(** What one tick does to the override: it ends it, in DONE, or leaves it
    alone. *)
Lemma tick_baud_cases V s :
  baud_inv V s ->
  caq_stage (caq_process s) = DONE /\ BAUDRATE (caq_process s) = V /\
  caq_baudrate_overridden (caq_process s) = false \/
  caq_stage (caq_process s) <> DONE /\
  BAUDRATE (caq_process s) = BAUDRATE s /\
  caq_baudrate_overridden (caq_process s) = caq_baudrate_overridden s /\
  caq_saved_baudrate (caq_process s) = caq_saved_baudrate s.
Proof.
  intros H. pose proof H as [Hd Hb].
  destruct (tick_baud V s H) as [_ Hdone].
  destruct (Z.eq_dec (caq_halves_left s) 0) as [Hh | Hh].
  - rewrite (tick_new _ Hh) in *.
    destruct (caq_fetch_frame (set_currentPeriod 0 s))
      as (F1 & F2 & F3 & _).
    fields_in F1. fields_in F2. fields_in F3.
    revert Hdone F1 F2 F3. generalize (caq_fetch (set_currentPeriod 0 s)).
    intros t Hdone F1 F2 F3.
    destruct (caq_switch_cases t)
      as [(_ & Hn & _ & _ & G1 & G2 & G3) | (Ht & E)].
    + right. rewrite G1, G2, G3, F1, F2, F3. repeat split. exact Hn.
    + left. assert (Hs : caq_stage (caq_switch t) = DONE).
      { rewrite E. destruct (caq_done_effect t) as (D1 & _). rewrite D1.
        exact Ht. }
      destruct (Hdone Hs) as [A B]. repeat split; assumption.
  - right. rewrite (tick_mid _ Hh). fields. repeat split.
    intros E. apply Hh, Hd, E.
Qed.

(** C5: [caq_init] on a state without override saves the configured rate V
    and forces 600; a second [caq_init] keeps V as the saved rate.  The
    session then runs to its end: some tick reaches DONE, and that tick puts
    BAUDRATE back to V and clears the override.  The same holds when
    [caq_init] is called again after any calls in between (ticks, further
    [caq_init] calls, another image opened): the session that follows still
    ends with BAUDRATE at V, not at 600.  In between, either the override
    holds V and the rate is 600, or the override is over and the rate is V;
    and every tick either reaches DONE, restoring V, or leaves the rate, the
    flag and the saved rate as they are. *)
Theorem caq_baud_roundtrip s cs :
  caq_baudrate_overridden s = false ->
  BAUDRATE (caq_init s) = 600 /\
  caq_saved_baudrate (caq_init s) = BAUDRATE s /\
  caq_baudrate_overridden (caq_init s) = true /\
  caq_saved_baudrate (caq_init (caq_init s)) = BAUDRATE s /\
  BAUDRATE (caq_init (caq_init s)) = 600 /\
  (exists n,
     caq_stage (snd (run n (caq_init s))) = DONE /\
     BAUDRATE (snd (run n (caq_init s))) = BAUDRATE s /\
     caq_baudrate_overridden (snd (run n (caq_init s))) = false) /\
  (exists n,
     caq_stage (snd (run n (caq_init (do_calls cs (caq_init s))))) = DONE /\
     BAUDRATE (snd (run n (caq_init (do_calls cs (caq_init s))))) =
     BAUDRATE s /\
     caq_baudrate_overridden
       (snd (run n (caq_init (do_calls cs (caq_init s))))) = false) /\
  (caq_baudrate_overridden (do_calls cs (caq_init s)) = true /\
   caq_saved_baudrate (do_calls cs (caq_init s)) = BAUDRATE s /\
   BAUDRATE (do_calls cs (caq_init s)) = 600 \/
   caq_baudrate_overridden (do_calls cs (caq_init s)) = false /\
   BAUDRATE (do_calls cs (caq_init s)) = BAUDRATE s) /\
  (caq_stage (caq_process (do_calls cs (caq_init s))) = DONE /\
   BAUDRATE (caq_process (do_calls cs (caq_init s))) = BAUDRATE s /\
   caq_baudrate_overridden (caq_process (do_calls cs (caq_init s))) = false
   \/
   caq_stage (caq_process (do_calls cs (caq_init s))) <> DONE /\
   BAUDRATE (caq_process (do_calls cs (caq_init s))) =
   BAUDRATE (do_calls cs (caq_init s)) /\
   caq_baudrate_overridden (caq_process (do_calls cs (caq_init s))) =
   caq_baudrate_overridden (do_calls cs (caq_init s)) /\
   caq_saved_baudrate (caq_process (do_calls cs (caq_init s))) =
   caq_saved_baudrate (do_calls cs (caq_init s))).
Proof.
  intros Ho.
  assert (E : BAUDRATE (caq_init s) = 600 /\
              caq_saved_baudrate (caq_init s) = BAUDRATE s /\
              caq_baudrate_overridden (caq_init s) = true /\
              caq_stage (caq_init s) = START_BIT).
  { unfold caq_init. cbv zeta. fields. rewrite Ho. repeat split. }
  destruct E as (E1 & E2 & E3 & E4).
  assert (Hi : baud_inv (BAUDRATE s) (caq_init s)).
  { split; [rewrite E4; discriminate | left; repeat split; assumption]. }
  pose proof (calls_baud _ cs _ Hi) as Hc.
  assert (Hre : forall t, baud_inv (BAUDRATE s) t ->
            caq_saved_baudrate (caq_init t) = BAUDRATE s /\
            BAUDRATE (caq_init t) = 600).
  { intros t Ht. destruct (init_baud _ _ Ht) as [_ [(_ & H1 & H2) | (H & _)]];
      [split; assumption | ].
    rewrite init_overrides in H. discriminate H. }
  assert (Hend : forall t, baud_inv (BAUDRATE s) t ->
            exists n,
              caq_stage (snd (run n (caq_init t))) = DONE /\
              BAUDRATE (snd (run n (caq_init t))) = BAUDRATE s /\
              caq_baudrate_overridden (snd (run n (caq_init t))) = false).
  { intros t Ht. destruct (Hre t Ht) as [R1 _].
    destruct (init_ready t) as (Hh & Hb & _).
    destruct (session_ends (caq_init t) Hh Hb) as (n & N1 & N2 & N3).
    rewrite init_overrides, R1 in N3. exists n. repeat split; assumption. }
  destruct (Hre _ Hi) as [I1 I2].
  split; [exact E1 | split; [exact E2 | split; [exact E3 | ]]].
  split; [exact I1 | split; [exact I2 | ]].
  split.
  { destruct (init_ready s) as (Hh & Hb & _).
    destruct (session_ends (caq_init s) Hh Hb) as (n & N1 & N2 & N3).
    rewrite E3, E2 in N3. exists n. repeat split; assumption. }
  split; [apply Hend; exact Hc | ].
  split; [apply Hc | ].
  apply tick_baud_cases. exact Hc.
Qed.

(** The theorem on a session at 1200 baud that is re-initialised after its
    first tick and then finds another image opened. *)
Lemma caq_baud_roundtrip_witness :
  caq_baudrate_overridden (power_on example_image 1200) = false /\
  (BAUDRATE (caq_init (power_on example_image 1200)) = 600 /\
   caq_saved_baudrate (caq_init (power_on example_image 1200)) =
   BAUDRATE (power_on example_image 1200) /\
   caq_baudrate_overridden (caq_init (power_on example_image 1200)) = true /\
   caq_saved_baudrate (caq_init (caq_init (power_on example_image 1200))) =
   BAUDRATE (power_on example_image 1200) /\
   BAUDRATE (caq_init (caq_init (power_on example_image 1200))) = 600 /\
   (exists n,
      caq_stage (snd (run n (caq_init (power_on example_image 1200)))) =
      DONE /\
      BAUDRATE (snd (run n (caq_init (power_on example_image 1200)))) =
      BAUDRATE (power_on example_image 1200) /\
      caq_baudrate_overridden
        (snd (run n (caq_init (power_on example_image 1200)))) = false) /\
   (exists n,
      caq_stage
        (snd (run n
                (caq_init
                   (do_calls [call_process; call_init; call_open empty_image]
                      (caq_init (power_on example_image 1200)))))) = DONE /\
      BAUDRATE
        (snd (run n
                (caq_init
                   (do_calls [call_process; call_init; call_open empty_image]
                      (caq_init (power_on example_image 1200)))))) =
      BAUDRATE (power_on example_image 1200) /\
      caq_baudrate_overridden
        (snd (run n
                (caq_init
                   (do_calls [call_process; call_init; call_open empty_image]
                      (caq_init (power_on example_image 1200)))))) = false) /\
   (caq_baudrate_overridden
      (do_calls [call_process; call_init; call_open empty_image]
         (caq_init (power_on example_image 1200))) = true /\
    caq_saved_baudrate
      (do_calls [call_process; call_init; call_open empty_image]
         (caq_init (power_on example_image 1200))) =
    BAUDRATE (power_on example_image 1200) /\
    BAUDRATE
      (do_calls [call_process; call_init; call_open empty_image]
         (caq_init (power_on example_image 1200))) = 600 \/
    caq_baudrate_overridden
      (do_calls [call_process; call_init; call_open empty_image]
         (caq_init (power_on example_image 1200))) = false /\
    BAUDRATE
      (do_calls [call_process; call_init; call_open empty_image]
         (caq_init (power_on example_image 1200))) =
    BAUDRATE (power_on example_image 1200)) /\
   (caq_stage
      (caq_process
         (do_calls [call_process; call_init; call_open empty_image]
            (caq_init (power_on example_image 1200)))) = DONE /\
    BAUDRATE
      (caq_process
         (do_calls [call_process; call_init; call_open empty_image]
            (caq_init (power_on example_image 1200)))) =
    BAUDRATE (power_on example_image 1200) /\
    caq_baudrate_overridden
      (caq_process
         (do_calls [call_process; call_init; call_open empty_image]
            (caq_init (power_on example_image 1200)))) = false \/
    caq_stage
      (caq_process
         (do_calls [call_process; call_init; call_open empty_image]
            (caq_init (power_on example_image 1200)))) <> DONE /\
    BAUDRATE
      (caq_process
         (do_calls [call_process; call_init; call_open empty_image]
            (caq_init (power_on example_image 1200)))) =
    BAUDRATE
      (do_calls [call_process; call_init; call_open empty_image]
         (caq_init (power_on example_image 1200))) /\
    caq_baudrate_overridden
      (caq_process
         (do_calls [call_process; call_init; call_open empty_image]
            (caq_init (power_on example_image 1200)))) =
    caq_baudrate_overridden
      (do_calls [call_process; call_init; call_open empty_image]
         (caq_init (power_on example_image 1200))) /\
    caq_saved_baudrate
      (caq_process
         (do_calls [call_process; call_init; call_open empty_image]
            (caq_init (power_on example_image 1200)))) =
    caq_saved_baudrate
      (do_calls [call_process; call_init; call_open empty_image]
         (caq_init (power_on example_image 1200))))).
Proof.
  assert (H0 : caq_baudrate_overridden (power_on example_image 1200) = false)
    by reflexivity.
  exact (conj H0
           (caq_baud_roundtrip (power_on example_image 1200)
              [call_process; call_init; call_open empty_image] H0)).
Defined.

End CaqProofs.

(** ** Both encoders *)

(** C7: a tick of either encoder leaves in [currentPeriod] a value of its
    constant set and nothing else: for MZF, from any state at all, one of 0,
    464, 494, 240, 264; for CAQ, from every state reachable from power-on by
    [caq_init], ticks and the rest of the firmware changing the globals, one
    of 0, 272, 544. *)
Theorem period_constants (m : Mzf.state) (c : Caq.state) :
  Caq.reachable c ->
  In (Mzf.currentPeriod (Mzf.mzf_process m)) [0; 464; 494; 240; 264] /\
  In (Caq.currentPeriod (Caq.caq_process c)) [0; 272; 544].
Proof.
  intros Hc. split.
  - exact (MzfProofs.tick_period m).
  - exact (CaqProofs.caq_tick_period c Hc).
Qed.

(** The theorem on the tick that leaves LGAP1 and on the first tick of a CAQ
    session. *)
Lemma period_constants_witness :
  Caq.reachable (Caq.caq_init (Caq.power_on Caq.example_image 1200)) /\
  (In (Mzf.currentPeriod
         (Mzf.mzf_process (Mzf.playing 43999 Mzf.example_image)))
      [0; 464; 494; 240; 264] /\
   In (Caq.currentPeriod
         (Caq.caq_process
            (Caq.caq_init (Caq.power_on Caq.example_image 1200))))
      [0; 272; 544]).
Proof.
  assert (H0 : Caq.reachable
                 (Caq.caq_init (Caq.power_on Caq.example_image 1200)))
    by (apply Caq.reach_init, Caq.reach_power_on).
  exact (conj H0 (period_constants _ _ H0)).
Defined.
